(** * nodejs-poolController, web/Server.ts: protocol servers and interface bridges

    A shallow embedding of the server registry ([WebServer]), the protocol
    server classes ([ProtoServer] and its subclasses), the binding loader of
    the interface bridges, the mDNS response correlator and the REM
    handshake, followed by the properties proved about them.

    Conventions of the embedding.
    - A JavaScript value that may be [undefined] is an [option].
    - A call that may throw returns a [Completion].
    - Callbacks driven by the event loop (timers, socket events, file-watch
      notifications, request completions) are functions from the state before
      the callback to the state after it; the order in which the event loop
      delivers them is a list of events.
    - Objects of libraries (express, socket.io, multicast-dns, node-ssdp) are
      kept only as far as this file reads them back: whether they were
      created, and the flags this file tests. *)

From Stdlib Require Import String List ZArith Bool Lia Arith DecimalString.
Import ListNotations.

Local Open Scope string_scope.
Local Open Scope list_scope.

(** ** JavaScript preliminaries *)

(** The outcome of a call: it returns normally or throws. *)
Inductive Completion (A : Type) : Type :=
| Normal (a : A)
| Throw (message : string).
Arguments Normal {A} a.
Arguments Throw {A} message.

(** Truthiness of a string-valued property: [undefined] and [''] are falsy. *)
Definition truthy (o : option string) : bool :=
  match o with
  | Some s => negb (s =? "")
  | None => false
  end.

(** [s.indexOf(pat)]: the first position of [pat] in [s], or [-1]. *)
Definition indexOf (s pat : string) : Z :=
  match String.index 0 pat s with
  | Some n => Z.of_nat n
  | None => (-1)%Z
  end.

(** ** The host's network interfaces ([os.networkInterfaces()]) *)

Record NetworkInterfaceInfo := {
  address : string;
  family : string;
  mac : string;
  internal : bool
}.

(** The table maps an interface name to its addresses; [for ... in] visits the
    names, and the entries of each array, in insertion order. *)
Definition NetworkInterfaces := list (string * list NetworkInterfaceInfo).

(** [WebServer.family], never reassigned. *)
Definition WebServer_family : string := "IPv4".

(** The test of [getInterface] on one address. *)
Definition isScopeLocal (addr : NetworkInterfaceInfo) : bool :=
  negb (internal addr)
  && (indexOf (mac addr) "00:00:00:" <? 0)%Z
  && (family addr =? WebServer_family).

(** The inner loop of [getInterface], over the addresses of one nic. *)
Fixpoint getInterface_nic (nic : list NetworkInterfaceInfo)
  : option NetworkInterfaceInfo :=
  match nic with
  | [] => None
  | addr :: rest => if isScopeLocal addr then Some addr else getInterface_nic rest
  end.

(** [WebServer.getInterface]: [None] is the fall-through [undefined]. *)
Fixpoint getInterface (networkInterfaces : NetworkInterfaces)
  : option NetworkInterfaceInfo :=
  match networkInterfaces with
  | [] => None
  | (_, nic) :: rest =>
      match getInterface_nic nic with
      | Some addr => Some addr
      | None => getInterface rest
      end
  end.

(** [WebServer.ip] and [WebServer.mac]. *)
Definition WebServer_ip (networkInterfaces : NetworkInterfaces) : string :=
  match getInterface networkInterfaces with
  | None => "0.0.0.0"
  | Some addr => address addr
  end.

Definition WebServer_mac (networkInterfaces : NetworkInterfaces) : string :=
  match getInterface networkInterfaces with
  | None => "00:00:00:00"
  | Some addr => mac addr
  end.

(** ** mDNS: the pending queries and the response handler *)

Record MdnsQuery := { q_name : string; q_type : string }.
Record MdnsAnswer := { a_name : string; a_data : string }.

(** The state the response handler works on: [self.queries] and the
    answers [mdnsEmitter.emit('mdnsResponse', answer)] was called with so
    far, oldest first. *)
Record MdnsPending := {
  queries : list MdnsQuery;
  emitted : list MdnsAnswer
}.

Definition invalidUrl : string := "TypeError [ERR_INVALID_URL]: Invalid URL".

(** [self.mdnsEmitter.emit('mdnsResponse', answer)]. An [EventEmitter] calls
    its listeners synchronously, in the order they were registered, and what
    a listener throws is thrown by [emit]. The only listener this file
    registers for the event (in [HttpInterfaceServer.initBindings]) starts
    with [new URL(response)] on the answer, an object, which throws.
    [listeners] is the number of listeners registered. *)
Definition emit (listeners : nat) : Completion unit :=
  match listeners with
  | O => Normal tt
  | S _ => Throw invalidUrl
  end.

(** The body of the inner [forEach], for one [query] and one [answer]. When
    [emit] throws the assignment to [self.queries] is not reached. The filter
    callback returns [arr] (truthy) when the names differ and [undefined]
    otherwise, so it keeps the entries whose name differs from
    [query.name]. *)
Definition onAnswer (listeners : nat) (query : MdnsQuery) (st : MdnsPending)
  (answer : MdnsAnswer) : MdnsPending * Completion unit :=
  if a_name answer =? q_name query then
    match emit listeners with
    | Normal _ =>
        ({| queries := filter (fun value => negb (q_name value =? q_name query))
                              (queries st);
            emitted := emitted st ++ [answer] |}, Normal tt)
    | Throw e =>
        ({| queries := queries st; emitted := emitted st ++ [answer] |}, Throw e)
    end
  else (st, Normal tt).

(** [arr.forEach(f)] for a callback that may throw: a throw ends the loop. *)
Fixpoint forEach {A : Type} (f : MdnsPending -> A -> MdnsPending * Completion unit)
  (arr : list A) (st : MdnsPending) : MdnsPending * Completion unit :=
  match arr with
  | [] => (st, Normal tt)
  | x :: rest =>
      match f st x with
      | (st', Normal _) => forEach f rest st'
      | (st', Throw e) => (st', Throw e)
      end
  end.

(** The ['response'] handler of [MdnsServer.init]. The outer [forEach] walks
    the array that [self.queries] held when the handler started: [filter]
    builds a new array and never changes that one. Nothing in the handler
    catches what [emit] throws. *)
Definition onResponse (listeners : nat) (pending : list MdnsQuery)
  (answers : list MdnsAnswer) : MdnsPending * Completion unit :=
  forEach (fun st query => forEach (onAnswer listeners query) answers st)
          pending
          {| queries := pending; emitted := [] |}.

(** ** Configuration entries and the configuration store *)

(** A JSON document kept as its text: this file passes such documents on and
    never looks inside them. *)
Definition Json := string.

Record CfgContext := { ctx_options : option Json }.

(** One entry of [web.servers] or [web.interfaces], with the properties this
    file reads. *)
Record Cfg := {
  c_uuid : option string;
  c_enabled : bool;
  c_name : string;
  c_type : option string;
  c_fileName : option string;
  c_port : option Z;
  c_httpsRedirect : bool;
  c_sslKeyFile : option string;
  c_sslCertFile : option string;
  c_context : option CfgContext;
  c_options : option Json
}.

Definition with_uuid (u : string) (c : Cfg) : Cfg :=
  {| c_uuid := Some u; c_enabled := c_enabled c; c_name := c_name c;
     c_type := c_type c; c_fileName := c_fileName c; c_port := c_port c;
     c_httpsRedirect := c_httpsRedirect c; c_sslKeyFile := c_sslKeyFile c;
     c_sslCertFile := c_sslCertFile c; c_context := c_context c;
     c_options := c_options c |}.

(** A JavaScript object used as a map: keys in insertion order. *)
Definition Section_ := list (string * Cfg).

Fixpoint lookup (key : string) (sec : Section_) : option Cfg :=
  match sec with
  | [] => None
  | (k, c) :: rest => if k =? key then Some c else lookup key rest
  end.

(** Modelled from the spec: the configuration store ([config], imported from
    ../config/Config, which is not under src/). The spec's section 6 gives the
    [web] section its two maps, server entries keyed by transport type and
    interface entries keyed by name; [hasServer] records whether the section
    also holds a property called [server], which [HttpServer.init] reads. *)
Record Config := {
  servers : Section_;
  interfaces : Section_;
  hasServer : bool
}.

(** Modelled from the spec: [config.setSection('web.servers.<key>', c)] and
    [config.setSection('web.interfaces.<key>', c)] store [c] under [key]
    ("assigned once, persisted thereafter"); nothing else of the store
    changes. *)
Fixpoint setKey (key : string) (c : Cfg) (sec : Section_) : Section_ :=
  match sec with
  | [] => [(key, c)]
  | (k, c0) :: rest =>
      if k =? key then (k, c) :: rest else (k, c0) :: setKey key c rest
  end.

Definition setServer (key : string) (c : Cfg) (cf : Config) : Config :=
  {| servers := setKey key c (servers cf); interfaces := interfaces cf;
     hasServer := hasServer cf |}.

Definition setInterface (key : string) (c : Cfg) (cf : Config) : Config :=
  {| servers := servers cf; interfaces := setKey key c (interfaces cf);
     hasServer := hasServer cf |}.

(** ** The environment: working directory, files, network interfaces *)

(** A file as this program reads it: [file_json] is what
    [JSON.parse(fs.readFileSync(path, 'utf8'))] returns, [None] when the read
    or the parse throws; [file_mtime] is [fs.statSync(path).mtime.valueOf()]. *)
Record File := { file_json : option Json; file_mtime : Z }.

(** [secureContext key cert] says whether the two files can be read and
    [https.createServer] accepts their contents as key and certificate; the
    read or the call throws otherwise. *)
Record Env := {
  cwd : string;
  fs : string -> option File;
  secureContext : File -> File -> bool;
  networkInterfaces : NetworkInterfaces
}.

(** [path.join(process.cwd(), name)], for a relative [name]. *)
Definition path_join (dir name : string) : string := dir ++ "/" ++ name.

(** ** The protocol servers *)

(** The fields of the base class. *)
Record ProtoServer := {
  name : string;
  type : string;
  uuid : option string;
  remoteConnectionId : option string;
  isRunning : bool
}.

(** [new ProtoServer(name, type)]. *)
Definition new_ProtoServer (n t : string) : ProtoServer :=
  {| name := n; type := t; uuid := None; remoteConnectionId := None;
     isRunning := false |}.

Definition set_uuid (u : option string) (p : ProtoServer) : ProtoServer :=
  {| name := name p; type := type p; uuid := u;
     remoteConnectionId := remoteConnectionId p; isRunning := isRunning p |}.

Definition set_isRunning (b : bool) (p : ProtoServer) : ProtoServer :=
  {| name := name p; type := type p; uuid := uuid p;
     remoteConnectionId := remoteConnectionId p; isRunning := b |}.

Definition set_remoteConnectionId (i : option string) (p : ProtoServer)
  : ProtoServer :=
  {| name := name p; type := type p; uuid := uuid p;
     remoteConnectionId := i; isRunning := isRunning p |}.

(** [HttpServer] and [HttpsServer]: [app], [server] and [sockServer] are kept
    as "has been created"; [_sockets] as its length. *)
Record HttpServer := {
  http_proto : ProtoServer;
  app : bool;
  server : bool;
  sockServer : bool;
  _sockets : nat
}.

Definition new_HttpServer (n t : string) : HttpServer :=
  {| http_proto := new_ProtoServer n t; app := false; server := false;
     sockServer := false; _sockets := 0 |}.

(** [Http2Server]: [app] as "has been created". *)
Record Http2Server := {
  http2_proto : ProtoServer;
  http2_app : bool
}.

Definition new_Http2Server (n t : string) : Http2Server :=
  {| http2_proto := new_ProtoServer n t; http2_app := false |}.

(** [SsdpServer]: the node-ssdp server, once created, with the two strings it
    was created with. *)
Record SsdpDevice := { udn : string; location : string }.

Record SsdpServer := {
  ssdp_proto : ProtoServer;
  ssdp_server : option SsdpDevice
}.

Definition new_SsdpServer (n t : string) : SsdpServer :=
  {| ssdp_proto := new_ProtoServer n t; ssdp_server := None |}.

(** [MdnsServer]: [server] as "has been created", the pending queries, and
    the number of listeners registered on [mdnsEmitter] for
    ['mdnsResponse']. *)
Record MdnsServer := {
  mdns_proto : ProtoServer;
  mdns_server : bool;
  mdns_queries : list MdnsQuery;
  mdns_listeners : nat
}.

Definition new_MdnsServer (n t : string) : MdnsServer :=
  {| mdns_proto := new_ProtoServer n t; mdns_server := false;
     mdns_queries := []; mdns_listeners := 0 |}.

(** The binding object of an interface bridge,
    [Object.assign(new XInterfaceBindings(cfg), extend(true, {}, options, file))],
    kept as the three values it is built from. *)
Record InterfaceBindings := {
  ib_cfg : Cfg;
  ib_options : option Json;
  ib_file : Json
}.

(** [HttpInterfaceServer], [InfluxInterfaceServer] and [MqttInterfaceServer]
    declare the same fields. [watchers] lists the configurations the callbacks
    installed by [fs.watch] were created with, oldest first. *)
Record InterfaceServer := {
  if_proto : ProtoServer;
  bindingsPath : option string;
  bindings : option InterfaceBindings;
  _fileTime : Z;
  _isLoading : bool;
  watchers : list Cfg
}.

Definition new_InterfaceServer (n t : string) : InterfaceServer :=
  {| if_proto := new_ProtoServer n t; bindingsPath := None; bindings := None;
     _fileTime := 0%Z; _isLoading := false; watchers := [] |}.

(** [REMInterfaceServer]: [sockClient], once created, is kept as its
    [connected] flag. *)
Record REMInterfaceServer := {
  rem_proto : ProtoServer;
  cfg : option Cfg;
  sockClient : option bool
}.

Definition new_REMInterfaceServer (n t : string) : REMInterfaceServer :=
  {| rem_proto := new_ProtoServer n t; cfg := None; sockClient := None |}.

(** An instance of one of the classes. *)
Inductive Handle :=
| Http (s : HttpServer)
| Http2 (s : Http2Server)
| Https (s : HttpServer)
| Mdns (s : MdnsServer)
| Ssdp (s : SsdpServer)
| HttpInterface (s : InterfaceServer)
| InfluxInterface (s : InterfaceServer)
| MqttInterface (s : InterfaceServer)
| REMInterface (s : REMInterfaceServer).

Definition proto (h : Handle) : ProtoServer :=
  match h with
  | Http s | Https s => http_proto s
  | Http2 s => http2_proto s
  | Mdns s => mdns_proto s
  | Ssdp s => ssdp_proto s
  | HttpInterface s | InfluxInterface s | MqttInterface s => if_proto s
  | REMInterface s => rem_proto s
  end.

(** [WebServer._servers]: an array whose entries [stopAsync] overwrites with
    [undefined]. *)
Definition Servers := list (option Handle).

(** A number inside a template literal or a string concatenation. *)
Definition showZ (z : Z) : string := NilZero.string_of_int (Z.to_int z).

(** What [bindings.context.mdnsDiscovery] holds when it is truthy: a name, or
    a query object. *)
Inductive Discovery :=
| ByName (n : string)
| ByQuery (q : MdnsQuery).

Section Classes.

(** The binding classes ([HttpInterfaceBindings], [InfluxInterfaceBindings],
    [MqttInterfaceBindings], imported from ./interfaces) are not under src/.
    This file reads two things from a binding object, taken as parameters:
    - [bindings.context.mdnsDiscovery], which throws when [context] is
      undefined and is [None] when the property is falsy;
    - [bindings.events.length], [None] when [events] is undefined. *)
Variable context_mdnsDiscovery : InterfaceBindings -> Completion (option Discovery).
Variable events_length : InterfaceBindings -> option nat.

(** [utils.uuid()] (../controller/Constants, not under src/): the n-th
    identifier it hands out. *)
Variable utils_uuid : nat -> string.

(** *** HttpServer, Http2Server, HttpsServer *)

Definition HttpServer_running (u : option string) (s : HttpServer) : HttpServer :=
  {| http_proto := set_isRunning true (set_uuid u (http_proto s));
     app := true; server := true; sockServer := true; _sockets := _sockets s |}.

(** A port [server.listen(port, ...)] accepts, for a port that is a number
    or not given: [undefined], or a number from 0 to 65535. For any other
    number it throws at once. *)
Definition validPort (port : option Z) : bool :=
  match port with
  | Some n => (0 <=? n)%Z && (n <=? 65535)%Z
  | None => true
  end.

(** [HttpServer.init]. With [cfg.httpsRedirect] set it reads
    [config.getSection('web').server.https], which throws when the section
    has no [server] property; [app] and [server] exist by then. The socket
    server is created before [server.listen(cfg.port, ...)], which throws on
    a port out of range, before [isRunning] is set. *)
Definition HttpServer_init (conf : Config) (c : Cfg) (s : HttpServer)
  : HttpServer * Completion unit :=
  let p := set_uuid (c_uuid c) (http_proto s) in
  if c_enabled c then
    if c_httpsRedirect c && negb (hasServer conf) then
      ({| http_proto := p; app := true; server := true;
          sockServer := sockServer s; _sockets := _sockets s |},
       Throw "TypeError: Cannot read properties of undefined (reading 'https')")
    else if validPort (c_port c) then (HttpServer_running (c_uuid c) s, Normal tt)
    else
      ({| http_proto := p; app := true; server := true; sockServer := true;
          _sockets := _sockets s |},
       Throw "RangeError [ERR_SOCKET_BAD_PORT]: options.port should be >= 0 and < 65536.")
  else
    ({| http_proto := p; app := app s; server := server s;
        sockServer := sockServer s; _sockets := _sockets s |}, Normal tt).

(** [Http2Server.init]. *)
Definition Http2Server_init (c : Cfg) (s : Http2Server) : Http2Server :=
  {| http2_proto := set_uuid (c_uuid c) (http2_proto s);
     http2_app := if c_enabled c then true else http2_app s |}.

(** The files [HttpsServer.init] reads: both names non-empty and both files
    present under the working directory. An undefined name makes [path.join]
    throw inside the [try], which leaves the same state as the early
    [return]. *)
Definition sslFiles (env : Env) (c : Cfg) : option (File * File) :=
  match c_sslKeyFile c, c_sslCertFile c with
  | Some k, Some t =>
      if negb (k =? "") && negb (t =? "") then
        match fs env (path_join (cwd env) k), fs env (path_join (cwd env) t) with
        | Some key, Some cert => Some (key, cert)
        | _, _ => None
        end
      else None
  | _, _ => None
  end.

(** [HttpsServer.init]: everything after the [enabled] test is inside a
    [try], so nothing escapes. [https.createServer] throws on a key or a
    certificate it does not accept, before [server] is assigned;
    [server.listen] throws on a port out of range, after the socket server
    was created and before [isRunning] is set. *)
Definition HttpsServer_init (env : Env) (c : Cfg) (s : HttpServer) : HttpServer :=
  let p := set_uuid (c_uuid c) (http_proto s) in
  if c_enabled c then
    match sslFiles env c with
    | Some (key, cert) =>
        if secureContext env key cert then
          if validPort (c_port c) then HttpServer_running (c_uuid c) s
          else {| http_proto := p; app := true; server := true;
                  sockServer := true; _sockets := _sockets s |}
        else {| http_proto := p; app := true; server := server s;
                sockServer := sockServer s; _sockets := _sockets s |}
    | None => {| http_proto := p; app := true; server := server s;
                 sockServer := sockServer s; _sockets := _sockets s |}
    end
  else {| http_proto := p; app := app s; server := server s;
          sockServer := sockServer s; _sockets := _sockets s |}.

(** [HttpServer.isConnected], inherited by [HttpsServer]. *)
Definition HttpServer_isConnected (s : HttpServer) : bool :=
  sockServer s && (0 <? _sockets s)%nat.

(** *** SsdpServer *)

(** [SsdpServer.init]. [isRunning] is set by the continuation of
    [server.start()], see [SsdpServer_started]. *)
Definition SsdpServer_init (env : Env) (conf : Config) (c : Cfg) (s : SsdpServer)
  : SsdpServer * Completion unit :=
  let p := set_uuid (c_uuid c) (ssdp_proto s) in
  if c_enabled c then
    match lookup "http" (servers conf) with
    | None =>
        ({| ssdp_proto := p; ssdp_server := ssdp_server s |},
         Throw "TypeError: Cannot read properties of undefined (reading 'port')")
    | Some h =>
        let port := match c_port h with
                    | Some n => if (n =? 0)%Z then 4200%Z else n
                    | None => 4200%Z
                    end in
        ({| ssdp_proto := p;
            ssdp_server :=
              Some {| udn := "uuid:806f52f4-1f35-4e33-9299-"
                             ++ WebServer_mac (networkInterfaces env);
                      location := "http://" ++ WebServer_ip (networkInterfaces env)
                                  ++ ":" ++ showZ port ++ "/device" |} |},
         Normal tt)
    end
  else ({| ssdp_proto := p; ssdp_server := ssdp_server s |}, Normal tt).

(** The [then] callback of [server.start()]. *)
Definition SsdpServer_started (s : SsdpServer) : SsdpServer :=
  {| ssdp_proto := set_isRunning true (ssdp_proto s);
     ssdp_server := ssdp_server s |}.

(** *** MdnsServer *)

(** [MdnsServer.init]. *)
Definition MdnsServer_init (c : Cfg) (s : MdnsServer) : MdnsServer :=
  let p := set_uuid (c_uuid c) (mdns_proto s) in
  if c_enabled c then
    {| mdns_proto := set_isRunning true p; mdns_server := true;
       mdns_queries := mdns_queries s; mdns_listeners := mdns_listeners s |}
  else {| mdns_proto := p; mdns_server := mdns_server s;
          mdns_queries := mdns_queries s; mdns_listeners := mdns_listeners s |}.

(** [MdnsServer.queryMdns(query)] for a [query] object that is not yet in
    [queries] (the callers in this file build a new object for every call, and
    [indexOf] compares objects by identity): the query is pushed, then
    [this.server.query] throws when the server was never created. *)
Definition MdnsServer_queryMdns (query : MdnsQuery) (s : MdnsServer)
  : MdnsServer * Completion unit :=
  ({| mdns_proto := mdns_proto s; mdns_server := mdns_server s;
      mdns_queries := mdns_queries s ++ [query];
      mdns_listeners := mdns_listeners s |},
   if mdns_server s then Normal tt
   else Throw "TypeError: Cannot read properties of undefined (reading 'query')").

(** [srv.mdnsEmitter.on('mdnsResponse', ...)]. *)
Definition MdnsServer_addListener (s : MdnsServer) : MdnsServer :=
  {| mdns_proto := mdns_proto s; mdns_server := mdns_server s;
     mdns_queries := mdns_queries s; mdns_listeners := S (mdns_listeners s) |}.

(** What [HttpInterfaceServer.initBindings], the only caller of [queryMdns]
    in this file, does with the mDNS server:
    [srv.queryMdns(qry); srv.mdnsEmitter.on('mdnsResponse', ...)]. *)
Definition discover (qry : MdnsQuery) (s : MdnsServer)
  : MdnsServer * Completion unit :=
  match MdnsServer_queryMdns qry s with
  | (s1, Normal _) => (MdnsServer_addListener s1, Normal tt)
  | (s1, Throw e) => (s1, Throw e)
  end.

(** The ['response'] handler on the server's own state, with the answers
    [emit] was called with and the way the handler ends. *)
Definition MdnsServer_onResponse (answers : list MdnsAnswer) (s : MdnsServer)
  : MdnsServer * list MdnsAnswer * Completion unit :=
  let r := onResponse (mdns_listeners s) (mdns_queries s) answers in
  ({| mdns_proto := mdns_proto s; mdns_server := mdns_server s;
      mdns_queries := queries (fst r); mdns_listeners := mdns_listeners s |},
   emitted (fst r), snd r).

(** *** The interface bridges: HttpInterfaceServer, InfluxInterfaceServer,
    MqttInterfaceServer *)

(** The second argument of [extend]:
    [typeof cfg.context !== 'undefined' ? cfg.context.options : {}]. *)
Definition baseOptions (c : Cfg) : option Json :=
  match c_context c with
  | Some ctx => ctx_options ctx
  | None => Some "{}"
  end.

(** [fs.existsSync], [fs.statSync] and [fs.readFileSync] on
    [this.bindingsPath]. *)
Definition bindingsFile (env : Env) (s : InterfaceServer) : option File :=
  match bindingsPath s with
  | Some p => fs env p
  | None => None
  end.

(** [loadBindings(cfg)], the same text in the three classes; the result is
    the state of the bridge and the value returned. *)
Definition loadBindings (env : Env) (c : Cfg) (s : InterfaceServer)
  : InterfaceServer * bool :=
  match bindingsFile env s with
  | Some f =>
      match file_json f with
      | Some doc =>
          ({| if_proto := set_isRunning true (if_proto s);
              bindingsPath := bindingsPath s;
              bindings := Some {| ib_cfg := c; ib_options := baseOptions c;
                                  ib_file := doc |};
              _fileTime := file_mtime f;
              _isLoading := false;
              watchers := watchers s |}, true)
      | None =>
          ({| if_proto := set_isRunning false (if_proto s);
              bindingsPath := bindingsPath s;
              bindings := bindings s;
              _fileTime := _fileTime s;
              _isLoading := false;
              watchers := watchers s |}, false)
      end
  | None =>
      ({| if_proto := if_proto s;
          bindingsPath := bindingsPath s;
          bindings := bindings s;
          _fileTime := _fileTime s;
          _isLoading := true;
          watchers := watchers s |}, false)
  end.

(** The callback given to [fs.watch], created with [cfg] and called with
    [(event, fileName)]. It returns the state of the bridge and the number of
    calls of [loadBindings] it made; [fs.statSync] throws when the file is
    gone, before anything was changed. *)
Definition onChange (env : Env) (c : Cfg) (event : string)
  (fileName : option string) (s : InterfaceServer)
  : Completion (InterfaceServer * nat) :=
  if truthy fileName && (event =? "change") then
    if _isLoading s then Normal (s, 0)
    else
      match bindingsFile env s with
      | None => Throw "ENOENT: no such file or directory, stat"
      | Some stats =>
          if (file_mtime stats =? _fileTime s)%Z then Normal (s, 0)
          else Normal (fst (loadBindings env c s), 1)
      end
  else Normal (s, 0).

(** The start of [initBindings] in the three classes: the path is stored,
    [fs.watch] throws when there is no such file (the [catch] then returns
    [false]), otherwise the callback is installed and the file loaded. The
    [bool] says whether the [try] block is still running. *)
Definition watchAndLoad (env : Env) (c : Cfg) (s : InterfaceServer)
  : InterfaceServer * bool :=
  let path :=
    (cwd env ++ "/web/bindings" ++ "/"
     ++ match c_fileName c with Some f => f | None => "undefined" end)%string in
  match fs env path with
  | None =>
      ({| if_proto := if_proto s; bindingsPath := Some path;
          bindings := bindings s; _fileTime := _fileTime s;
          _isLoading := _isLoading s; watchers := watchers s |}, false)
  | Some _ =>
      (fst (loadBindings env c
              {| if_proto := if_proto s; bindingsPath := Some path;
                 bindings := bindings s; _fileTime := _fileTime s;
                 _isLoading := _isLoading s; watchers := watchers s ++ [c] |}),
       true)
  end.

(** [initBindings] of [InfluxInterfaceServer] and [MqttInterfaceServer]. *)
Definition initBindings (env : Env) (c : Cfg) (s : InterfaceServer)
  : InterfaceServer * bool :=
  watchAndLoad env c s.

(** [webApp.mdnsServer]: the first entry that is an [MdnsServer]. *)
Fixpoint mdnsServer (l : Servers) : option MdnsServer :=
  match l with
  | [] => None
  | Some (Mdns m) :: _ => Some m
  | _ :: rest => mdnsServer rest
  end.

(** A method call on the object [webApp.mdnsServer] returns. *)
Fixpoint onMdnsServer (f : MdnsServer -> MdnsServer) (l : Servers) : Servers :=
  match l with
  | [] => []
  | Some (Mdns m) :: rest => Some (Mdns (f m)) :: rest
  | h :: rest => h :: onMdnsServer f rest
  end.

(** [initBindings] of [HttpInterfaceServer]: after the load it looks for a
    discovery query in the binding, hands it to the mDNS server of the
    registry and registers its listener for ['mdnsResponse'] there. Reading
    [this.bindings.context] throws when the load left no binding. *)
Definition HttpInterfaceServer_initBindings (env : Env) (l : Servers) (c : Cfg)
  (s : InterfaceServer) : Servers * InterfaceServer * bool :=
  match watchAndLoad env c s with
  | (s1, false) => (l, s1, false)
  | (s1, true) =>
      match bindings s1 with
      | None => (l, s1, false)
      | Some b =>
          match context_mdnsDiscovery b with
          | Throw _ => (l, s1, false)
          | Normal None => (l, s1, true)
          | Normal (Some d) =>
              let qry := match d with
                         | ByName n => {| q_name := n; q_type := "A" |}
                         | ByQuery q => q
                         end in
              match mdnsServer l with
              | None => (l, s1, true)
              | Some m =>
                  (onMdnsServer (fun m => fst (discover qry m)) l,
                   s1,
                   match snd (discover qry m) with
                   | Normal _ => true
                   | Throw _ => false
                   end)
              end
          end
      end
  end.

Definition InterfaceServer_set_proto (p : ProtoServer) (s : InterfaceServer)
  : InterfaceServer :=
  {| if_proto := p; bindingsPath := bindingsPath s; bindings := bindings s;
     _fileTime := _fileTime s; _isLoading := _isLoading s;
     watchers := watchers s |}.

(** [init] of [InfluxInterfaceServer] and [MqttInterfaceServer]:
    [if (cfg.fileName && this.initBindings(cfg)) this.isRunning = true]. *)
Definition InterfaceServer_init (env : Env) (c : Cfg) (s : InterfaceServer)
  : InterfaceServer :=
  let s0 := InterfaceServer_set_proto (set_uuid (c_uuid c) (if_proto s)) s in
  if c_enabled c && truthy (c_fileName c) then
    match initBindings env c s0 with
    | (s1, true) => InterfaceServer_set_proto (set_isRunning true (if_proto s1)) s1
    | (s1, false) => s1
    end
  else s0.

(** [init] of [HttpInterfaceServer]. *)
Definition HttpInterfaceServer_init (env : Env) (l : Servers) (c : Cfg)
  (s : InterfaceServer) : Servers * InterfaceServer :=
  let s0 := InterfaceServer_set_proto (set_uuid (c_uuid c) (if_proto s)) s in
  if c_enabled c && truthy (c_fileName c) then
    match HttpInterfaceServer_initBindings env l c s0 with
    | (l1, s1, true) =>
        (l1, InterfaceServer_set_proto (set_isRunning true (if_proto s1)) s1)
    | (l1, s1, false) => (l1, s1)
    end
  else (l, s0).

(** [MqttInterfaceServer.isConnected]:
    [this.isRunning && this.bindings.events.length > 0]. *)
Definition MqttInterfaceServer_isConnected (s : InterfaceServer)
  : Completion bool :=
  if isRunning (if_proto s) then
    match bindings s with
    | Some b =>
        match events_length b with
        | Some n => Normal (0 <? n)%nat
        | None => Throw "TypeError: Cannot read properties of undefined (reading 'length')"
        end
    | None => Throw "TypeError: Cannot read properties of undefined (reading 'events')"
    end
  else Normal false.

(** *** REMInterfaceServer: init and the socket channel *)

(** [initSockets]: building the url reads [this.cfg.options], which throws
    inside the [try] when there are no options; otherwise a socket client is
    created (not yet connected) and the bridge marked running. *)
Definition REMInterfaceServer_initSockets (s : REMInterfaceServer)
  : REMInterfaceServer :=
  match cfg s with
  | Some c =>
      match c_options c with
      | Some _ =>
          {| rem_proto := set_isRunning true (rem_proto s); cfg := cfg s;
             sockClient := Some false |}
      | None => s
      end
  | None => s
  end.

(** [REMInterfaceServer.init]; the [bool] says whether the 5000 ms timer that
    runs [initConnection] was set. *)
Definition REMInterfaceServer_init (c : Cfg) (s : REMInterfaceServer)
  : REMInterfaceServer * bool :=
  let s0 := {| rem_proto := set_uuid (c_uuid c) (rem_proto s); cfg := Some c;
               sockClient := sockClient s |} in
  if c_enabled c then (REMInterfaceServer_initSockets s0, true)
  else (s0, false).

(** The socket client reports a connect or a disconnect: socket.io updates
    [sockClient.connected]. *)
Definition REMInterfaceServer_socket (connected : bool) (s : REMInterfaceServer)
  : REMInterfaceServer :=
  match sockClient s with
  | Some _ => {| rem_proto := rem_proto s; cfg := cfg s;
                 sockClient := Some connected |}
  | None => s
  end.

(** [REMInterfaceServer.isConnected]:
    [this.sockClient !== 'undefined' && this.sockClient.connected]. The left
    operand compares with the string ['undefined'] and is always true, so an
    undefined [sockClient] makes the property read throw. *)
Definition REMInterfaceServer_isConnected (s : REMInterfaceServer)
  : Completion bool :=
  match sockClient s with
  | Some connected => Normal connected
  | None => Throw "TypeError: Cannot read properties of undefined (reading 'connected')"
  end.

(** *** isConnected, class by class *)

Definition isConnected (h : Handle) : Completion bool :=
  match h with
  | Http s | Https s => Normal (HttpServer_isConnected s)
  | MqttInterface s => MqttInterfaceServer_isConnected s
  | REMInterface s => REMInterfaceServer_isConnected s
  | Http2 _ | Mdns _ | Ssdp _ | HttpInterface _ | InfluxInterface _ =>
      Normal (isRunning (proto h))
  end.

(** *** The registry lookups the handshake uses *)

(** [WebServer.findServer(name)]: [find] calls its predicate on every entry
    up to the first match, and reading [elem.name] of an entry that
    [stopAsync] set to [undefined] throws. *)
Fixpoint findServer (n : string) (l : Servers) : Completion (option Handle) :=
  match l with
  | [] => Normal None
  | None :: _ => Throw "TypeError: Cannot read properties of undefined (reading 'name')"
  | Some h :: rest => if name (proto h) =? n then Normal (Some h) else findServer n rest
  end.

(** [srv.addListenerOnce(event, f)] on what [findServer] returned: only
    [HttpServer] (and so [HttpsServer]) has the method, and it calls
    [this.sockServer.once]. *)
Definition addListenerOnce (srv : option Handle) : Completion unit :=
  match srv with
  | Some (Http s) | Some (Https s) =>
      if sockServer s then Normal tt
      else Throw "TypeError: Cannot read properties of undefined (reading 'once')"
  | Some _ => Throw "TypeError: srv.addListenerOnce is not a function"
  | None => Throw "TypeError: Cannot read properties of undefined (reading 'addListenerOnce')"
  end.

(** *** REMInterfaceServer: requests to the peer *)

(** What [JSON.parse] returns, as far as this file reads it: the properties of
    an object are kept with their values converted to strings. *)
Inductive JsonValue :=
| JNull
| JPrimitive (text : string)
| JObject (props : list (string * string)).

Fixpoint assoc (k : string) (props : list (string * string)) : option string :=
  match props with
  | [] => None
  | (k0, v) :: rest => if k0 =? k then Some v else assoc k rest
  end.

(** Reading property [k] of a parsed value. *)
Definition getProp (k : string) (j : JsonValue) : Completion (option string) :=
  match j with
  | JNull => Throw ("TypeError: Cannot read properties of null (reading '" ++ k ++ "')")
  | JPrimitive _ => Normal None
  | JObject props => Normal (assoc k props)
  end.

(** The [error] field of a response: unset, an [Error], or whatever the
    peer's error body parsed to. *)
Inductive ErrorField :=
| NoError
| JsError (message : string)
| PeerError (j : JsonValue).

(** [InterfaceServerResponse], without [data]: nothing kept here reads the
    body text again. *)
Record InterfaceServerResponse := {
  status_code : Z;
  status_message : string;
  error : ErrorField;
  obj : option JsonValue
}.

(** What the network did with one request: the options name no host, so no
    request is made; the peer answers, with a status and a body that
    [JSON.parse] turns into [parsed] ([None] when it throws); or the request
    fails with a message ('Request timeout', a socket error, an abort). *)
Inductive HttpExchange :=
| NoHost
| Response (statusCode : Z) (statusMessage : string) (parsed : option JsonValue)
| NoResponse (message : string).

(** [sendClientRequest], from the point where the request has settled (and so
    [putApiService], which passes its result on). [n] is [this.cfg.name].
    - no host in the options: the early return with [error] set;
    - the request promise rejected (timeout, socket error, abort): the
      [catch] stores the error, the status code stays at [-1];
    - a status above 200: [error] is the parsed body, or an [Error] when the
      body does not parse;
    - status 200: [obj] is the parsed body when it parses. *)
Definition sendClientRequest (n : string) (x : HttpExchange)
  : InterfaceServerResponse :=
  match x with
  | NoHost =>
      {| status_code := (-1)%Z; status_message := "";
         error := JsError ("Interface: " ++ n ++ " has not resolved to a valid host.");
         obj := None |}
  | NoResponse m =>
      {| status_code := (-1)%Z; status_message := ""; error := JsError m;
         obj := None |}
  | Response code msg parsed =>
      if (200 <? code)%Z then
        {| status_code := code; status_message := msg;
           error := match parsed with
                    | Some j => PeerError j
                    | None => JsError ("Unidentified " ++ showZ code ++ " Error: " ++ msg)
                    end;
           obj := None |}
      else
        {| status_code := code; status_message := msg; error := NoError;
           obj := if (code =? 200)%Z then parsed else None |}
  end.

(** [result.error.message]. *)
Definition error_message (r : InterfaceServerResponse) : Completion (option string) :=
  match error r with
  | NoError => Throw "TypeError: Cannot read properties of undefined (reading 'message')"
  | JsError m => Normal (Some m)
  | PeerError j => getProp "message" j
  end.

(** [result.obj.id]. *)
Definition obj_id (r : InterfaceServerResponse) : Completion (option string) :=
  match obj r with
  | None => Throw "TypeError: Cannot read properties of undefined (reading 'id')"
  | Some j => getProp "id" j
  end.

(** A value inside a template literal. *)
Definition show (o : option string) : string :=
  match o with
  | Some s => s
  | None => "undefined"
  end.

(** *** REMInterfaceServer: the handshake of initConnection *)

(** The promise [initConnection] returns: the first [resolve] or [reject]
    settles it, later calls do nothing. *)
Inductive Promise :=
| Pending
| Resolved
| RejectedWith (reason : string).

Definition resolve (p : Promise) : Promise :=
  match p with
  | Pending => Resolved
  | _ => p
  end.

Definition reject (reason : string) (p : Promise) : Promise :=
  match p with
  | Pending => RejectedWith reason
  | _ => p
  end.

(** The continuation of the run the event loop holds next. *)
Inductive Stage :=
| Scheduled    (* the 5000 ms timer set by [init] *)
| Phase1       (* the awaited PUT /config/checkconnection/ *)
| Settling     (* the 3000 ms timer *)
| Phase2       (* the awaited PUT /config/checkemit *)
| Finished.

(** One run of [initConnection]. [_tmr] is "the 5000 ms deadline is armed",
    [listening] "the once-listener for '/checkemit' is registered",
    [requests] the urls requested so far, [uncaught] the errors thrown out of
    the async callbacks (nothing handles them). *)
Record Handshake := {
  promise : Promise;
  stage : Stage;
  result : option InterfaceServerResponse;
  _tmr : bool;
  listening : bool;
  requests : list string;
  uncaught : list string
}.

Definition scheduled : Handshake :=
  {| promise := Pending; stage := Scheduled; result := None; _tmr := false;
     listening := false; requests := []; uncaught := [] |}.

(** What the event loop delivers to a run. *)
Inductive HandshakeEvent :=
| InitTimer
| Phase1Returns (x : HttpExchange)
| SettleTimer
| CheckEmit
| Phase2Returns (x : HttpExchange)
| DeadlineTimer.

Definition noSocketResponse : string :=
  "initConnection: No socket response received.  Check REM→njsPC communications.".

Definition cfg_name (s : REMInterfaceServer) : string :=
  match cfg s with
  | Some c => c_name c
  | None => "undefined"
  end.

(** The executor of [initConnection] up to its first [await]: building the
    descriptor reads [config.getSection('web').servers.http.port]. *)
Definition onInitTimer (conf : Config) (h : Handshake) : Handshake :=
  match lookup "http" (servers conf) with
  | None =>
      {| promise := promise h; stage := Finished; result := result h;
         _tmr := _tmr h; listening := listening h; requests := requests h;
         uncaught := uncaught h
           ++ ["TypeError: Cannot read properties of undefined (reading 'port')"] |}
  | Some _ =>
      {| promise := promise h; stage := Phase1; result := result h;
         _tmr := _tmr h; listening := listening h;
         requests := requests h ++ ["/config/checkconnection/"];
         uncaught := uncaught h |}
  end.

(** From the return of the first [await] to the [setTimeout] of 3000 ms. *)
Definition onPhase1Returns (x : HttpExchange) (s : REMInterfaceServer)
  (h : Handshake) : REMInterfaceServer * Handshake :=
  let r := sendClientRequest (cfg_name s) x in
  if (200 <? status_code r)%Z || (status_code r <? 0)%Z then
    match error_message r with
    | Normal m =>
        (s, {| promise := reject ("initConnection: " ++ show m) (promise h);
               stage := Finished; result := Some r; _tmr := _tmr h;
               listening := listening h; requests := requests h;
               uncaught := uncaught h |})
    | Throw e =>
        (s, {| promise := promise h; stage := Finished; result := Some r;
               _tmr := _tmr h; listening := listening h;
               requests := requests h; uncaught := uncaught h ++ [e] |})
    end
  else
    match obj_id r with
    | Normal id =>
        ({| rem_proto := set_remoteConnectionId id (rem_proto s); cfg := cfg s;
            sockClient := sockClient s |},
         {| promise := promise h; stage := Settling; result := Some r;
            _tmr := _tmr h; listening := listening h; requests := requests h;
            uncaught := uncaught h |})
    | Throw e =>
        (s, {| promise := promise h; stage := Finished; result := Some r;
               _tmr := _tmr h; listening := listening h;
               requests := requests h; uncaught := uncaught h ++ [e] |})
    end.

(** The [catch] of the 3000 ms callback:
    [reject(new Error(`initConnection setTimeout: ${result.error.message}`))],
    where reading the message may throw again. *)
Definition catchInSettle (h : Handshake) : Handshake :=
  match match result h with
        | Some r => error_message r
        | None => Throw "TypeError: Cannot read properties of undefined (reading 'error')"
        end with
  | Normal m =>
      {| promise := reject ("initConnection setTimeout: " ++ show m) (promise h);
         stage := Finished; result := result h; _tmr := _tmr h;
         listening := listening h; requests := requests h;
         uncaught := uncaught h |}
  | Throw e =>
      {| promise := promise h; stage := Finished; result := result h;
         _tmr := _tmr h; listening := listening h; requests := requests h;
         uncaught := uncaught h ++ [e] |}
  end.

(** The 3000 ms callback up to its [await]: the deadline is armed, the
    listener registered on the server named 'http', the second request
    sent. *)
Definition onSettleTimer (l : Servers) (h : Handshake) : Handshake :=
  let armed := {| promise := promise h; stage := stage h; result := result h;
                  _tmr := true; listening := listening h;
                  requests := requests h; uncaught := uncaught h |} in
  match findServer "http" l with
  | Throw _ => catchInSettle armed
  | Normal srv =>
      match addListenerOnce srv with
      | Throw _ => catchInSettle armed
      | Normal _ =>
          {| promise := promise h; stage := Phase2; result := result h;
             _tmr := true; listening := true;
             requests := requests h ++ ["/config/checkemit"];
             uncaught := uncaught h |}
      end
  end.

(** The once-listener: [clearTimeout(_tmr)], [resolve()]. *)
Definition onCheckEmit (h : Handshake) : Handshake :=
  {| promise := resolve (promise h); stage := stage h; result := result h;
     _tmr := false; listening := false; requests := requests h;
     uncaught := uncaught h |}.

(** From the return of the second [await] to the end of the callback. *)
Definition onPhase2Returns (x : HttpExchange) (s : REMInterfaceServer)
  (h : Handshake) : Handshake :=
  let r := sendClientRequest (cfg_name s) x in
  let h1 := {| promise := promise h; stage := Finished; result := Some r;
               _tmr := _tmr h; listening := listening h;
               requests := requests h; uncaught := uncaught h |} in
  if (200 <? status_code r)%Z || (status_code r =? -1)%Z then
    match error_message r with
    | Normal m =>
        {| promise := reject ("initConnection: " ++ show m) (promise h);
           stage := Finished; result := Some r; _tmr := _tmr h;
           listening := listening h; requests := requests h;
           uncaught := uncaught h |}
    | Throw _ => catchInSettle h1
    end
  else
    {| promise := resolve (promise h); stage := Finished; result := Some r;
       _tmr := false; listening := listening h; requests := requests h;
       uncaught := uncaught h |}.

(** The deadline callback. *)
Definition onDeadlineTimer (h : Handshake) : Handshake :=
  {| promise := reject noSocketResponse (promise h); stage := stage h;
     result := result h; _tmr := false; listening := listening h;
     requests := requests h; uncaught := uncaught h |}.

(** One event delivered to a run of the bridge [s]; an event whose callback
    is not pending (wrong stage, timer cleared, listener gone) cannot be
    delivered and changes nothing. [conf] and [l] are the configuration store
    and the registry at that moment. *)
Definition step (conf : Config) (l : Servers) (ev : HandshakeEvent)
  (st : REMInterfaceServer * Handshake) : REMInterfaceServer * Handshake :=
  let (s, h) := st in
  match ev, stage h with
  | InitTimer, Scheduled => (s, onInitTimer conf h)
  | Phase1Returns x, Phase1 => onPhase1Returns x s h
  | SettleTimer, Settling => (s, onSettleTimer l h)
  | Phase2Returns x, Phase2 => (s, onPhase2Returns x s h)
  | CheckEmit, _ => if listening h then (s, onCheckEmit h) else st
  | DeadlineTimer, _ => if _tmr h then (s, onDeadlineTimer h) else st
  | _, _ => st
  end.

Definition run (conf : Config) (l : Servers) (evs : list HandshakeEvent)
  (st : REMInterfaceServer * Handshake) : REMInterfaceServer * Handshake :=
  fold_left (fun st ev => step conf l ev st) evs st.

(** *** WebServer: the registry *)

(** The state [WebServer.init] works on: the configuration store, the array
    [_servers], and the number of identifiers [utils.uuid] has handed out. *)
Record World := {
  config : Config;
  _servers : Servers;
  uuids : nat
}.

(** [if (typeof c.uuid === 'undefined') { c.uuid = utils.uuid(); config.setSection(..., c); }]
    for the entry [c] stored under [key]; [store] is [setServer] or
    [setInterface]. The entry as it is after the statement is returned with
    the world. *)
Definition assignUuid (store : string -> Cfg -> Config -> Config)
  (key : string) (c : Cfg) (w : World) : Cfg * World :=
  match c_uuid c with
  | Some _ => (c, w)
  | None =>
      let c' := with_uuid (utils_uuid (uuids w)) c in
      (c', {| config := store key c' (config w); _servers := _servers w;
              uuids := S (uuids w) |})
  end.

(** The [switch (s)] of [init]: the handle created for a key of
    [web.servers], [None] when no case matches. *)
Definition newServer (s : string) : option Handle :=
  if s =? "http" then Some (Http (new_HttpServer s s))
  else if s =? "http2" then Some (Http2 (new_Http2Server s s))
  else if s =? "https" then Some (Https (new_HttpServer s s))
  else if s =? "mdns" then Some (Mdns (new_MdnsServer s s))
  else if s =? "ssdp" then Some (Ssdp (new_SsdpServer s s))
  else None.

(** The [switch (type)] of [initInterfaces]: the handle created for an
    interface of that type and name, [None] when no case matches. *)
Definition newInterface (type n : string) : option Handle :=
  if type =? "http" then Some (HttpInterface (new_InterfaceServer n type))
  else if type =? "influx" then Some (InfluxInterface (new_InterfaceServer n type))
  else if type =? "mqtt" then Some (MqttInterface (new_InterfaceServer n type))
  else if type =? "rem" then Some (REMInterface (new_REMInterfaceServer n type))
  else None.

(** [h.init(c)], class by class, with the registry [l] as it is during the
    call: only [HttpInterfaceServer.init] reaches into it. *)
Definition Handle_init (env : Env) (conf : Config) (l : Servers) (c : Cfg)
  (h : Handle) : Servers * Handle * Completion unit :=
  match h with
  | Http s => let (s', r) := HttpServer_init conf c s in (l, Http s', r)
  | Http2 s => (l, Http2 (Http2Server_init c s), Normal tt)
  | Https s => (l, Https (HttpsServer_init env c s), Normal tt)
  | Mdns s => (l, Mdns (MdnsServer_init c s), Normal tt)
  | Ssdp s => let (s', r) := SsdpServer_init env conf c s in (l, Ssdp s', r)
  | HttpInterface s =>
      let (l', s') := HttpInterfaceServer_init env l c s in
      (l', HttpInterface s', Normal tt)
  | InfluxInterface s => (l, InfluxInterface (InterfaceServer_init env c s), Normal tt)
  | MqttInterface s => (l, MqttInterface (InterfaceServer_init env c s), Normal tt)
  | REMInterface s => (l, REMInterface (fst (REMInterfaceServer_init c s)), Normal tt)
  end.

(** One round of the loop of [init], for the key [s] and its entry [c]: the
    handle is pushed and then initialised, so it is in the array also when
    its [init] throws. *)
Definition initServer (env : Env) (w : World) (s : string) (c : Cfg)
  : World * Completion unit :=
  let (c1, w1) := assignUuid setServer s c w in
  match newServer s with
  | Some srv =>
      let '(l, srv', r) := Handle_init env (config w1) (_servers w1) c1 srv in
      ({| config := config w1; _servers := l ++ [Some srv'];
          uuids := uuids w1 |}, r)
  | None => (w1, Normal tt)
  end.

(** One round of the loop of [initInterfaces]: a disabled entry is left with
    [continue]; otherwise the handle is initialised and then pushed. *)
Definition initInterface (env : Env) (w : World) (s : string) (c : Cfg)
  : World * Completion unit :=
  let (c1, w1) := assignUuid setInterface s c w in
  if negb (c_enabled c1) then (w1, Normal tt)
  else
    let type := match c_type c1 with
                | Some t => if t =? "" then "http" else t
                | None => "http"
                end in
    match newInterface type (c_name c1) with
    | Some int =>
        match Handle_init env (config w1) (_servers w1) c1 int with
        | (l, int', Normal _) =>
            ({| config := config w1; _servers := l ++ [Some int'];
                uuids := uuids w1 |}, Normal tt)
        | (l, _, Throw e) =>
            ({| config := config w1; _servers := l; uuids := uuids w1 |}, Throw e)
        end
    | None => (w1, Normal tt)
    end.

(** A [for (let s in entries)] loop whose body may throw: the rounds run in
    the order of the keys, and a throw ends the loop. *)
Fixpoint forIn (body : World -> string -> Cfg -> World * Completion unit)
  (entries : Section_) (w : World) : World * Completion unit :=
  match entries with
  | [] => (w, Normal tt)
  | (s, c) :: rest =>
      match body w s c with
      | (w', Normal _) => forIn body rest w'
      | (w', Throw e) => (w', Throw e)
      end
  end.

(** [WebServer.initInterfaces(interfaces)]. *)
Definition WebServer_initInterfaces (env : Env) (interfaces : Section_) (w : World)
  : World * Completion unit :=
  forIn (initInterface env) interfaces w.

(** [WebServer.init()]: [cfg] is the [web] section as read at the start. *)
Definition WebServer_init (env : Env) (w : World) : World * Completion unit :=
  let cfg := config w in
  match forIn (initServer env) (servers cfg) w with
  | (w1, Normal _) => WebServer_initInterfaces env (interfaces cfg) w1
  | (w1, Throw e) => (w1, Throw e)
  end.

(** What [WebServer.stopAsync] does, in order: the handles whose [stopAsync]
    it called, the lines those wrote with [logger], and the lines it wrote
    itself with [console.log]. *)
Inductive StopEvent :=
| Stopped (h : Handle)
| Logger (level line : string)
| ConsoleLog (line : string).

(** [stopAsync] of a handle, class by class. Each body is empty or a [try]
    whose [catch] only logs, so the call always returns; none of the fields
    kept here changes. The lines logged are returned. *)
Definition Handle_stopAsync (h : Handle) : list StopEvent :=
  match h with
  | Http _ | Https _ | Http2 _ | InfluxInterface _ | MqttInterface _ => []
  | Ssdp s =>
      match ssdp_server s with
      | Some _ => [Logger "info" ("Stopped SSDP server: " ++ name (ssdp_proto s))]
      | None => [Logger "error" "Error stopping SSDP server Cannot read properties of undefined (reading 'stop')"]
      end
  | Mdns s => [Logger "info" ("Shut down MDNS Server " ++ name (mdns_proto s))]
  | HttpInterface s => [Logger "info" (name (if_proto s) ++ " Interface Server Shut down")]
  | REMInterface s => [Logger "info" ("Stopped REM Interface Server " ++ name (rem_proto s))]
  end.

(** The loop of [WebServer.stopAsync] from index [i] on: [for (let s in
    this._servers)] visits the indices in ascending order and sets each entry
    to [undefined] once its handle has stopped; on an entry that is already
    [undefined], [typeof serv.stopAsync] throws inside the inner [try] and the
    [catch] logs. *)
Fixpoint stopFrom (i : nat) (l : Servers) : Servers * list StopEvent :=
  match l with
  | [] => ([], [])
  | Some serv :: rest =>
      let (rest', evs) := stopFrom (S i) rest in
      (None :: rest', Stopped serv :: Handle_stopAsync serv ++ evs)
  | None :: rest =>
      let (rest', evs) := stopFrom (S i) rest in
      (None :: rest',
       ConsoleLog ("Error stopping server " ++ showZ (Z.of_nat i)
                   ++ ": Cannot read properties of undefined (reading 'stopAsync')")
       :: evs)
  end.

(** [WebServer.stopAsync()]. *)
Definition WebServer_stopAsync (l : Servers) : Servers * list StopEvent :=
  stopFrom 0 l.

(** The handles of a trace, in the order they were stopped. *)
Fixpoint stopped (evs : list StopEvent) : list Handle :=
  match evs with
  | [] => []
  | Stopped h :: rest => h :: stopped rest
  | _ :: rest => stopped rest
  end.

(** The handles registered in [_servers], in registration order. *)
Fixpoint registered (l : Servers) : list Handle :=
  match l with
  | [] => []
  | Some h :: rest => h :: registered rest
  | None :: rest => registered rest
  end.

(** *** WebServer: the other lookups, and removal *)

(** [elem.uuid === uuid], for a [uuid] that may itself be undefined. *)
Definition hasUuid (u : option string) (h : Handle) : bool :=
  match uuid (proto h), u with
  | Some a, Some b => a =? b
  | None, None => true
  | _, _ => false
  end.

(** [WebServer.findServerByGuid(uuid)]; like [findServer] it throws on an
    entry that is [undefined]. *)
Fixpoint findServerByGuid (u : option string) (l : Servers)
  : Completion (option Handle) :=
  match l with
  | [] => Normal None
  | None :: _ => Throw "TypeError: Cannot read properties of undefined (reading 'uuid')"
  | Some h :: rest => if hasUuid u h then Normal (Some h) else findServerByGuid u rest
  end.

(** [WebServer.findServersByType(type)]: [filter] calls its predicate on
    every entry. *)
Fixpoint findServersByType (t : string) (l : Servers) : Completion (list Handle) :=
  match l with
  | [] => Normal []
  | None :: _ => Throw "TypeError: Cannot read properties of undefined (reading 'type')"
  | Some h :: rest =>
      match findServersByType t rest with
      | Normal found => Normal (if type (proto h) =? t then h :: found else found)
      | Throw e => Throw e
      end
  end.

(** [WebServer.removeServerByGuid(uuid)]:
    [for (i = 0; i < length; i++) if (_servers[i].uuid === uuid) splice(i, 1)].
    After a [splice] the entry that followed moves to index [i], and [i++]
    steps over it: it stays, unexamined. The array as it is when the loop
    ends, or when reading [uuid] of an [undefined] entry throws, is
    returned. *)
Fixpoint removeServerByGuid (u : option string) (l : Servers)
  : Servers * Completion unit :=
  match l with
  | [] => ([], Normal tt)
  | None :: rest =>
      (None :: rest,
       Throw "TypeError: Cannot read properties of undefined (reading 'uuid')")
  | Some h :: rest =>
      if hasUuid u h then
        match rest with
        | [] => ([], Normal tt)
        | next :: rest' =>
            let (kept, r) := removeServerByGuid u rest' in (next :: kept, r)
        end
      else
        let (kept, r) := removeServerByGuid u rest in (Some h :: kept, r)
  end.

(** *** emitToClients and emitToChannel *)

(** What a handle does with an event: it emits on a namespace of its socket
    server, or hands the event to its binding. *)
Inductive Emission :=
| ToSockets (server channel evt : string)
| ToBinding (bridge evt : string).

(** [emitToClients(evt, ...data)], class by class. [HttpServer] (and so
    [HttpsServer]) emits on [_nameSpace], the namespace ['/'] that
    [initSockets] sets together with [sockServer]; the three bridges call
    [this.bindings.bindEvent]; the other classes, [REMInterfaceServer]
    included, inherit the empty method of [ProtoServer]. All of them test
    [isRunning] first. *)
Definition Handle_emitToClients (evt : string) (h : Handle)
  : Completion (list Emission) :=
  match h with
  | Http s | Https s =>
      if isRunning (http_proto s) then
        if sockServer s then Normal [ToSockets (name (http_proto s)) "/" evt]
        else Throw "TypeError: Cannot read properties of undefined (reading 'emit')"
      else Normal []
  | HttpInterface s | InfluxInterface s | MqttInterface s =>
      if isRunning (if_proto s) then
        match bindings s with
        | Some _ => Normal [ToBinding (name (if_proto s)) evt]
        | None => Throw "TypeError: Cannot read properties of undefined (reading 'bindEvent')"
        end
      else Normal []
  | Http2 _ | Mdns _ | Ssdp _ | REMInterface _ => Normal []
  end.

(** [emitToChannel(channel, evt, ...data)]: only [HttpServer] overrides it,
    with [this.sockServer.of(channel).emit]. *)
Definition Handle_emitToChannel (channel evt : string) (h : Handle)
  : Completion (list Emission) :=
  match h with
  | Http s | Https s =>
      if isRunning (http_proto s) then
        if sockServer s then Normal [ToSockets (name (http_proto s)) channel evt]
        else Throw "TypeError: Cannot read properties of undefined (reading 'of')"
      else Normal []
  | _ => Normal []
  end.

(** The loop of [WebServer.emitToClients] and [WebServer.emitToChannel],
    for the method of that name: the handles are called in the order of the
    array; nothing catches what a handle throws, nor the read of the method
    on an [undefined] entry. What was emitted until then is returned. *)
Fixpoint fanOut (method : string) (send : Handle -> Completion (list Emission))
  (l : Servers) : list Emission * Completion unit :=
  match l with
  | [] => ([], Normal tt)
  | None :: _ =>
      ([], Throw ("TypeError: Cannot read properties of undefined (reading '"
                  ++ method ++ "')")%string)
  | Some h :: rest =>
      match send h with
      | Throw e => ([], Throw e)
      | Normal es => let (later, r) := fanOut method send rest in (es ++ later, r)
      end
  end.

Definition WebServer_emitToClients (evt : string) (l : Servers)
  : list Emission * Completion unit :=
  fanOut "emitToClients" (Handle_emitToClients evt) l.

Definition WebServer_emitToChannel (channel evt : string) (l : Servers)
  : list Emission * Completion unit :=
  fanOut "emitToChannel" (Handle_emitToChannel channel evt) l.

(** *** updateServerInterface *)

(** [config.setInterface(obj)] (../config/Config, not under src/): what it
    does to the store and the object it returns, which [initInterfaces] is
    then given. *)
Variable config_setInterface : Cfg -> Config -> Config * Section_.

(** [WebServer.updateServerInterface(obj)]. A handle found under [obj.uuid]
    is stopped (which changes none of the fields kept here) and removed; when
    [obj.enabled], a new interface is initialised if none was found, and
    otherwise the found handle is initialised again, without being pushed. The
    second component is the found handle as the call leaves it. *)
Definition WebServer_updateServerInterface (env : Env) (obj : Cfg) (w : World)
  : World * option Handle * Completion unit :=
  let (conf1, int) := config_setInterface obj (config w) in
  match findServerByGuid (c_uuid obj) (_servers w) with
  | Throw e =>
      ({| config := conf1; _servers := _servers w; uuids := uuids w |}, None, Throw e)
  | Normal None =>
      if c_enabled obj then
        let (w2, r) := WebServer_initInterfaces env int
                         {| config := conf1; _servers := _servers w;
                            uuids := uuids w |} in
        (w2, None, r)
      else
        ({| config := conf1; _servers := _servers w; uuids := uuids w |},
         None, Normal tt)
  | Normal (Some srv) =>
      match removeServerByGuid (c_uuid obj) (_servers w) with
      | (l1, Throw e) =>
          ({| config := conf1; _servers := l1; uuids := uuids w |}, Some srv, Throw e)
      | (l1, Normal _) =>
          if c_enabled obj then
            let '(l2, srv', r) := Handle_init env conf1 l1 obj srv in
            ({| config := conf1; _servers := l2; uuids := uuids w |}, Some srv', r)
          else
            ({| config := conf1; _servers := l1; uuids := uuids w |},
             Some srv, Normal tt)
      end
  end.

(** *** HttpServer: the 'sendPackets' socket event *)

(** The object handed to [Outbound.create]. *)
Record OutboundFields := {
  source : option Z;
  dest : option Z;
  action : option Z;
  payload : list Z
}.

(** [arr.shift()]: the first element, [undefined] on an empty array, and the
    array that is left. *)
Definition shift (arr : list Z) : option Z * list Z :=
  match arr with
  | [] => (None, [])
  | x :: rest => (Some x, rest)
  end.

(** [arr.splice(1, count)], the elements removed: [count] of them from index
    1 on, as many as there are; an [undefined] or negative [count] removes
    none. *)
Definition splice1 (arr : list Z) (count : option Z) : list Z :=
  match count with
  | Some n => firstn (Z.to_nat n) (skipn 1 arr)
  | None => []
  end.

(** The object literal of the handler, for one packet: three [shift]s, then
    [splice(1, bytesToProcess[0])] on what is left. *)
Definition outboundFields (bytesToProcess : list Z) : OutboundFields :=
  let (src, b1) := shift bytesToProcess in
  let (dst, b2) := shift b1 in
  let (act, b3) := shift b2 in
  {| source := src; dest := dst; action := act;
     payload := splice1 b3 (hd_error b3) |}.

(** The handler: nothing for an empty array, otherwise one message queued
    per packet, in order. *)
Fixpoint onSendPackets (bytesToProcessArr : list (list Z)) : list OutboundFields :=
  match bytesToProcessArr with
  | [] => []
  | bytesToProcess :: rest => outboundFields bytesToProcess :: onSendPackets rest
  end.

(** *** The states a REM bridge can reach *)

(** A bridge together with the runs of [initConnection] its [init] calls have
    scheduled, oldest first. *)
Definition REMState := (REMInterfaceServer * list Handshake)%type.

Fixpoint setNth {A : Type} (i : nat) (x : A) (l : list A) : list A :=
  match l, i with
  | [], _ => []
  | _ :: rest, O => x :: rest
  | y :: rest, S j => y :: setNth j x rest
  end.

(** What can happen to a bridge: [init] is called, the socket client
    connects or disconnects, or the event loop delivers an event to one of
    the runs. [stopAsync] changes none of the fields kept here. *)
Inductive REM_step : REMState -> REMState -> Prop :=
| rem_init (c : Cfg) (s : REMInterfaceServer) (hs : list Handshake) :
    REM_step (s, hs)
             (fst (REMInterfaceServer_init c s),
              if snd (REMInterfaceServer_init c s) then hs ++ [scheduled] else hs)
| rem_socket (connected : bool) (s : REMInterfaceServer) (hs : list Handshake) :
    REM_step (s, hs) (REMInterfaceServer_socket connected s, hs)
| rem_event (conf : Config) (l : Servers) (ev : HandshakeEvent) (i : nat)
    (h : Handshake) (s : REMInterfaceServer) (hs : list Handshake) :
    nth_error hs i = Some h ->
    REM_step (s, hs)
             (fst (step conf l ev (s, h)), setNth i (snd (step conf l ev (s, h))) hs).

Inductive REM_reachable : REMState -> Prop :=
| reach_new (n t : string) : REM_reachable (new_REMInterfaceServer n t, [])
| reach_step (st st' : REMState) :
    REM_reachable st -> REM_step st st' -> REM_reachable st'.

(** ** Vocabulary of the properties *)

(** [pat] occurs in [s] at some position. *)
Definition contains (s pat : string) : Prop :=
  exists m, substring m (String.length pat) s = pat.

(** An interface address that is not internal, of family IPv4, whose hardware
    address does not contain ['00:00:00:']. *)
Definition qualifies (a : NetworkInterfaceInfo) : Prop :=
  internal a = false /\ family a = "IPv4" /\ ~ contains (mac a) "00:00:00:".

(** The addresses of a table in enumeration order. *)
Definition enumeration (t : NetworkInterfaces) : list NetworkInterfaceInfo :=
  flat_map snd t.

(** The pairs of a pending query and an answer of the packet with the same
    name, by query first and answer second. *)
Definition matching (pending : list MdnsQuery) (answers : list MdnsAnswer)
  : list (MdnsQuery * MdnsAnswer) :=
  filter (fun p => a_name (snd p) =? q_name (fst p)) (list_prod pending answers).

(** A name some answer of the packet carries. *)
Definition answered (answers : list MdnsAnswer) (q : MdnsQuery) : bool :=
  existsb (fun a => a_name a =? q_name q) answers.

(** The keys of a section. *)
Definition keys (sec : Section_) : list string := map fst sec.

(** An event that cannot make a run that waits for the acknowledgment fail:
    anything but the deadline and a second request that comes back with a
    status above 200 or with -1. *)
Definition harmless (n : string) (ev : HandshakeEvent) : bool :=
  match ev with
  | DeadlineTimer => false
  | Phase2Returns x =>
      negb ((200 <? status_code (sendClientRequest n x))%Z
            || (status_code (sendClientRequest n x) =? -1)%Z)
  | _ => true
  end.

(** The answers of the packet that carry the name of [q]. *)
Definition answersFor (answers : list MdnsAnswer) (q : MdnsQuery) : list MdnsAnswer :=
  filter (fun a => a_name a =? q_name q) answers.

(** The state a watcher callback leaves and the calls of [loadBindings] it
    made; a callback that threw had changed nothing. *)
Definition stateAfter (s : InterfaceServer) (r : Completion (InterfaceServer * nat))
  : InterfaceServer :=
  match r with
  | Normal (s', _) => s'
  | Throw _ => s
  end.

Definition loads (r : Completion (InterfaceServer * nat)) : nat :=
  match r with
  | Normal (_, n) => n
  | Throw _ => 0
  end.

(** A run with no callback left: finished, deadline not armed, listener not
    registered. Nothing can be delivered to it. *)
Definition quiet (h : Handshake) : Prop :=
  stage h = Finished /\ _tmr h = false /\ listening h = false.

(** The state of a run that waits for the acknowledgment, or has been
    resolved already. *)
Definition awaiting (h : Handshake) : Prop :=
  (stage h = Phase2 \/ stage h = Finished)
  /\ (promise h = Resolved \/ (promise h = Pending /\ listening h = true)).

(** The first request succeeded: a status within 0..200, and a body from
    which [result.obj.id] can be read. *)
Definition phase1Succeeds (n : string) (x : HttpExchange) : bool :=
  negb ((200 <? status_code (sendClientRequest n x))%Z
        || (status_code (sendClientRequest n x) <? 0)%Z)
  && match obj_id (sendClientRequest n x) with
     | Normal _ => true
     | Throw _ => false
     end.

(** The registry holds a server named 'http' on which the once-listener can
    be registered. *)
Definition canListen (l : Servers) : bool :=
  match findServer "http" l with
  | Normal srv => match addListenerOnce srv with Normal _ => true | Throw _ => false end
  | Throw _ => false
  end.

(** The identifier an entry has once [assignUuid] has run. *)
Definition idAfter (w : World) (c : Cfg) : string :=
  match c_uuid c with
  | Some u => u
  | None => utils_uuid (uuids w)
  end.

(** The store once [assignUuid] has run. *)
Definition persisted (store : string -> Cfg -> Config -> Config) (key : string)
  (c : Cfg) (w : World) : Config :=
  match c_uuid c with
  | Some _ => config w
  | None => store key (with_uuid (utils_uuid (uuids w)) c) (config w)
  end.

(** No two neighbouring handles both carry the identifier. *)
Fixpoint apart (u : option string) (hs : list Handle) : bool :=
  match hs with
  | [] => true
  | h1 :: rest =>
      match rest with
      | h2 :: _ => negb (hasUuid u h1 && hasUuid u h2)
      | [] => true
      end && apart u rest
  end.

(** The handles with another identifier. *)
Definition others (u : option string) (hs : list Handle) : list Handle :=
  filter (fun h => negb (hasUuid u h)) hs.

(** The handles [emitToClients] hands the event to: a running HTTP or HTTPS
    server, or a running bridge of the three classes with bindings. *)
Definition listens (h : Handle) : bool :=
  match h with
  | Http s | Https s => isRunning (http_proto s)
  | HttpInterface s | InfluxInterface s | MqttInterface s => isRunning (if_proto s)
  | Http2 _ | Mdns _ | Ssdp _ | REMInterface _ => false
  end.

(** What such a handle does with the event. *)
Definition delivery (evt : string) (h : Handle) : Emission :=
  match h with
  | Http s | Https s => ToSockets (name (http_proto s)) "/" evt
  | _ => ToBinding (name (proto h)) evt
  end.

(** An entry on which [emitToClients] cannot be called: it is undefined, or
    a running server without socket server, or a running bridge without
    binding. *)
Definition unready (e : option Handle) : bool :=
  match e with
  | None => true
  | Some (Http s) | Some (Https s) => isRunning (http_proto s) && negb (sockServer s)
  | Some (HttpInterface s) | Some (InfluxInterface s) | Some (MqttInterface s) =>
      isRunning (if_proto s) && match bindings s with Some _ => false | None => true end
  | Some _ => false
  end.

(** What can happen to a bridge with bindings: [init] is called (that of
    [HttpInterfaceServer] when [http] is set, that of the two other classes
    otherwise), or a watcher that an earlier [init] installed is called and
    returns. *)
Inductive Bridge_step (http : bool) : InterfaceServer -> InterfaceServer -> Prop :=
| bridge_init (env : Env) (l : Servers) (c : Cfg) (s : InterfaceServer) :
    Bridge_step http s
      (if http then snd (HttpInterfaceServer_init env l c s)
       else InterfaceServer_init env c s)
| bridge_change (env : Env) (c : Cfg) (event : string) (fileName : option string)
    (s s' : InterfaceServer) (n : nat) :
    In c (watchers s) ->
    onChange env c event fileName s = Normal (s', n) ->
    Bridge_step http s s'.

Inductive Bridge_reachable (http : bool) : InterfaceServer -> Prop :=
| bridge_new (n t : string) : Bridge_reachable http (new_InterfaceServer n t)
| bridge_next (s s' : InterfaceServer) :
    Bridge_reachable http s -> Bridge_step http s s' -> Bridge_reachable http s'.

(** The requests of a run so far: the registration, then the verification,
    each at most once; the listener is registered and the promise resolved
    only when both were sent. *)
Definition inSequence (h : Handshake) : Prop :=
  match stage h with
  | Scheduled => requests h = []
  | Phase1 | Settling => requests h = ["/config/checkconnection/"]
  | Phase2 => requests h = ["/config/checkconnection/"; "/config/checkemit"]
  | Finished =>
      requests h = [] \/ requests h = ["/config/checkconnection/"]
      \/ requests h = ["/config/checkconnection/"; "/config/checkemit"]
  end
  /\ (promise h = Resolved ->
      requests h = ["/config/checkconnection/"; "/config/checkemit"])
  /\ (listening h = true ->
      requests h = ["/config/checkconnection/"; "/config/checkemit"]).

(** A run that never got to send the verification. *)
Definition unverified (h : Handshake) : Prop :=
  stage h <> Phase2 /\ listening h = false /\ promise h <> Resolved
  /\ ~ In "/config/checkemit" (requests h).

(** The names of the handles of a registry, in registration order. *)
Definition names (l : Servers) : list string :=
  map (fun h => name (proto h)) (registered l).

(** A key of [web.servers] for which [init] has a class. *)
Definition isServerKey (s : string) : bool :=
  match newServer s with
  | Some _ => true
  | None => false
  end.

(** [c.type || 'http']. *)
Definition interfaceType (c : Cfg) : string :=
  match c_type c with
  | Some t => if t =? "" then "http" else t
  | None => "http"
  end.

(** An enabled entry of [web.interfaces] whose type has a class. *)
Definition startsInterface (c : Cfg) : bool :=
  c_enabled c
  && match newInterface (interfaceType c) (c_name c) with
     | Some _ => true
     | None => false
     end.

(** The names under which [init] registers handles for a store: the keys of
    [web.servers] that have a class, then the names of the enabled
    interfaces whose type has one. *)
Definition namesAfterInit (conf : Config) : list string :=
  filter isServerKey (keys (servers conf))
  ++ map c_name (filter startsInterface (map snd (interfaces conf))).



(** A registry without undefined entries. *)
Definition defined (l : Servers) : Prop := Forall (fun e => e <> None) l.

(** The classes of this file. *)
Inductive Class :=
| HttpServerClass
| Http2ServerClass
| HttpsServerClass
| MdnsServerClass
| SsdpServerClass
| HttpInterfaceServerClass
| InfluxInterfaceServerClass
| MqttInterfaceServerClass
| REMInterfaceServerClass.

Definition classOf (h : Handle) : Class :=
  match h with
  | Http _ => HttpServerClass
  | Http2 _ => Http2ServerClass
  | Https _ => HttpsServerClass
  | Mdns _ => MdnsServerClass
  | Ssdp _ => SsdpServerClass
  | HttpInterface _ => HttpInterfaceServerClass
  | InfluxInterface _ => InfluxInterfaceServerClass
  | MqttInterface _ => MqttInterfaceServerClass
  | REMInterface _ => REMInterfaceServerClass
  end.

(** The class a key of [web.servers] stands for, [None] for any other
    key. *)
Definition classForKey (s : string) : option Class :=
  if s =? "http" then Some HttpServerClass
  else if s =? "http2" then Some Http2ServerClass
  else if s =? "https" then Some HttpsServerClass
  else if s =? "mdns" then Some MdnsServerClass
  else if s =? "ssdp" then Some SsdpServerClass
  else None.

(** The name and the identifier of every registered handle, in registration
    order. *)
Definition ids (l : Servers) : list (string * option string) :=
  map (fun h => (name (proto h), uuid (proto h))) (registered l).

(** The names and identifiers the handles of a section of the store are
    expected to have: for [web.servers] the key and the identifier of every
    entry whose key stands for a class; for [web.interfaces] the name and the
    identifier of every enabled entry whose type has a class. *)
Definition serverIds (sec : Section_) : list (string * option string) :=
  flat_map (fun e => match classForKey (fst e) with
                     | Some _ => [(fst e, c_uuid (snd e))]
                     | None => []
                     end) sec.

Definition interfaceIds (sec : Section_) : list (string * option string) :=
  flat_map (fun e => if startsInterface (snd e)
                     then [(c_name (snd e), c_uuid (snd e))]
                     else []) sec.

(** An entry and what the store holds in its place later: the same key, and
    the same entry when it had an identifier. *)
Definition kept (e e' : string * Cfg) : Prop :=
  fst e' = fst e /\ (c_uuid (snd e) <> None -> snd e' = snd e).

(** The entry as the statement that assigns identifiers leaves it. *)
Definition entryAfter (w : World) (c : Cfg) : Cfg :=
  match c_uuid c with
  | Some _ => c
  | None => with_uuid (utils_uuid (uuids w)) c
  end.



(** ** Example inputs *)

(** A host with a loopback interface and one ethernet interface. *)
Definition lo : NetworkInterfaceInfo :=
  {| address := "127.0.0.1"; family := "IPv4"; mac := "00:00:00:00:00:00";
     internal := true |}.

Definition eth0v6 : NetworkInterfaceInfo :=
  {| address := "fe80::ba27:ebff:fe12:3456"; family := "IPv6";
     mac := "b8:27:eb:12:34:56"; internal := false |}.

Definition eth0v4 : NetworkInterfaceInfo :=
  {| address := "192.168.1.20"; family := "IPv4"; mac := "b8:27:eb:12:34:56";
     internal := false |}.

Definition exampleNics : NetworkInterfaces :=
  [("lo", [lo]); ("eth0", [eth0v6; eth0v4])].


(** Configuration entries. *)
Definition entry (n : string) (on : bool) (id : option string) : Cfg :=
  {| c_uuid := id; c_enabled := on; c_name := n; c_type := None;
     c_fileName := None; c_port := None; c_httpsRedirect := false;
     c_sslKeyFile := None; c_sslCertFile := None; c_context := None;
     c_options := None |}.

Definition httpOff : Cfg := entry "http" false None.

Definition httpOn : Cfg :=
  {| c_uuid := Some "h1"; c_enabled := true; c_name := "http"; c_type := None;
     c_fileName := None; c_port := Some 4200%Z; c_httpsRedirect := false;
     c_sslKeyFile := None; c_sslCertFile := None; c_context := None;
     c_options := None |}.

Definition influxCfg : Cfg :=
  {| c_uuid := Some "i1"; c_enabled := true; c_name := "influxDB";
     c_type := Some "influx"; c_fileName := Some "influxDB.json";
     c_port := None; c_httpsRedirect := false; c_sslKeyFile := None;
     c_sslCertFile := None; c_context := None; c_options := None |}.

Definition remCfg : Cfg :=
  {| c_uuid := Some "r1"; c_enabled := true; c_name := "rem";
     c_type := Some "rem"; c_fileName := None; c_port := None;
     c_httpsRedirect := false; c_sslKeyFile := None; c_sslCertFile := None;
     c_context := None; c_options := Some "{host:raspberrypi,port:8080}" |}.

(** A store with one disabled server entry that has no identifier yet. *)
Definition offWorld : World :=
  {| config := {| servers := [("http", httpOff)]; interfaces := [];
                  hasServer := false |};
     _servers := []; uuids := 0 |}.

(** A store whose entries have their identifiers. *)
Definition exampleConfig : Config :=
  {| servers := [("http", httpOn)];
     interfaces := [("influxDB", influxCfg); ("rem", remCfg)];
     hasServer := false |}.

Definition exampleWorld : World :=
  {| config := exampleConfig; _servers := []; uuids := 2 |}.

(** An environment whose only file is the binding file of the Influx
    bridge, [None] when that file is gone. *)
Definition bindingsAt (f : option File) : Env :=
  {| cwd := "/app";
     fs := fun p => if p =? "/app/web/bindings/influxDB.json" then f else None;
     secureContext := fun _ _ => true;
     networkInterfaces := exampleNics |}.

Definition firstVersion : File := {| file_json := Some "{}"; file_mtime := 1000 |}.
Definition secondVersion : File := {| file_json := Some "{events:[]}"; file_mtime := 2000 |}.
Definition malformed : File := {| file_json := None; file_mtime := 3000 |}.

(** The Influx bridge after [init] found the first version of its file. *)
Definition loadedBridge : InterfaceServer :=
  InterfaceServer_init (bindingsAt (Some firstVersion)) influxCfg
    (new_InterfaceServer "influxDB" "influx").

(** A registry with a running HTTP server and an mDNS server. *)
Definition runningHttp : Handle :=
  Http (HttpServer_running (Some "h1") (new_HttpServer "http" "http")).

Definition runningMdns : Handle :=
  Mdns (MdnsServer_init (entry "mdns" true (Some "m1")) (new_MdnsServer "mdns" "mdns")).

Definition exampleServers : Servers := [Some runningHttp; Some runningMdns].

(** The REM bridge after [init], and after its socket client connected. *)
Definition remBridge : REMInterfaceServer :=
  fst (REMInterfaceServer_init remCfg (new_REMInterfaceServer "rem" "rem")).

Definition connectedEarly : REMState :=
  (REMInterfaceServer_socket true remBridge, [scheduled]).

(** Answers of the peer: the registration accepted with connection id abc,
    the verification refused, and an error whose body is the JSON text
    [null]. *)
Definition registered200 : HttpExchange :=
  Response 200 "OK" (Some (JObject [("id", "abc")])).

Definition verify500 : HttpExchange :=
  Response 500 "Internal Server Error" (Some (JObject [("message", "boom")])).

Definition nullError500 : HttpExchange :=
  Response 500 "Internal Server Error" (Some JNull).

(** Stand-ins for the parameters: a binding without a discovery query and
    without events, and identifiers numbered from zero. *)
Definition noDiscovery (b : InterfaceBindings) : Completion (option Discovery) :=
  Normal None.

Definition noEvents (b : InterfaceBindings) : option nat := Some 0.

Definition numbered (n : nat) : string := "uuid-" ++ showZ (Z.of_nat n).

(** The Influx bridge after [init] found a file that does not parse. *)
Definition brokenBridge : InterfaceServer :=
  InterfaceServer_init (bindingsAt (Some malformed)) influxCfg
    (new_InterfaceServer "influxDB" "influx").

(** A registry of three handles, the second one the Influx bridge. *)
Definition influxHandle : Handle := InfluxInterface loadedBridge.

Definition threeHandles : list Handle := [runningHttp; influxHandle; runningMdns].

(** An entry for an HTTP bridge, and an environment whose only file is the
    bindings file of that bridge. *)
Definition rulesCfg : Cfg :=
  {| c_uuid := Some "b1"; c_enabled := true; c_name := "rulesManager";
     c_type := Some "http"; c_fileName := Some "rulesManager.json";
     c_port := None; c_httpsRedirect := false; c_sslKeyFile := None;
     c_sslCertFile := None; c_context := None; c_options := None |}.

Definition rulesAt (f : option File) : Env :=
  {| cwd := "/app";
     fs := fun p => if p =? "/app/web/bindings/rulesManager.json" then f else None;
     secureContext := fun _ _ => true;
     networkInterfaces := exampleNics |}.

(** A stand-in for [config.setInterface]: the entry is stored under its
    name, and returned as an object with that one key. *)
Definition storeInterface (obj : Cfg) (conf : Config) : Config * Section_ :=
  (setInterface (c_name obj) obj conf, [(c_name obj, obj)]).

(** The store of the examples with the three handles registered. *)
Definition runningWorld : World :=
  {| config := exampleConfig; _servers := map Some threeHandles; uuids := 2 |}.

(** ** Properties *)

(** A case analysis on the first [match] of the goal. *)
Ltac break_match :=
  match goal with
  | |- context [match ?x with _ => _ end] => destruct x eqn:?
  end.

(** *** The address resolver *)

Lemma indexOf_negative (s pat : string) :
  pat <> "" -> (indexOf s pat <? 0)%Z = true <-> ~ contains s pat.
Proof.
  intros Hne. unfold indexOf, contains.
  destruct (index 0 pat s) as [n|] eqn:E.
  - split.
    + intro H. apply Z.ltb_lt in H. lia.
    + intro H. exfalso. apply H. exists n. eapply index_correct1; eassumption.
  - split; [|reflexivity].
    intros _ [m Hm]. revert Hm.
    eapply index_correct3; [eassumption | assumption | lia].
Qed.

Lemma isScopeLocal_qualifies (a : NetworkInterfaceInfo) :
  isScopeLocal a = true <-> qualifies a.
Proof.
  unfold isScopeLocal, qualifies, WebServer_family.
  rewrite !andb_true_iff, negb_true_iff, String.eqb_eq.
  rewrite indexOf_negative by discriminate.
  tauto.
Qed.

Lemma isScopeLocal_not_qualifies (a : NetworkInterfaceInfo) :
  isScopeLocal a = false <-> ~ qualifies a.
Proof.
  rewrite <- isScopeLocal_qualifies. destruct (isScopeLocal a); intuition congruence.
Qed.

Lemma find_append {A : Type} (f : A -> bool) (l1 l2 : list A) :
  find f (l1 ++ l2) = match find f l1 with Some x => Some x | None => find f l2 end.
Proof.
  induction l1 as [|x l1 IH]; simpl; [reflexivity|].
  destruct (f x); [reflexivity | exact IH].
Qed.

Lemma getInterface_nic_find (nic : list NetworkInterfaceInfo) :
  getInterface_nic nic = find isScopeLocal nic.
Proof.
  induction nic as [|a nic IH]; simpl; [reflexivity|].
  destruct (isScopeLocal a); [reflexivity | exact IH].
Qed.

(** [getInterface] returns the first address of the enumeration that passes
    the test. *)
Lemma getInterface_find (t : NetworkInterfaces) :
  getInterface t = find isScopeLocal (enumeration t).
Proof.
  induction t as [|[n nic] t IH]; simpl; [reflexivity|].
  unfold enumeration in *. simpl.
  rewrite find_append, getInterface_nic_find.
  destruct (find isScopeLocal nic); [reflexivity | exact IH].
Qed.

Lemma find_first {A : Type} (f : A -> bool) (l : list A) :
  (exists a, In a l /\ f a = true) ->
  exists before a after,
    l = before ++ a :: after
    /\ (forall b, In b before -> f b = false)
    /\ f a = true
    /\ find f l = Some a.
Proof.
  induction l as [|x l IH]; intros [a [Hin Ha]]; [destruct Hin|].
  simpl. destruct (f x) eqn:Hx.
  - exists [], x, l. repeat split; [intros b []| assumption].
  - destruct IH as (before & a' & after & Hl & Hb & Ha' & Hf).
    + destruct Hin as [->|Hin]; [congruence | exists a; auto].
    + exists (x :: before), a', after. subst l. repeat split; auto.
      intros b [<-|Hin']; auto.
Qed.

Lemma find_nothing {A : Type} (f : A -> bool) (l : list A) :
  (forall a, In a l -> f a = false) -> find f l = None.
Proof.
  induction l as [|x l IH]; intros H; simpl; [reflexivity|].
  rewrite (H x (or_introl eq_refl)). apply IH. intros a Ha. apply H. now right.
Qed.

(** C10. When no address of the host's interface table is non-internal, of
    family IPv4 and with a hardware address that does not contain
    ['00:00:00:'], [ip()] is ['0.0.0.0'] and [mac()] is ['00:00:00:00'];
    otherwise both come from the first such address in enumeration order. *)
Theorem ip_mac_first_qualifying (t : NetworkInterfaces) :
  ((forall a, In a (enumeration t) -> ~ qualifies a) ->
   WebServer_ip t = "0.0.0.0" /\ WebServer_mac t = "00:00:00:00")
  /\
  ((exists a, In a (enumeration t) /\ qualifies a) ->
   exists before a after,
     enumeration t = before ++ a :: after
     /\ (forall b, In b before -> ~ qualifies b)
     /\ qualifies a
     /\ WebServer_ip t = address a
     /\ WebServer_mac t = mac a).
Proof.
  unfold WebServer_ip, WebServer_mac. rewrite getInterface_find. split.
  - intros H. rewrite find_nothing; [split; reflexivity|].
    intros a Ha. apply isScopeLocal_not_qualifies. auto.
  - intros [a [Hin Hq]].
    destruct (find_first isScopeLocal (enumeration t)) as (before & a' & after & Hl & Hb & Ha' & Hf).
    + exists a. split; [assumption | now apply isScopeLocal_qualifies].
    + exists before, a', after. rewrite Hf. repeat split; try assumption.
      * intros b Hbin. apply isScopeLocal_not_qualifies. auto.
      * apply isScopeLocal_qualifies in Ha'. apply Ha'.
      * apply isScopeLocal_qualifies in Ha'. apply Ha'.
      * apply isScopeLocal_qualifies in Ha'. apply Ha'.
Qed.

(** *** The mDNS response handler *)

Lemma filter_twice {A : Type} (f g : A -> bool) (l : list A) :
  filter f (filter g l) = filter (fun x => g x && f x) l.
Proof.
  induction l as [|x l IH]; simpl; [reflexivity|].
  destruct (g x); simpl; [destruct (f x)|]; rewrite IH; reflexivity.
Qed.

Lemma filter_of_map {A B : Type} (f : B -> bool) (g : A -> B) (l : list A) :
  filter f (map g l) = map g (filter (fun x => f (g x)) l).
Proof.
  induction l as [|x l IH]; simpl; [reflexivity|].
  destruct (f (g x)); simpl; rewrite IH; reflexivity.
Qed.

Lemma answered_answersFor (answers : list MdnsAnswer) (q : MdnsQuery) :
  answered answers q = match answersFor answers q with [] => false | _ => true end.
Proof.
  unfold answered, answersFor.
  induction answers as [|a answers IH]; simpl; [reflexivity|].
  destruct (a_name a =? q_name q); simpl; [reflexivity | exact IH].
Qed.

Lemma answered_same_name (answers : list MdnsAnswer) (q v : MdnsQuery) :
  q_name v = q_name q -> answered answers v = answered answers q.
Proof. unfold answered. intros ->. reflexivity. Qed.

(** The inner loop, for one query, when no listener is registered. *)
Lemma fold_onAnswer (q : MdnsQuery) (answers : list MdnsAnswer) (st : MdnsPending) :
  forEach (onAnswer 0 q) answers st =
  ({| queries := if answered answers q
                 then filter (fun v => negb (q_name v =? q_name q)) (queries st)
                 else queries st;
      emitted := emitted st ++ answersFor answers q |}, Normal tt).
Proof.
  revert st. unfold answered, answersFor.
  induction answers as [|a answers IH]; intros [qs em]; simpl.
  - rewrite app_nil_r. reflexivity.
  - unfold onAnswer at 1. simpl.
    destruct (a_name a =? q_name q); simpl; rewrite IH; simpl.
    + rewrite <- app_assoc. simpl. f_equal. f_equal.
      destruct (existsb _ answers); [|reflexivity].
      rewrite filter_twice. apply filter_ext. intros v.
      destruct (q_name v =? q_name q); reflexivity.
    + reflexivity.
Qed.

(** The outer loop, over a list [ps] of queries, when no listener is
    registered. *)
Lemma fold_queries (ps : list MdnsQuery) (answers : list MdnsAnswer) (st : MdnsPending) :
  forEach (fun st q => forEach (onAnswer 0 q) answers st) ps st =
  ({| queries :=
        filter (fun v => negb (existsb (fun q => answered answers q
                                                && (q_name v =? q_name q)) ps))
               (queries st);
      emitted := emitted st ++ flat_map (answersFor answers) ps |}, Normal tt).
Proof.
  revert st. induction ps as [|p ps IH]; intros [qs em]; simpl.
  - rewrite app_nil_r. f_equal. f_equal.
    induction qs as [|x qs IHq]; simpl; congruence.
  - rewrite fold_onAnswer, IH. simpl. rewrite <- app_assoc. f_equal. f_equal.
    destruct (answered answers p); simpl.
    + rewrite filter_twice. apply filter_ext. intros v.
      destruct (q_name v =? q_name p); reflexivity.
    + reflexivity.
Qed.

(** Without a listener the handler returns. *)
Lemma onResponse_returns (pending : list MdnsQuery) (answers : list MdnsAnswer) :
  snd (onResponse 0 pending answers) = Normal tt.
Proof. unfold onResponse. rewrite fold_queries. reflexivity. Qed.

(** It then removes the pending queries whose name some answer carries, and
    keeps the others in order. *)
Lemma onResponse_queries (pending : list MdnsQuery) (answers : list MdnsAnswer) :
  queries (fst (onResponse 0 pending answers))
  = filter (fun q => negb (answered answers q)) pending.
Proof.
  unfold onResponse. rewrite fold_queries. simpl.
  apply filter_ext_in. intros v Hv. f_equal.
  destruct (answered answers v) eqn:Hav.
  - apply existsb_exists. exists v. rewrite Hav, String.eqb_refl. auto.
  - destruct (existsb _ pending) eqn:He; [|reflexivity].
    apply existsb_exists in He. destruct He as [q [_ Hq]].
    apply andb_true_iff in Hq. destruct Hq as [Hq Hn].
    apply String.eqb_eq in Hn.
    rewrite (answered_same_name answers q v Hn) in Hav. congruence.
Qed.

Lemma matching_cons (p : MdnsQuery) (ps : list MdnsQuery) (answers : list MdnsAnswer) :
  matching (p :: ps) answers
  = map (pair p) (answersFor answers p) ++ matching ps answers.
Proof.
  unfold matching, answersFor. simpl. rewrite filter_app, filter_of_map. reflexivity.
Qed.

(** And it emits one notification for every pair of a pending query and an
    answer with the same name. *)
Lemma onResponse_emitted (pending : list MdnsQuery) (answers : list MdnsAnswer) :
  emitted (fst (onResponse 0 pending answers)) = map snd (matching pending answers).
Proof.
  unfold onResponse. rewrite fold_queries. simpl.
  induction pending as [|p ps IH]; [reflexivity|].
  rewrite matching_cons, map_app, map_map. simpl. rewrite map_id, IH. reflexivity.
Qed.

(** The inner loop, for one query, when a listener is registered: it is left
    at the first answer that carries the name of the query. *)
Lemma forEach_onAnswer_listener (n : nat) (q : MdnsQuery)
  (answers : list MdnsAnswer) (st : MdnsPending) :
  forEach (onAnswer (S n) q) answers st =
  match answersFor answers q with
  | [] => (st, Normal tt)
  | a :: _ => ({| queries := queries st; emitted := emitted st ++ [a] |},
               Throw invalidUrl)
  end.
Proof.
  unfold answersFor. induction answers as [|a answers IH]; simpl; [reflexivity|].
  unfold onAnswer at 1. simpl.
  destruct (a_name a =? q_name q); [reflexivity | exact IH].
Qed.

(** The handler when a listener is registered: it is left at the first pair
    of a pending query and an answer with the same name, with no query
    removed. *)
Lemma onResponse_listener (n : nat) (pending : list MdnsQuery)
  (answers : list MdnsAnswer) :
  onResponse (S n) pending answers =
  match matching pending answers with
  | [] => ({| queries := pending; emitted := [] |}, Normal tt)
  | (_, a) :: _ => ({| queries := pending; emitted := [a] |}, Throw invalidUrl)
  end.
Proof.
  unfold onResponse.
  assert (H : forall ps st,
             forEach (fun st q => forEach (onAnswer (S n) q) answers st) ps st =
             match matching ps answers with
             | [] => (st, Normal tt)
             | (_, a) :: _ => ({| queries := queries st; emitted := emitted st ++ [a] |},
                               Throw invalidUrl)
             end).
  { induction ps as [|p ps IH]; intros st; simpl; [reflexivity|].
    rewrite forEach_onAnswer_listener, matching_cons.
    destruct (answersFor answers p) as [|a rest]; simpl; [apply IH | reflexivity]. }
  rewrite H.
  destruct (matching pending answers) as [|[q a] rest]; reflexivity.
Qed.




(** *** The binding loader *)


(** A successful load installs a new binding object built from [cfg] and the
    parsed file, records the file's modification time and marks the bridge
    running. *)
Lemma loadBindings_success (env : Env) (c : Cfg) (s : InterfaceServer) :
  snd (loadBindings env c s) = true ->
  exists f doc,
    bindingsFile env s = Some f /\ file_json f = Some doc
    /\ bindings (fst (loadBindings env c s))
       = Some {| ib_cfg := c; ib_options := baseOptions c; ib_file := doc |}
    /\ _fileTime (fst (loadBindings env c s)) = file_mtime f
    /\ isRunning (if_proto (fst (loadBindings env c s))) = true
    /\ _isLoading (fst (loadBindings env c s)) = false.
Proof.
  unfold loadBindings.
  destruct (bindingsFile env s) as [f|]; [destruct (file_json f) as [doc|] eqn:Hj|];
    simpl; intros H; try discriminate.
  exists f, doc. repeat split; assumption.
Qed.

Lemma onChange_loads_at_most_once (env : Env) (c : Cfg) (event : string)
  (fileName : option string) (s : InterfaceServer) :
  loads (onChange env c event fileName s) <= 1.
Proof.
  unfold onChange.
  destruct (truthy fileName && (event =? "change")); simpl; [|lia].
  destruct (_isLoading s); simpl; [lia|].
  destruct (bindingsFile env s) as [f|]; simpl; [|lia].
  destruct (file_mtime f =? _fileTime s)%Z; simpl; lia.
Qed.

(** C7. Take two notifications delivered to the watcher of a bridge, the
    file system being [env1] at the first and [env2] at the second. If at the
    second the file's modification time equals the time recorded at the last
    successful load, the second notification makes no call of [loadBindings]
    and leaves the bridge, its binding included, as it was; over the pair
    [loadBindings] runs at most once. *)
Theorem duplicate_notification (env1 env2 : Env) (c1 c2 : Cfg)
  (event1 event2 : string) (fileName1 fileName2 : option string)
  (s : InterfaceServer) (stats : File) :
  let first := onChange env1 c1 event1 fileName1 s in
  let second := onChange env2 c2 event2 fileName2 (stateAfter s first) in
  bindingsFile env2 (stateAfter s first) = Some stats ->
  file_mtime stats = _fileTime (stateAfter s first) ->
  second = Normal (stateAfter s first, 0)
  /\ bindings (stateAfter (stateAfter s first) second) = bindings (stateAfter s first)
  /\ loads first + loads second <= 1.
Proof.
  intros first second Hfile Htime.
  assert (Hsecond : second = Normal (stateAfter s first, 0)).
  { unfold second, onChange. rewrite Hfile, Htime, Z.eqb_refl.
    destruct (truthy fileName2 && (event2 =? "change")); [|reflexivity].
    destruct (_isLoading (stateAfter s first)); reflexivity. }
  split; [exact Hsecond|]. rewrite Hsecond. simpl. split; [reflexivity|].
  pose proof (onChange_loads_at_most_once env1 c1 event1 fileName1 s).
  fold first in H. lia.
Qed.

(** *** The handshake *)

(** A settled promise stays as it is. *)
Lemma resolve_settled (p : Promise) : p <> Pending -> resolve p = p.
Proof. destruct p; intros H; [contradiction | reflexivity | reflexivity]. Qed.

Lemma reject_settled (reason : string) (p : Promise) : p <> Pending -> reject reason p = p.
Proof. destruct p; intros H; [contradiction | reflexivity | reflexivity]. Qed.

Lemma catchInSettle_settled (h : Handshake) :
  promise h <> Pending -> promise (catchInSettle h) = promise h.
Proof.
  intros H. unfold catchInSettle. break_match; simpl;
    [apply reject_settled; assumption | reflexivity].
Qed.

(** No event changes a promise that has settled: the late completion of
    whatever lost the race is discarded. *)
Lemma step_settled (conf : Config) (l : Servers) (ev : HandshakeEvent)
  (s : REMInterfaceServer) (h : Handshake) :
  promise h <> Pending ->
  promise (snd (step conf l ev (s, h))) = promise h.
Proof.
  intros H. unfold step.
  destruct ev, (stage h); simpl; try reflexivity;
    unfold onInitTimer, onPhase1Returns, onSettleTimer, onPhase2Returns,
           onCheckEmit, onDeadlineTimer;
    repeat (break_match; simpl); try reflexivity;
    try (apply reject_settled; assumption);
    try (apply resolve_settled; assumption);
    try (rewrite catchInSettle_settled; simpl; [reflexivity | assumption]).
Qed.

Lemma run_cons (conf : Config) (l : Servers) (ev : HandshakeEvent)
  (evs : list HandshakeEvent) (st : REMInterfaceServer * Handshake) :
  run conf l (ev :: evs) st = run conf l evs (step conf l ev st).
Proof. reflexivity. Qed.

Lemma run_settled (conf : Config) (l : Servers) (evs : list HandshakeEvent)
  (s : REMInterfaceServer) (h : Handshake) :
  promise h <> Pending ->
  promise (snd (run conf l evs (s, h))) = promise h.
Proof.
  revert s h. induction evs as [|ev evs IH]; intros s h H; [reflexivity|].
  rewrite run_cons.
  destruct (step conf l ev (s, h)) as [s1 h1] eqn:E.
  assert (H1 : promise h1 = promise h).
  { change h1 with (snd (s1, h1)). rewrite <- E. now apply step_settled. }
  rewrite IH; congruence.
Qed.

Lemma step_quiet (conf : Config) (l : Servers) (ev : HandshakeEvent)
  (s : REMInterfaceServer) (h : Handshake) :
  quiet h -> step conf l ev (s, h) = (s, h).
Proof.
  intros (Hs & Ht & Hl). unfold step. rewrite Hs, Ht, Hl.
  destruct ev; reflexivity.
Qed.

Lemma run_quiet (conf : Config) (l : Servers) (evs : list HandshakeEvent)
  (s : REMInterfaceServer) (h : Handshake) :
  quiet h -> run conf l evs (s, h) = (s, h).
Proof.
  intros H. induction evs as [|ev evs IH]; [reflexivity|].
  rewrite run_cons, step_quiet by assumption. exact IH.
Qed.

(** When the first request comes back with a status above 200 or below 0,
    the run ends there: whatever the event loop delivers afterwards, the
    second request is not sent, no listener is registered, the bridge is
    unchanged, and the promise is rejected with the reported message when
    that message can be read, and is left pending when reading it throws. *)
Lemma phase1_failure (conf : Config) (l : Servers) (s : REMInterfaceServer)
  (h : Handshake) (x : HttpExchange) (evs : list HandshakeEvent) :
  stage h = Phase1 -> _tmr h = false -> listening h = false ->
  (200 <? status_code (sendClientRequest (cfg_name s) x))%Z
  || (status_code (sendClientRequest (cfg_name s) x) <? 0)%Z = true ->
  fst (run conf l (Phase1Returns x :: evs) (s, h)) = s
  /\ requests (snd (run conf l (Phase1Returns x :: evs) (s, h))) = requests h
  /\ listening (snd (run conf l (Phase1Returns x :: evs) (s, h))) = false
  /\ promise (snd (run conf l (Phase1Returns x :: evs) (s, h)))
     = match error_message (sendClientRequest (cfg_name s) x) with
       | Normal m => reject ("initConnection: " ++ show m) (promise h)
       | Throw _ => promise h
       end.
Proof.
  intros Hs Ht Hl Hcode.
  rewrite run_cons. unfold step. rewrite Hs. unfold onPhase1Returns. rewrite Hcode.
  destruct (error_message (sendClientRequest (cfg_name s) x));
    rewrite run_quiet by (repeat split; assumption); simpl; auto.
Qed.

Lemma step_awaiting (conf : Config) (l : Servers) (ev : HandshakeEvent)
  (s : REMInterfaceServer) (h : Handshake) :
  awaiting h -> harmless (cfg_name s) ev = true ->
  fst (step conf l ev (s, h)) = s /\ awaiting (snd (step conf l ev (s, h))).
Proof.
  intros [Hst Hp] Hev. unfold step.
  destruct ev; simpl in Hev; try discriminate.
  - destruct Hst as [Hs | Hs]; rewrite Hs; (split; [reflexivity | split; auto]).
  - destruct Hst as [Hs | Hs]; rewrite Hs; (split; [reflexivity | split; auto]).
  - destruct Hst as [Hs | Hs]; rewrite Hs; (split; [reflexivity | split; auto]).
  - assert (Hp' : promise h = Resolved \/ resolve (promise h) = Resolved).
    { destruct Hp as [Hp | [Hp _]]; [now left | right; rewrite Hp; reflexivity]. }
    destruct (listening h) eqn:Hl; simpl;
      (split; [reflexivity|]); (split; [exact Hst|]); simpl.
    + left. destruct Hp as [-> | [-> _]]; reflexivity.
    + destruct Hp as [Hp | [_ Hp]]; [now left | congruence].
  - destruct Hst as [Hs | Hs]; rewrite Hs.
    + simpl. split; [reflexivity|]. unfold onPhase2Returns.
      apply negb_true_iff in Hev. rewrite Hev. split; [now right|].
      left. simpl. destruct Hp as [-> | [-> _]]; reflexivity.
    + split; [reflexivity|]. split; auto.
Qed.

Lemma run_awaiting (conf : Config) (l : Servers) (pre : list HandshakeEvent)
  (s : REMInterfaceServer) (h : Handshake) :
  awaiting h -> Forall (fun ev => harmless (cfg_name s) ev = true) pre ->
  fst (run conf l pre (s, h)) = s /\ awaiting (snd (run conf l pre (s, h))).
Proof.
  revert h. induction pre as [|ev pre IH]; intros h Hh Hpre; [split; auto|].
  inversion Hpre as [|? ? Hev Hrest]; subst.
  destruct (step_awaiting conf l ev s h Hh Hev) as [Hs Ha].
  rewrite run_cons.
  destruct (step conf l ev (s, h)) as [s1 h1]. simpl in Hs, Ha. subst s1.
  apply IH; assumption.
Qed.

(** The acknowledgment delivered to a run that waits for it resolves it. *)
Lemma checkEmit_resolves (conf : Config) (l : Servers) (s : REMInterfaceServer)
  (h : Handshake) :
  awaiting h -> promise (snd (step conf l CheckEmit (s, h))) = Resolved.
Proof.
  intros [_ Hp]. unfold step.
  destruct (listening h) eqn:Hl; simpl;
    destruct Hp as [Hp | [Hp Hl']]; rewrite ?Hp; try reflexivity; congruence.
Qed.

Lemma run_app (conf : Config) (l : Servers) (evs1 evs2 : list HandshakeEvent)
  (st : REMInterfaceServer * Handshake) :
  run conf l (evs1 ++ evs2) st = run conf l evs2 (run conf l evs1 st).
Proof. unfold run. apply fold_left_app. Qed.

(** The run up to the point where it waits for the acknowledgment. *)
Lemma handshake_prefix (conf : Config) (l : Servers) (s : REMInterfaceServer)
  (x1 : HttpExchange) :
  lookup "http" (servers conf) <> None ->
  canListen l = true ->
  phase1Succeeds (cfg_name s) x1 = true ->
  exists s1 h2,
    run conf l [InitTimer; Phase1Returns x1; SettleTimer] (s, scheduled) = (s1, h2)
    /\ cfg s1 = cfg s
    /\ awaiting h2
    /\ requests h2 = ["/config/checkconnection/"; "/config/checkemit"].
Proof.
  intros Hhttp Hlisten Hok.
  unfold phase1Succeeds in Hok. apply andb_true_iff in Hok.
  destruct Hok as [Hcode Hid]. apply negb_true_iff in Hcode.
  unfold canListen in Hlisten.
  unfold run. simpl. unfold onInitTimer.
  destruct (lookup "http" (servers conf)); [|contradiction]. simpl.
  unfold onPhase1Returns. rewrite Hcode.
  destruct (obj_id (sendClientRequest (cfg_name s) x1)) as [id|]; [|discriminate].
  simpl. unfold onSettleTimer.
  destruct (findServer "http" l) as [srv|]; [|discriminate].
  destruct (addListenerOnce srv); [|discriminate].
  simpl. eexists. eexists. split; [reflexivity|].
  split; [reflexivity|]. split; [|reflexivity].
  split; [now left | right; split; reflexivity].
Qed.

(** C6, as amended. In a run whose first request succeeds, if the
    acknowledgment event is delivered before the deadline fires and before
    the second request has come back with a status above 200 or with -1, the
    handshake resolves, whatever is delivered afterwards: a success or a
    failure of the second request, the deadline, or nothing at all. *)
Theorem acknowledged_first (conf : Config) (l : Servers) (s : REMInterfaceServer)
  (x1 : HttpExchange) (pre post : list HandshakeEvent) :
  lookup "http" (servers conf) <> None ->
  canListen l = true ->
  phase1Succeeds (cfg_name s) x1 = true ->
  Forall (fun ev => harmless (cfg_name s) ev = true) pre ->
  promise (snd (run conf l
                  ([InitTimer; Phase1Returns x1; SettleTimer]
                   ++ pre ++ CheckEmit :: post)
                  (s, scheduled)))
  = Resolved.
Proof.
  intros Hhttp Hlisten Hok Hpre.
  destruct (handshake_prefix conf l s x1 Hhttp Hlisten Hok)
    as (s1 & h2 & Hrun & Hcfg & Ha & _).
  rewrite run_app, Hrun, run_app, run_cons.
  assert (Hpre1 : Forall (fun ev => harmless (cfg_name s1) ev = true) pre).
  { unfold cfg_name in *. rewrite Hcfg. exact Hpre. }
  destruct (run_awaiting conf l pre s1 h2 Ha Hpre1) as [Hs Hb].
  destruct (run conf l pre (s1, h2)) as [s3 h3]. simpl in Hs, Hb. subst s3.
  pose proof (checkEmit_resolves conf l s1 h3 Hb) as Hr.
  destruct (step conf l CheckEmit (s1, h3)) as [s4 h4]. simpl in Hr.
  rewrite run_settled; [exact Hr | congruence].
Qed.

(** *** What isConnected says *)

(** An event of the handshake touches nothing of the bridge but
    [remoteConnectionId]. *)
Lemma step_bridge (conf : Config) (l : Servers) (ev : HandshakeEvent)
  (s : REMInterfaceServer) (h : Handshake) :
  sockClient (fst (step conf l ev (s, h))) = sockClient s
  /\ cfg (fst (step conf l ev (s, h))) = cfg s
  /\ isRunning (rem_proto (fst (step conf l ev (s, h)))) = isRunning (rem_proto s)
  /\ uuid (rem_proto (fst (step conf l ev (s, h)))) = uuid (rem_proto s).
Proof.
  unfold step. destruct ev, (stage h); simpl; auto;
    unfold onPhase1Returns; repeat (break_match; simpl); auto.
Qed.

(** In every state a bridge can reach, a socket client exists only if the
    bridge is marked running. *)
Lemma REM_sockClient_running (st : REMState) :
  REM_reachable st ->
  sockClient (fst st) <> None -> isRunning (rem_proto (fst st)) = true.
Proof.
  induction 1 as [n t | st st' Hreach IH Hstep]; simpl.
  - intros H. contradiction.
  - destruct Hstep as [c s hs | connected s hs | conf l ev i h s hs Hi]; cbn [fst] in *.
    + unfold REMInterfaceServer_init, REMInterfaceServer_initSockets.
      destruct (c_enabled c); simpl; [destruct (c_options c); simpl|]; auto.
    + unfold REMInterfaceServer_socket. destruct (sockClient s) eqn:E; simpl.
      * intros _. apply IH. congruence.
      * intros H. rewrite E in H. contradiction.
    + destruct (step_bridge conf l ev s h) as (Hs & _ & Hr & _).
      rewrite Hs, Hr. exact IH.
Qed.

(** C8, as amended. In every state a REM bridge can reach, [isConnected] is
    true only if the bridge is marked running and its socket client reports
    connected; it does not depend on the handshake. Of the other bridges, an
    HTTP or Influx bridge is connected exactly when it is running, and an
    MQTT bridge only when it is running with at least one bound event. *)
Theorem isConnected_meaning :
  (forall st, REM_reachable st ->
              isConnected (REMInterface (fst st)) = Normal true ->
              sockClient (fst st) = Some true
              /\ isRunning (rem_proto (fst st)) = true)
  /\ (forall s, isConnected (HttpInterface s) = Normal (isRunning (if_proto s)))
  /\ (forall s, isConnected (InfluxInterface s) = Normal (isRunning (if_proto s)))
  /\ (forall s, isConnected (MqttInterface s) = Normal true ->
                isRunning (if_proto s) = true
                /\ exists b n, bindings s = Some b /\ events_length b = Some n
                               /\ 0 < n).
Proof.
  repeat split; try reflexivity.
  - simpl in H0. unfold REMInterfaceServer_isConnected in H0.
    destruct (sockClient (fst st)) as [b|]; [congruence | discriminate].
  - apply REM_sockClient_running; [assumption|].
    simpl in H0. unfold REMInterfaceServer_isConnected in H0.
    destruct (sockClient (fst st)); [discriminate | discriminate].
  - simpl in H. unfold MqttInterfaceServer_isConnected in H.
    destruct (isRunning (if_proto s)); [reflexivity | discriminate].
  - simpl in H. unfold MqttInterfaceServer_isConnected in H.
    destruct (isRunning (if_proto s)); [|discriminate].
    destruct (bindings s) as [b|]; [|discriminate].
    destruct (events_length b) as [n|] eqn:En; [|discriminate].
    exists b, n. split; [reflexivity|]. split; [exact En|].
    injection H as H. now apply Nat.ltb_lt.
Qed.

(** *** Stopping the registry *)

Lemma stopped_after_logs (h : Handle) (evs : list StopEvent) :
  stopped (Handle_stopAsync h ++ evs) = stopped evs.
Proof.
  destruct h as [s|s|s|s|s|s|s|s|s]; simpl; try reflexivity.
  destruct (ssdp_server s); reflexivity.
Qed.

(** [stopAsync] stops the handles in the order of the array, which is the
    order in which they were registered. *)
Lemma stopFrom_order (i : nat) (l : Servers) :
  stopped (snd (stopFrom i l)) = registered l.
Proof.
  revert i. induction l as [|[h|] l IH]; intros i; simpl; [reflexivity| |].
  - specialize (IH (S i)). destruct (stopFrom (S i) l) as [rest evs]. simpl in *.
    rewrite stopped_after_logs, IH. reflexivity.
  - specialize (IH (S i)). destruct (stopFrom (S i) l) as [rest evs]. simpl in *.
    exact IH.
Qed.

(** After [stopAsync] every entry of the array is [undefined]. *)
Lemma stopFrom_clears (i : nat) (l : Servers) :
  fst (stopFrom i l) = map (fun _ => None) l.
Proof.
  revert i. induction l as [|[h|] l IH]; intros i; simpl; [reflexivity| |];
    specialize (IH (S i)); destruct (stopFrom (S i) l) as [rest evs]; simpl in *;
    rewrite IH; reflexivity.
Qed.

(** *** Initialising the registry *)

Lemma assignUuid_entry (store : string -> Cfg -> Config -> Config) (key : string)
  (c : Cfg) (w : World) :
  c_uuid (fst (assignUuid store key c w)) = Some (idAfter w c)
  /\ c_enabled (fst (assignUuid store key c w)) = c_enabled c
  /\ config (snd (assignUuid store key c w)) = persisted store key c w
  /\ _servers (snd (assignUuid store key c w)) = _servers w.
Proof.
  unfold assignUuid, idAfter, persisted.
  destruct (c_uuid c) eqn:E; simpl; auto.
Qed.

(** An identifier that is there is left alone: the generator is not called
    and nothing is written to the store. *)
Lemma assignUuid_assigned (store : string -> Cfg -> Config -> Config) (key : string)
  (c : Cfg) (w : World) (u : string) :
  c_uuid c = Some u -> assignUuid store key c w = (c, w).
Proof. intros H. unfold assignUuid. rewrite H. reflexivity. Qed.

Lemma loadBindings_proto (env : Env) (c : Cfg) (s : InterfaceServer) :
  uuid (if_proto (fst (loadBindings env c s))) = uuid (if_proto s)
  /\ name (if_proto (fst (loadBindings env c s))) = name (if_proto s).
Proof.
  unfold loadBindings. repeat (break_match; simpl); auto.
Qed.

Lemma watchAndLoad_proto (env : Env) (c : Cfg) (s : InterfaceServer) :
  uuid (if_proto (fst (watchAndLoad env c s))) = uuid (if_proto s)
  /\ name (if_proto (fst (watchAndLoad env c s))) = name (if_proto s).
Proof.
  unfold watchAndLoad. break_match; cbn [fst]; [|simpl; auto].
  match goal with |- context [loadBindings env c ?x] =>
    exact (loadBindings_proto env c x) end.
Qed.

Lemma InterfaceServer_init_proto (env : Env) (c : Cfg) (s : InterfaceServer) :
  uuid (if_proto (InterfaceServer_init env c s)) = c_uuid c
  /\ name (if_proto (InterfaceServer_init env c s)) = name (if_proto s).
Proof.
  unfold InterfaceServer_init, initBindings.
  destruct (c_enabled c && truthy (c_fileName c)); simpl; auto.
  match goal with |- context [watchAndLoad env c ?s0] =>
    pose proof (watchAndLoad_proto env c s0) as H;
    destruct (watchAndLoad env c s0) as [s1 [|]] end; simpl in *; exact H.
Qed.

Lemma HttpInterfaceServer_initBindings_state (env : Env) (l : Servers) (c : Cfg)
  (s : InterfaceServer) :
  snd (fst (HttpInterfaceServer_initBindings env l c s)) = fst (watchAndLoad env c s).
Proof.
  unfold HttpInterfaceServer_initBindings.
  destruct (watchAndLoad env c s) as [s1 [|]]; simpl;
    repeat (break_match; simpl); reflexivity.
Qed.

Lemma HttpInterfaceServer_init_proto (env : Env) (l : Servers) (c : Cfg)
  (s : InterfaceServer) :
  uuid (if_proto (snd (HttpInterfaceServer_init env l c s))) = c_uuid c
  /\ name (if_proto (snd (HttpInterfaceServer_init env l c s))) = name (if_proto s).
Proof.
  unfold HttpInterfaceServer_init.
  destruct (c_enabled c && truthy (c_fileName c)); simpl; auto.
  match goal with |- context [HttpInterfaceServer_initBindings env l c ?s0] =>
    pose proof (HttpInterfaceServer_initBindings_state env l c s0) as Hs;
    pose proof (watchAndLoad_proto env c s0) as H;
    destruct (HttpInterfaceServer_initBindings env l c s0) as [[l1 s1] [|]] end;
    simpl in *; subst s1; exact H.
Qed.

Lemma HttpServer_init_uuid (conf : Config) (c : Cfg) (s : HttpServer) :
  uuid (http_proto (fst (HttpServer_init conf c s))) = c_uuid c.
Proof.
  unfold HttpServer_init. repeat (break_match; simpl); reflexivity.
Qed.

Lemma SsdpServer_init_uuid (env : Env) (conf : Config) (c : Cfg) (s : SsdpServer) :
  uuid (ssdp_proto (fst (SsdpServer_init env conf c s))) = c_uuid c.
Proof.
  unfold SsdpServer_init. repeat (break_match; simpl); reflexivity.
Qed.

(** Whatever the class and the state of a handle, its [init] leaves it with
    the identifier of the entry it was given. *)
Lemma Handle_init_uuid (env : Env) (conf : Config) (l : Servers) (c : Cfg)
  (h : Handle) :
  uuid (proto (snd (fst (Handle_init env conf l c h)))) = c_uuid c.
Proof.
  destruct h as [s|s|s|s|s|s|s|s|s]; simpl.
  - pose proof (HttpServer_init_uuid conf c s) as H.
    destruct (HttpServer_init conf c s). exact H.
  - reflexivity.
  - unfold HttpsServer_init. repeat (break_match; simpl); reflexivity.
  - unfold MdnsServer_init. break_match; reflexivity.
  - pose proof (SsdpServer_init_uuid env conf c s) as H.
    destruct (SsdpServer_init env conf c s). exact H.
  - pose proof (HttpInterfaceServer_init_proto env l c s) as [H _].
    destruct (HttpInterfaceServer_init env l c s). exact H.
  - apply InterfaceServer_init_proto.
  - apply InterfaceServer_init_proto.
  - unfold REMInterfaceServer_init, REMInterfaceServer_initSockets.
    repeat (break_match; simpl); reflexivity.
Qed.

(** C1, as amended. For an entry with [enabled = false]: the round of
    [initInterfaces] creates and appends no handle, and changes nothing but
    the entry's identifier, assigned and persisted when the entry had none;
    the round of [init] for a server entry persists the identifier in the same
    way and, when the key is one of http, http2, https, mdns, ssdp, appends
    exactly one handle, of the class the key stands for, named by the key,
    holding the entry's identifier, not running and not connected; under any
    other key it appends nothing. Neither round throws. *)
Theorem disabled_entry (env : Env) (w : World) (s : string) (c : Cfg) :
  c_enabled c = false ->
  initInterface env w s c
  = ({| config := persisted setInterface s c w;
        _servers := _servers w;
        uuids := match c_uuid c with Some _ => uuids w | None => S (uuids w) end |},
     Normal tt)
  /\ snd (initServer env w s c) = Normal tt
  /\ config (fst (initServer env w s c)) = persisted setServer s c w
  /\ match classForKey s with
     | None => _servers (fst (initServer env w s c)) = _servers w
     | Some class =>
         exists h,
           _servers (fst (initServer env w s c)) = _servers w ++ [Some h]
           /\ classOf h = class
           /\ name (proto h) = s
           /\ uuid (proto h) = Some (idAfter w c)
           /\ isRunning (proto h) = false
           /\ isConnected h = Normal false
     end.
Proof.
  intros Hoff. destruct w as [conf l n].
  unfold initInterface, initServer, assignUuid, persisted, idAfter.
  destruct (c_uuid c) as [u|] eqn:Hu; simpl; rewrite Hoff; simpl;
    (split; [reflexivity|]); unfold newServer, classForKey;
    repeat match goal with
           | |- context [String.eqb s ?k] => destruct (String.eqb s k) eqn:?
           end;
    simpl;
    unfold HttpServer_init, HttpsServer_init, MdnsServer_init, SsdpServer_init,
           Http2Server_init; simpl; rewrite ?Hoff, ?Hu; simpl;
    repeat split; try reflexivity;
    eexists; repeat split; reflexivity.
Qed.

(** *** Identifiers are assigned once *)

Lemma lookup_setKey_other (k key : string) (c : Cfg) (sec : Section_) :
  key <> k -> lookup k (setKey key c sec) = lookup k sec.
Proof.
  intros Hne. induction sec as [|[k0 c0] sec IH]; simpl.
  - destruct (key =? k) eqn:E; [apply String.eqb_eq in E; contradiction | reflexivity].
  - destruct (k0 =? key) eqn:E; simpl.
    + apply String.eqb_eq in E. subst k0.
      destruct (key =? k) eqn:E'; [apply String.eqb_eq in E'; contradiction | reflexivity].
    + destruct (k0 =? k); [reflexivity | exact IH].
Qed.

(** In a section whose keys are distinct, the entry found under a key is the
    only one stored under it. *)
Lemma lookup_unique (sec : Section_) (k : string) (ck : Cfg) :
  NoDup (keys sec) -> lookup k sec = Some ck ->
  Forall (fun e => fst e = k -> snd e = ck) sec.
Proof.
  induction sec as [|[k0 c0] sec IH]; intros Hnd Hl; [constructor|].
  simpl in Hnd, Hl. inversion Hnd as [|? ? Hnotin Hnd']; subst.
  destruct (k0 =? k) eqn:E.
  - apply String.eqb_eq in E. subst k0. injection Hl as ->.
    constructor; [auto|].
    apply Forall_forall. intros [s c] Hin Hs. simpl in *. subst s.
    exfalso. apply Hnotin. unfold keys. change k with (fst (k, c)).
    apply in_map. exact Hin.
  - constructor.
    + simpl. intros ->. rewrite String.eqb_refl in E. discriminate.
    + apply IH; assumption.
Qed.

Lemma forIn_preserves (body : World -> string -> Cfg -> World * Completion unit)
  (P : World -> Prop) (Q : string -> Cfg -> Prop) (entries : Section_) :
  (forall w s c, Q s c -> P w -> P (fst (body w s c))) ->
  Forall (fun e => Q (fst e) (snd e)) entries ->
  forall w, P w -> P (fst (forIn body entries w)).
Proof.
  intros Hbody Hq. induction Hq as [|[s c] entries Hsc Hrest IH]; intros w Hw;
    [exact Hw|].
  simpl. specialize (Hbody w s c Hsc Hw).
  destruct (body w s c) as [w' [[]|e]]; simpl in *; [apply IH|]; assumption.
Qed.

Lemma initServer_config (env : Env) (w : World) (s : string) (c : Cfg) :
  config (fst (initServer env w s c)) = persisted setServer s c w.
Proof.
  unfold initServer.
  pose proof (assignUuid_entry setServer s c w) as (_ & _ & Hc & _).
  destruct (assignUuid setServer s c w) as [c1 w1]. simpl in Hc.
  destruct (newServer s) as [srv|]; [|exact Hc].
  destruct (Handle_init env (config w1) (_servers w1) c1 srv) as [[l h] r].
  exact Hc.
Qed.

Lemma initInterface_config (env : Env) (w : World) (s : string) (c : Cfg) :
  config (fst (initInterface env w s c)) = persisted setInterface s c w.
Proof.
  unfold initInterface.
  pose proof (assignUuid_entry setInterface s c w) as (_ & _ & Hc & _).
  destruct (assignUuid setInterface s c w) as [c1 w1]. simpl in Hc.
  destruct (negb (c_enabled c1)); [exact Hc|].
  break_match; [|exact Hc].
  destruct (Handle_init env (config w1) (_servers w1) c1 h) as [[l h'] [[]|e]];
    exact Hc.
Qed.

Lemma persisted_lookup (store : string -> Cfg -> Config -> Config)
  (section : Config -> Section_) (k s : string) (ck c : Cfg) (u : string) (w : World) :
  (forall key c0 conf, key <> k -> lookup k (section (store key c0 conf)) = lookup k (section conf)) ->
  c_uuid ck = Some u -> (s = k -> c = ck) ->
  lookup k (section (config w)) = Some ck ->
  lookup k (section (persisted store s c w)) = Some ck.
Proof.
  intros Hstore Hu Hsame Hl. unfold persisted.
  destruct (c_uuid c) eqn:E; [exact Hl|].
  rewrite Hstore; [exact Hl|].
  intros ->. rewrite (Hsame eq_refl) in E. congruence.
Qed.

Lemma setServer_servers (k key : string) (c : Cfg) (conf : Config) :
  key <> k -> lookup k (servers (setServer key c conf)) = lookup k (servers conf).
Proof. intros H. simpl. now apply lookup_setKey_other. Qed.

Lemma setInterface_interfaces (k key : string) (c : Cfg) (conf : Config) :
  key <> k -> lookup k (interfaces (setInterface key c conf)) = lookup k (interfaces conf).
Proof. intros H. simpl. now apply lookup_setKey_other. Qed.

Lemma persisted_setServer_interfaces (s : string) (c : Cfg) (w : World) :
  interfaces (persisted setServer s c w) = interfaces (config w).
Proof. unfold persisted. destruct (c_uuid c); reflexivity. Qed.

Lemma persisted_setInterface_servers (s : string) (c : Cfg) (w : World) :
  servers (persisted setInterface s c w) = servers (config w).
Proof. unfold persisted. destruct (c_uuid c); reflexivity. Qed.

(** A round of [init] for an entry that has an identifier: the handle it
    appends holds that identifier. *)
Lemma initServer_handle (env : Env) (w : World) (s : string) (c : Cfg) (u : string) :
  c_uuid c = Some u ->
  match newServer s with
  | None => _servers (fst (initServer env w s c)) = _servers w
  | Some _ =>
      exists h, _servers (fst (initServer env w s c)) = _servers w ++ [Some h]
                /\ uuid (proto h) = Some u
  end.
Proof.
  intros Hu. unfold initServer. rewrite (assignUuid_assigned _ _ _ _ u Hu).
  destruct (newServer s) as [srv|] eqn:E; [|reflexivity].
  pose proof (Handle_init_uuid env (config w) (_servers w) c srv) as H.
  assert (Hl : fst (fst (Handle_init env (config w) (_servers w) c srv)) = _servers w).
  { unfold newServer in E.
    repeat match type of E with
           | context [String.eqb s ?k] => destruct (String.eqb s k)
           end; try discriminate; injection E as <-; simpl;
      repeat (break_match; simpl); reflexivity. }
  destruct (Handle_init env (config w) (_servers w) c srv) as [[l h] r].
  simpl in *. subst l. exists h. split; [reflexivity | congruence].
Qed.

(** The same for a round of [initInterfaces]. *)
Lemma initInterface_handle (env : Env) (w : World) (s : string) (c : Cfg) (u : string) :
  c_uuid c = Some u ->
  _servers (fst (initInterface env w s c)) = _servers w
  \/ exists l h, _servers (fst (initInterface env w s c)) = l ++ [Some h]
                 /\ uuid (proto h) = Some u.
Proof.
  intros Hu. unfold initInterface. rewrite (assignUuid_assigned _ _ _ _ u Hu).
  destruct (negb (c_enabled c)); [now left|].
  break_match; [|now left].
  pose proof (Handle_init_uuid env (config w) (_servers w) c h) as H.
  assert (Hr : snd (Handle_init env (config w) (_servers w) c h) = Normal tt).
  { unfold newInterface in *.
    repeat match goal with
           | E : context [String.eqb ?a ?k] |- _ => destruct (String.eqb a k)
           end; try discriminate;
      match goal with E : Some _ = Some _ |- _ => injection E as <- end; simpl;
      repeat (break_match; simpl); reflexivity. }
  destruct (Handle_init env (config w) (_servers w) c h) as [[l h'] r].
  simpl in *. subst r. right. exists l, h'. split; [reflexivity | congruence].
Qed.

(** *** Lookups and removal *)

Lemma findServerByGuid_others (u : option string) (hs : list Handle) :
  findServerByGuid u (map Some (others u hs)) = Normal None.
Proof.
  unfold others. induction hs as [|h hs IH]; simpl; [reflexivity|].
  destruct (hasUuid u h) eqn:E; simpl; [exact IH|].
  rewrite E. exact IH.
Qed.

Lemma apart_tail (u : option string) (h : Handle) (hs : list Handle) :
  apart u (h :: hs) = true -> apart u hs = true.
Proof. simpl. intros H. apply andb_true_iff in H. apply H. Qed.

Lemma removeServerByGuid_apart (u : option string) (n : nat) :
  forall hs, length hs <= n -> apart u hs = true ->
  removeServerByGuid u (map Some hs) = (map Some (others u hs), Normal tt).
Proof.
  unfold others.
  induction n as [|n IH]; intros [|h hs] Hlen Hap; try reflexivity;
    simpl in Hlen; [lia|].
  cbn [map removeServerByGuid filter].
  destruct (hasUuid u h) eqn:Eh; cbn [negb].
  - destruct hs as [|h2 hs]; [reflexivity|].
    cbn [map filter].
    assert (E2 : hasUuid u h2 = false).
    { simpl in Hap. rewrite Eh in Hap. destruct (hasUuid u h2); [discriminate|reflexivity]. }
    rewrite E2. cbn [negb].
    rewrite IH; [reflexivity | simpl in Hlen; lia |].
    apply apart_tail in Hap. apply apart_tail in Hap. exact Hap.
  - rewrite IH; [reflexivity | lia | apply (apart_tail _ _ _ Hap)].
Qed.

(** X7. When every entry of the registry holds a handle and no two
    neighbours both carry the identifier, [removeServerByGuid] returns and
    leaves exactly the handles with another identifier, in their order; a
    lookup of the identifier then finds nothing. *)
Theorem removeServerByGuid_removes (u : option string) (hs : list Handle) :
  apart u hs = true ->
  removeServerByGuid u (map Some hs) = (map Some (others u hs), Normal tt)
  /\ findServerByGuid u (fst (removeServerByGuid u (map Some hs))) = Normal None.
Proof.
  intros H.
  rewrite (removeServerByGuid_apart u (length hs) hs (le_n _) H).
  split; [reflexivity | apply findServerByGuid_others].
Qed.

Lemma removeServerByGuid_In (u : option string) (h : Handle) (n : nat) :
  forall l, length l <= n -> hasUuid u h = false -> In (Some h) l ->
  In (Some h) (fst (removeServerByGuid u l)).
Proof.
  induction n as [|n IH]; intros [|[x|] l] Hlen Hu Hin; simpl in Hlen;
    try lia; try contradiction; cbn [removeServerByGuid].
  - destruct (hasUuid u x) eqn:Ex.
    + destruct Hin as [Hx | Hin]; [congruence|].
      destruct l as [|next l]; [contradiction|].
      specialize (IH l). destruct (removeServerByGuid u l) as [kept r].
      destruct Hin as [Hn | Hin]; [left; exact Hn | right].
      apply IH; [simpl in Hlen; lia | assumption | assumption].
    + specialize (IH l). destruct (removeServerByGuid u l) as [kept r].
      destruct Hin as [Hx | Hin]; [left; exact Hx | right].
      apply IH; [lia | assumption | assumption].
  - exact Hin.
Qed.

(** X8. [removeServerByGuid] never removes a handle that carries another
    identifier, whether it returns or throws on an entry that is
    undefined. *)
Theorem removeServerByGuid_keeps_others (u : option string) (h : Handle)
  (l : Servers) :
  In (Some h) l -> hasUuid u h = false ->
  In (Some h) (fst (removeServerByGuid u l)).
Proof.
  intros Hin Hu. exact (removeServerByGuid_In u h (length l) l (le_n _) Hu Hin).
Qed.

(** X9. When two neighbours carry the identifier and no handle before them
    does, [removeServerByGuid] removes the first and steps over the second:
    a lookup of the identifier afterwards finds the second. *)
Theorem removeServerByGuid_skips_neighbour (u : option string)
  (before : list Handle) (h1 h2 : Handle) (rest : Servers) :
  (forall h, In h before -> hasUuid u h = false) ->
  hasUuid u h1 = true -> hasUuid u h2 = true ->
  findServerByGuid u
    (fst (removeServerByGuid u (map Some before ++ Some h1 :: Some h2 :: rest)))
  = Normal (Some h2).
Proof.
  intros Hb H1 H2. induction before as [|b before IH]; simpl.
  - rewrite H1. destruct (removeServerByGuid u rest) as [kept r]. simpl.
    rewrite H2. reflexivity.
  - rewrite (Hb b (or_introl eq_refl)).
    destruct (removeServerByGuid u (map Some before ++ Some h1 :: Some h2 :: rest))
      as [kept r] eqn:E.
    simpl. rewrite (Hb b (or_introl eq_refl)).
    apply IH. intros h Hh. apply Hb. now right.
Qed.

(** *** The 'sendPackets' event *)

(** X10. A packet laid out as source, destination, action, length and then
    that many payload bytes is decoded into those fields and that payload,
    whatever follows the payload. *)
Theorem outboundFields_round_trip (src dst act : Z) (data trailer : list Z) :
  outboundFields (src :: dst :: act :: Z.of_nat (length data) :: data ++ trailer)
  = {| source := Some src; dest := Some dst; action := Some act; payload := data |}.
Proof.
  unfold outboundFields. simpl. rewrite Nat2Z.id.
  rewrite firstn_app, Nat.sub_diag, firstn_all. simpl. rewrite app_nil_r.
  reflexivity.
Qed.

Lemma outboundFields_closed (b : list Z) :
  outboundFields b
  = {| source := nth_error b 0; dest := nth_error b 1; action := nth_error b 2;
       payload := firstn (Z.to_nat (nth 3 b 0%Z)) (skipn 4 b) |}.
Proof. destruct b as [|b0 [|b1 [|b2 [|b3 b]]]]; reflexivity. Qed.

(** X11. The handler of 'sendPackets' queues one message for every packet,
    in the order of the packets. The three leading fields of a message are
    the bytes of its packet at indices 0, 1 and 2 (undefined when the packet
    is shorter), and its payload is taken from index 4 on, as many bytes as
    index 3 says and the packet still holds: never more than the length of
    the packet less four, and none when the packet has no byte at index 3 or
    a negative one. *)
Theorem onSendPackets_layout (bytesToProcessArr : list (list Z)) :
  onSendPackets bytesToProcessArr
  = map (fun b => {| source := nth_error b 0; dest := nth_error b 1;
                     action := nth_error b 2;
                     payload := firstn (Z.to_nat (nth 3 b 0%Z)) (skipn 4 b) |})
        bytesToProcessArr
  /\ Forall2 (fun b out => length (payload out) <= length b - 4)
             bytesToProcessArr (onSendPackets bytesToProcessArr).
Proof.
  induction bytesToProcessArr as [|b arr [IH1 IH2]]; simpl; [split; constructor|].
  rewrite IH1, outboundFields_closed. split; [reflexivity|].
  constructor; [|rewrite <- IH1; exact IH2].
  cbn [payload]. rewrite length_firstn, length_skipn. lia.
Qed.

(** *** The registry once it was stopped *)

(** X12. After [WebServer.stopAsync] on a registry that is not empty, every
    lookup, [removeServerByGuid], [emitToClients] and [emitToChannel] throw
    on the first entry, which is undefined; nothing is emitted and the
    array stays as it is. *)
Theorem stopped_registry_throws (l : Servers) :
  l <> [] ->
  (forall n, exists e, findServer n (fst (WebServer_stopAsync l)) = Throw e)
  /\ (forall u, exists e, findServerByGuid u (fst (WebServer_stopAsync l)) = Throw e)
  /\ (forall t, exists e, findServersByType t (fst (WebServer_stopAsync l)) = Throw e)
  /\ (forall u, exists e,
         removeServerByGuid u (fst (WebServer_stopAsync l))
         = (fst (WebServer_stopAsync l), Throw e))
  /\ (forall evt, exists e,
         WebServer_emitToClients evt (fst (WebServer_stopAsync l)) = ([], Throw e))
  /\ (forall channel evt, exists e,
         WebServer_emitToChannel channel evt (fst (WebServer_stopAsync l))
         = ([], Throw e)).
Proof.
  intros Hne. unfold WebServer_stopAsync. rewrite stopFrom_clears.
  destruct l as [|x l]; [contradiction|]. simpl.
  repeat split; intros; eexists; reflexivity.
Qed.

(** *** emitToClients and emitToChannel *)

Lemma Handle_emitToClients_ready (evt : string) (h : Handle) :
  unready (Some h) = false ->
  Handle_emitToClients evt h = Normal (if listens h then [delivery evt h] else []).
Proof.
  destruct h as [s|s|s|s|s|s|s|s|s]; simpl; try reflexivity;
    try (destruct (isRunning (http_proto s)); [|reflexivity];
         destruct (sockServer s); [reflexivity | discriminate]);
    destruct (isRunning (if_proto s)); try reflexivity;
    destruct (bindings s); first [reflexivity | discriminate].
Qed.

Lemma Handle_emitToClients_unready (evt : string) (h : Handle) :
  unready (Some h) = true -> exists e, Handle_emitToClients evt h = Throw e.
Proof.
  destruct h as [s|s|s|s|s|s|s|s|s]; simpl; try discriminate;
    try (destruct (isRunning (http_proto s)); [|discriminate];
         destruct (sockServer s); [discriminate | eexists; reflexivity]);
    destruct (isRunning (if_proto s)); try discriminate;
    destruct (bindings s); first [discriminate | eexists; reflexivity].
Qed.

Lemma unready_dec (e : option Handle) : unready e = true \/ unready e = false.
Proof. destruct (unready e); auto. Qed.

(** X13. When [WebServer.emitToClients] returns, the event was handed
    exactly once to every running HTTP or HTTPS server and every running
    bridge with bindings, in registration order, and to no other handle. *)
Theorem emitToClients_recipients (evt : string) (l : Servers) (es : list Emission) :
  WebServer_emitToClients evt l = (es, Normal tt) ->
  es = map (delivery evt) (filter listens (registered l)).
Proof.
  unfold WebServer_emitToClients. revert es.
  induction l as [|[h|] l IH]; intros es H; simpl in H.
  - injection H as <-. reflexivity.
  - destruct (unready_dec (Some h)) as [Hu | Hu].
    + destruct (Handle_emitToClients_unready evt h Hu) as [e He].
      rewrite He in H. discriminate.
    + rewrite (Handle_emitToClients_ready evt h Hu) in H.
      destruct (fanOut "emitToClients" (Handle_emitToClients evt) l) as [later r].
      injection H as <- ->. simpl.
      destruct (listens h); simpl; f_equal; apply IH; reflexivity.
  - discriminate.
Qed.

(** X14. [WebServer.emitToClients] stops at the first entry that is
    undefined, or runs without its socket server or without its binding: the
    handles before it were served, none after it is, and the call throws. *)
Theorem emitToClients_stops_at_failure (evt : string) (before : list Handle)
  (e : option Handle) (after : Servers) :
  (forall h, In h before -> unready (Some h) = false) ->
  unready e = true ->
  exists message,
    WebServer_emitToClients evt (map Some before ++ e :: after)
    = (map (delivery evt) (filter listens before), Throw message).
Proof.
  unfold WebServer_emitToClients. intros Hb He.
  induction before as [|b before IH]; simpl.
  - destruct e as [h|]; [|eexists; reflexivity].
    destruct (Handle_emitToClients_unready evt h He) as [m Hm].
    rewrite Hm. eexists; reflexivity.
  - rewrite (Handle_emitToClients_ready evt b (Hb b (or_introl eq_refl))).
    destruct IH as [m Hm]; [intros h Hh; apply Hb; now right|].
    rewrite Hm. exists m. destruct (listens b); reflexivity.
Qed.



(** *** The bridges with bindings *)

Lemma loadBindings_present (env : Env) (c : Cfg) (s : InterfaceServer) (f : File) :
  bindingsFile env s = Some f ->
  _isLoading (fst (loadBindings env c s)) = false
  /\ (isRunning (if_proto (fst (loadBindings env c s))) = true ->
      bindings (fst (loadBindings env c s)) <> None).
Proof.
  intros H. unfold loadBindings. rewrite H.
  destruct (file_json f); simpl; split; auto; discriminate.
Qed.

Lemma watchAndLoad_keeps (env : Env) (c : Cfg) (s : InterfaceServer) :
  (_isLoading s = false -> _isLoading (fst (watchAndLoad env c s)) = false)
  /\ ((isRunning (if_proto s) = true -> bindings s <> None) ->
      isRunning (if_proto (fst (watchAndLoad env c s))) = true ->
      bindings (fst (watchAndLoad env c s)) <> None).
Proof.
  unfold watchAndLoad.
  match goal with |- context [fs env ?p] => destruct (fs env p) as [f|] eqn:E end;
    cbn [fst]; [|simpl; auto].
  match goal with |- context [loadBindings env c ?x] =>
    destruct (loadBindings_present env c x f) as [H1 H2]; [exact E|] end.
  split; intros; auto.
Qed.

Lemma onChange_keeps (env : Env) (c : Cfg) (event : string)
  (fileName : option string) (s s' : InterfaceServer) (n : nat) :
  onChange env c event fileName s = Normal (s', n) ->
  (_isLoading s = false -> _isLoading s' = false)
  /\ ((isRunning (if_proto s) = true -> bindings s <> None) ->
      isRunning (if_proto s') = true -> bindings s' <> None).
Proof.
  unfold onChange. intros H.
  destruct (truthy fileName && (event =? "change"));
    [|injection H as <- <-; split; auto].
  destruct (_isLoading s) eqn:El;
    [injection H as <- <-; split; [discriminate | auto]|].
  destruct (bindingsFile env s) as [stats|] eqn:E; [|discriminate H].
  destruct (file_mtime stats =? _fileTime s)%Z; injection H as <- <-;
    [split; auto|].
  destruct (loadBindings_present env c s stats E). split; auto.
Qed.

Lemma Bridge_step_loading (http : bool) (s s' : InterfaceServer) :
  Bridge_step http s s' -> _isLoading s = false -> _isLoading s' = false.
Proof.
  intros [env l c s0 | env c event fileName s0 s1 n Hin Hch] H.
  - destruct http.
    + unfold HttpInterfaceServer_init.
      destruct (c_enabled c && truthy (c_fileName c)); [|exact H].
      pose proof (HttpInterfaceServer_initBindings_state env l c
                    (InterfaceServer_set_proto (set_uuid (c_uuid c) (if_proto s0)) s0))
        as Hs.
      destruct (HttpInterfaceServer_initBindings env l c _) as [[l1 s1] b].
      simpl in Hs. subst s1.
      destruct b; simpl; apply watchAndLoad_keeps; exact H.
    + unfold InterfaceServer_init, initBindings.
      destruct (c_enabled c && truthy (c_fileName c)); [|exact H].
      pose proof (watchAndLoad_keeps env c
                    (InterfaceServer_set_proto (set_uuid (c_uuid c) (if_proto s0)) s0))
        as [Hk _].
      destruct (watchAndLoad env c _) as [s1 b]. simpl in Hk.
      destruct b; simpl; apply Hk; exact H.
  - apply (onChange_keeps _ _ _ _ _ _ _ Hch). exact H.
Qed.

(** X16. In every state a bridge with bindings reaches through calls of
    [init] and of its file watchers (the files not changing while one call
    runs), [_isLoading] is false: it is set only for the duration of a
    synchronous [loadBindings], so the guard of the watcher never holds back
    a notification. *)
Theorem bridge_never_loading (http : bool) (s : InterfaceServer) :
  Bridge_reachable http s -> _isLoading s = false.
Proof.
  induction 1 as [n t | s s' _ IH Hstep]; [reflexivity|].
  exact (Bridge_step_loading http s s' Hstep IH).
Qed.

Lemma HttpInterfaceServer_initBindings_true (env : Env) (l : Servers) (c : Cfg)
  (s : InterfaceServer) :
  snd (HttpInterfaceServer_initBindings env l c s) = true ->
  bindings (fst (watchAndLoad env c s)) <> None.
Proof.
  unfold HttpInterfaceServer_initBindings.
  destruct (watchAndLoad env c s) as [s1 [|]]; simpl; [|discriminate].
  destruct (bindings s1); [discriminate | simpl; discriminate].
Qed.

Lemma HttpInterfaceServer_step_bindings (s s' : InterfaceServer) :
  Bridge_step true s s' ->
  (isRunning (if_proto s) = true -> bindings s <> None) ->
  isRunning (if_proto s') = true -> bindings s' <> None.
Proof.
  intros [env l c s0 | env c event fileName s0 s1 n Hin Hch] H.
  - unfold HttpInterfaceServer_init.
    destruct (c_enabled c && truthy (c_fileName c)); [|exact H].
    set (s00 := InterfaceServer_set_proto (set_uuid (c_uuid c) (if_proto s0)) s0).
    pose proof (watchAndLoad_keeps env c s00) as [_ Hk].
    specialize (Hk H).
    pose proof (HttpInterfaceServer_initBindings_state env l c s00) as Hs.
    pose proof (HttpInterfaceServer_initBindings_true env l c s00) as Ht.
    destruct (HttpInterfaceServer_initBindings env l c s00) as [[l1 s1] b].
    simpl in Hs, Ht. rewrite <- Hs in Hk, Ht.
    destruct b; simpl; [intros _; apply Ht; reflexivity | exact Hk].
  - apply (onChange_keeps _ _ _ _ _ _ _ Hch). exact H.
Qed.

(** X17. An HTTP bridge that is running has a binding, in every state it
    reaches through calls of [init] and of its file watchers (the files not
    changing while one call runs); so its [emitToClients] never throws. *)
Theorem HttpInterfaceServer_emitToClients_returns (s : InterfaceServer)
  (evt : string) :
  Bridge_reachable true s ->
  (isRunning (if_proto s) = true -> bindings s <> None)
  /\ exists es, Handle_emitToClients evt (HttpInterface s) = Normal es.
Proof.
  intros H.
  assert (Hinv : isRunning (if_proto s) = true -> bindings s <> None).
  { induction H as [n t | s s' _ IH Hstep]; [discriminate|].
    exact (HttpInterfaceServer_step_bindings s s' Hstep IH). }
  split; [exact Hinv|]. simpl.
  destruct (isRunning (if_proto s)); [|eexists; reflexivity].
  destruct (bindings s); [eexists; reflexivity | now destruct Hinv].
Qed.

(** X18. [init] of an Influx or MQTT bridge with an enabled entry whose
    bindings file exists but cannot be parsed leaves a new bridge running
    without a binding: [emitToClients] on it throws, and so does
    [isConnected] of the MQTT bridge. *)
Theorem init_on_unparsable_file (env : Env) (c : Cfg) (n t f evt : string)
  (file : File) :
  c_enabled c = true -> c_fileName c = Some f -> f <> "" ->
  fs env (cwd env ++ "/web/bindings" ++ "/" ++ f) = Some file ->
  file_json file = None ->
  isRunning (if_proto (InterfaceServer_init env c (new_InterfaceServer n t))) = true
  /\ bindings (InterfaceServer_init env c (new_InterfaceServer n t)) = None
  /\ (exists e,
         Handle_emitToClients evt
           (InfluxInterface (InterfaceServer_init env c (new_InterfaceServer n t)))
         = Throw e)
  /\ (exists e,
         Handle_emitToClients evt
           (MqttInterface (InterfaceServer_init env c (new_InterfaceServer n t)))
         = Throw e)
  /\ (exists e,
         isConnected
           (MqttInterface (InterfaceServer_init env c (new_InterfaceServer n t)))
         = Throw e).
Proof.
  intros Hen Hf Hne Hfs Hjson.
  assert (E : InterfaceServer_init env c (new_InterfaceServer n t)
              = {| if_proto := set_isRunning true
                                 (set_uuid (c_uuid c) (new_ProtoServer n t));
                   bindingsPath := Some (cwd env ++ "/web/bindings" ++ "/" ++ f)%string;
                   bindings := None; _fileTime := 0%Z; _isLoading := false;
                   watchers := [c] |}).
  { unfold InterfaceServer_init, initBindings, watchAndLoad.
    rewrite Hen, Hf. unfold truthy.
    destruct (f =? "") eqn:Ef; [apply String.eqb_eq in Ef; contradiction|].
    cbn [andb negb]. cbv zeta. rewrite Hfs. cbn [fst].
    unfold loadBindings, bindingsFile. cbn [bindingsPath].
    rewrite Hfs, Hjson. reflexivity. }
  rewrite E. simpl. unfold MqttInterfaceServer_isConnected. simpl.
  repeat split; eexists; reflexivity.
Qed.

(** X19. [init] of a bridge with bindings, of any of the three classes,
    with an entry whose bindings file does not exist installs no watcher,
    loads nothing and leaves [isRunning] as it was. *)
Theorem init_without_file (env : Env) (l : Servers) (c : Cfg) (f : string)
  (s : InterfaceServer) :
  c_fileName c = Some f ->
  fs env (cwd env ++ "/web/bindings" ++ "/" ++ f) = None ->
  (watchers (InterfaceServer_init env c s) = watchers s
   /\ bindings (InterfaceServer_init env c s) = bindings s
   /\ isRunning (if_proto (InterfaceServer_init env c s)) = isRunning (if_proto s))
  /\ HttpInterfaceServer_init env l c s = (l, InterfaceServer_init env c s).
Proof.
  intros Hf Hfs.
  unfold HttpInterfaceServer_init, HttpInterfaceServer_initBindings,
    InterfaceServer_init, initBindings, watchAndLoad.
  rewrite Hf. cbv zeta. rewrite Hfs.
  destruct (c_enabled c && truthy (Some f)); simpl; auto.
Qed.

(** *** updateServerInterface *)

Lemma onMdnsServer_lookup (u : option string) (f : MdnsServer -> MdnsServer)
  (l : Servers) :
  (forall m, mdns_proto (f m) = mdns_proto m) ->
  findServerByGuid u l = Normal None ->
  findServerByGuid u (onMdnsServer f l) = Normal None.
Proof.
  intros Hf. induction l as [|[h|] l IH]; simpl; intros H;
    [reflexivity | | discriminate].
  destruct (hasUuid u h) eqn:E; [discriminate|].
  destruct h as [s|s|s|s|s|s|s|s|s]; simpl; rewrite ?E; auto.
  unfold hasUuid in *. simpl in *. rewrite Hf, E. exact H.
Qed.

Lemma onMdnsServer_same (l : Servers) : onMdnsServer (fun m => m) l = l.
Proof.
  induction l as [|[h|] l IH]; simpl; [reflexivity | | rewrite IH; reflexivity].
  destruct h; try reflexivity; rewrite IH; reflexivity.
Qed.

Lemma discover_proto (q : MdnsQuery) (m : MdnsServer) :
  mdns_proto (fst (discover q m)) = mdns_proto m.
Proof. unfold discover. simpl. destruct (mdns_server m); reflexivity. Qed.

(** [HttpInterfaceServer.init] changes nothing of the registry but the
    pending queries and the listeners of its mDNS server. *)
Lemma HttpInterfaceServer_initBindings_registry (env : Env) (l : Servers) (c : Cfg)
  (s : InterfaceServer) :
  exists f, (forall m, mdns_proto (f m) = mdns_proto m)
            /\ fst (fst (HttpInterfaceServer_initBindings env l c s)) = onMdnsServer f l.
Proof.
  assert (Hid : exists f, (forall m, mdns_proto (f m) = mdns_proto m)
                          /\ l = onMdnsServer f l).
  { exists (fun m => m). split; [reflexivity | symmetry; apply onMdnsServer_same]. }
  unfold HttpInterfaceServer_initBindings.
  destruct (watchAndLoad env c s) as [s1 [|]]; simpl; [|exact Hid].
  destruct (bindings s1) as [b|]; simpl; [|exact Hid].
  destruct (context_mdnsDiscovery b) as [[d|]|]; simpl; try exact Hid.
  destruct (mdnsServer l); simpl; [|exact Hid].
  eexists. split; [|reflexivity]. intros m0. apply discover_proto.
Qed.

Lemma HttpInterfaceServer_init_registry (env : Env) (l : Servers) (c : Cfg)
  (s : InterfaceServer) :
  exists f, (forall m, mdns_proto (f m) = mdns_proto m)
            /\ fst (HttpInterfaceServer_init env l c s) = onMdnsServer f l.
Proof.
  unfold HttpInterfaceServer_init.
  destruct (c_enabled c && truthy (c_fileName c)).
  - match goal with |- context [HttpInterfaceServer_initBindings env l c ?x] =>
      pose proof (HttpInterfaceServer_initBindings_registry env l c x) as H;
      destruct (HttpInterfaceServer_initBindings env l c x) as [[l1 s1] [|]]
    end; exact H.
  - exists (fun m => m). split; [reflexivity | symmetry; apply onMdnsServer_same].
Qed.

(** What [init] of a handle does to the registry. *)
Lemma Handle_init_registry (env : Env) (conf : Config) (l : Servers) (c : Cfg)
  (h : Handle) :
  exists f, (forall m, mdns_proto (f m) = mdns_proto m)
            /\ fst (fst (Handle_init env conf l c h)) = onMdnsServer f l.
Proof.
  assert (Hid : exists f, (forall m, mdns_proto (f m) = mdns_proto m)
                          /\ l = onMdnsServer f l).
  { exists (fun m => m). split; [reflexivity | symmetry; apply onMdnsServer_same]. }
  destruct h as [s|s|s|s|s|s|s|s|s]; simpl; try exact Hid.
  - destruct (HttpServer_init conf c s). exact Hid.
  - destruct (SsdpServer_init env conf c s). exact Hid.
  - pose proof (HttpInterfaceServer_init_registry env l c s) as H.
    destruct (HttpInterfaceServer_init env l c s) as [l' s']. exact H.
Qed.

Lemma Handle_init_lookup (u : option string) (env : Env) (conf : Config)
  (l : Servers) (c : Cfg) (h : Handle) :
  findServerByGuid u l = Normal None ->
  findServerByGuid u (fst (fst (Handle_init env conf l c h))) = Normal None.
Proof.
  intros H. destruct (Handle_init_registry env conf l c h) as (f & Hf & ->).
  apply onMdnsServer_lookup; assumption.
Qed.

(** X20. [updateServerInterface] for an object whose identifier a
    registered handle carries (every entry defined, no two neighbours with
    that identifier). With [obj.enabled] the call is [init(obj)] of the
    handle that was found, run against the stored configuration and the
    registry without that handle: it returns or throws as that [init] does,
    and the handle is not pushed back. Without [obj.enabled] the handle is
    left as it was found and the registry holds the others. In both cases no
    registered handle carries the identifier afterwards. *)
Theorem updateServerInterface_unregisters (env : Env) (obj : Cfg) (w : World)
  (hs : list Handle) (srv : Handle) :
  _servers w = map Some hs ->
  apart (c_uuid obj) hs = true ->
  findServerByGuid (c_uuid obj) (_servers w) = Normal (Some srv) ->
  findServerByGuid (c_uuid obj)
    (_servers (fst (fst (WebServer_updateServerInterface env obj w))))
  = Normal None
  /\ WebServer_updateServerInterface env obj w
     = if c_enabled obj then
         let '(l2, srv', r) :=
           Handle_init env (fst (config_setInterface obj (config w)))
             (map Some (others (c_uuid obj) hs)) obj srv in
         ({| config := fst (config_setInterface obj (config w));
             _servers := l2; uuids := uuids w |}, Some srv', r)
       else
         ({| config := fst (config_setInterface obj (config w));
             _servers := map Some (others (c_uuid obj) hs); uuids := uuids w |},
          Some srv, Normal tt).
Proof.
  intros Hl Hap Hfound. unfold WebServer_updateServerInterface.
  destruct (config_setInterface obj (config w)) as [conf1 int]. cbn [fst].
  rewrite Hfound, Hl.
  rewrite (removeServerByGuid_apart (c_uuid obj) (length hs) hs (le_n _) Hap).
  pose proof (findServerByGuid_others (c_uuid obj) hs) as Hnone.
  destruct (c_enabled obj).
  - pose proof (Handle_init_lookup (c_uuid obj) env conf1
                  (map Some (others (c_uuid obj) hs)) obj srv Hnone) as Hk.
    destruct (Handle_init env conf1 (map Some (others (c_uuid obj) hs)) obj srv)
      as [[l2 srv'] r].
    simpl in *. split; [exact Hk | reflexivity].
  - simpl. split; [exact Hnone | reflexivity].
Qed.

(** *** Discovery: a query and its response *)

Lemma matching_nonempty (pending : list MdnsQuery) (answers : list MdnsAnswer)
  (q : MdnsQuery) :
  In q pending -> answered answers q = true -> matching pending answers <> [].
Proof.
  induction pending as [|p ps IH]; [contradiction|].
  intros Hin Ha. rewrite matching_cons.
  destruct Hin as [-> | Hin].
  - rewrite answered_answersFor in Ha.
    destruct (answersFor answers q); [discriminate | simpl; discriminate].
  - intros H. apply app_eq_nil in H. destruct H as [_ H].
    exact (IH Hin Ha H).
Qed.

(** X21. A query handed to [queryMdns] is pending. While no listener is
    registered on the emitter, the next 'response' packet removes it exactly
    when the packet carries an answer with its name, and every such answer
    is then notified. Once [HttpInterfaceServer.initBindings], the only
    caller of [queryMdns], has queried a running mDNS server and registered
    its listener, no packet removes a query any more: a packet that answers
    the query makes the handler throw, and all queries stay pending. *)
Theorem queryMdns_then_response (q : MdnsQuery) (answers : list MdnsAnswer)
  (s : MdnsServer) :
  In q (mdns_queries (fst (MdnsServer_queryMdns q s)))
  /\ (mdns_listeners s = 0 ->
      snd (MdnsServer_onResponse answers (fst (MdnsServer_queryMdns q s)))
      = Normal tt
      /\ (In q (mdns_queries (fst (fst (MdnsServer_onResponse answers
                                          (fst (MdnsServer_queryMdns q s))))))
          <-> answered answers q = false)
      /\ incl (answersFor answers q)
              (snd (fst (MdnsServer_onResponse answers
                           (fst (MdnsServer_queryMdns q s))))))
  /\ (mdns_server s = true ->
      mdns_queries (fst (fst (MdnsServer_onResponse answers (fst (discover q s)))))
      = mdns_queries s ++ [q]
      /\ (answered answers q = true ->
          snd (MdnsServer_onResponse answers (fst (discover q s)))
          = Throw invalidUrl)).
Proof.
  split; [simpl; apply in_or_app; right; now left|]. split.
  - intros Hl. unfold MdnsServer_onResponse, MdnsServer_queryMdns. simpl.
    rewrite Hl. split; [apply onResponse_returns|]. split.
    + rewrite onResponse_queries, filter_In, negb_true_iff.
      split; [intros [_ H]; exact H | intros H; split; [|exact H]].
      apply in_or_app. right. now left.
    + unfold onResponse. rewrite fold_queries. simpl.
      rewrite flat_map_app. simpl. rewrite app_nil_r.
      apply incl_appr, incl_refl.
  - intros Hs. unfold MdnsServer_onResponse, discover, MdnsServer_queryMdns.
    rewrite Hs. simpl. rewrite onResponse_listener.
    pose proof (matching_nonempty (mdns_queries s ++ [q]) answers q) as Hm.
    destruct (matching (mdns_queries s ++ [q]) answers) as [|[q0 a] rest];
      simpl; (split; [reflexivity|]); intros Ha; [|reflexivity].
    exfalso. apply Hm; [apply in_or_app; right; now left | exact Ha | reflexivity].
Qed.

(** *** The order of the handshake *)

Lemma reject_not_resolved (reason : string) (p : Promise) :
  reject reason p = Resolved -> p = Resolved.
Proof. destruct p; simpl; intros H; [discriminate | reflexivity | discriminate]. Qed.

Lemma catchInSettle_fields (h : Handshake) :
  stage (catchInSettle h) = Finished
  /\ requests (catchInSettle h) = requests h
  /\ listening (catchInSettle h) = listening h
  /\ (promise (catchInSettle h) = Resolved -> promise h = Resolved).
Proof.
  unfold catchInSettle. break_match; simpl; repeat split; auto.
  apply reject_not_resolved.
Qed.

Lemma onInitTimer_inSequence (conf : Config) (h : Handshake) :
  stage h = Scheduled -> inSequence h -> inSequence (onInitTimer conf h).
Proof.
  intros Es (Ha & Hb & Hc). rewrite Es in Ha.
  assert (Hp : promise h <> Resolved).
  { intros H. apply Hb in H. rewrite Ha in H. discriminate. }
  assert (Hl : listening h <> true).
  { intros H. apply Hc in H. rewrite Ha in H. discriminate. }
  unfold onInitTimer, inSequence.
  destruct (lookup "http" (servers conf)); simpl; rewrite Ha; simpl;
    (split; [auto | split; intros H; contradiction]).
Qed.

Lemma onPhase1Returns_inSequence (x : HttpExchange) (s : REMInterfaceServer)
  (h : Handshake) :
  stage h = Phase1 -> inSequence h -> inSequence (snd (onPhase1Returns x s h)).
Proof.
  intros Es (Ha & Hb & Hc). rewrite Es in Ha.
  assert (Hp : promise h <> Resolved).
  { intros H. apply Hb in H. rewrite Ha in H. discriminate. }
  assert (Hl : listening h <> true).
  { intros H. apply Hc in H. rewrite Ha in H. discriminate. }
  unfold onPhase1Returns.
  repeat (break_match; simpl); unfold inSequence; simpl; rewrite Ha;
    (split; [auto | split; intros H; try apply reject_not_resolved in H;
                    contradiction]).
Qed.

Lemma onSettleTimer_inSequence (l : Servers) (h : Handshake) :
  stage h = Settling -> inSequence h -> inSequence (onSettleTimer l h).
Proof.
  intros Es (Ha & Hb & Hc). rewrite Es in Ha.
  assert (Hp : promise h <> Resolved).
  { intros H. apply Hb in H. rewrite Ha in H. discriminate. }
  assert (Hl : listening h <> true).
  { intros H. apply Hc in H. rewrite Ha in H. discriminate. }
  assert (Hcatch : forall armed,
             requests armed = requests h -> listening armed = listening h ->
             promise armed = promise h -> inSequence (catchInSettle armed)).
  { intros armed Hr Hl' Hp'.
    destruct (catchInSettle_fields armed) as (Hs & Hr2 & Hl2 & Hp2).
    unfold inSequence. rewrite Hs, Hr2, Hl2, Hr, Hl', Ha.
    split; [auto | split; intros H; [apply Hp2 in H; rewrite Hp' in H|];
                   contradiction]. }
  unfold onSettleTimer.
  repeat (break_match; simpl); try (apply Hcatch; reflexivity).
  unfold inSequence. simpl. rewrite Ha. simpl. auto.
Qed.

Lemma onCheckEmit_inSequence (h : Handshake) :
  listening h = true -> inSequence h -> inSequence (onCheckEmit h).
Proof.
  intros El (Ha & Hb & Hc). specialize (Hc El).
  unfold inSequence, onCheckEmit. simpl.
  split; [exact Ha | split; [intros _; exact Hc | discriminate]].
Qed.

Lemma onPhase2Returns_inSequence (x : HttpExchange) (s : REMInterfaceServer)
  (h : Handshake) :
  stage h = Phase2 -> inSequence h -> inSequence (onPhase2Returns x s h).
Proof.
  intros Es (Ha & Hb & Hc). rewrite Es in Ha.
  assert (Hcatch : forall h1,
             requests h1 = requests h -> inSequence (catchInSettle h1)).
  { intros h1 Hr.
    destruct (catchInSettle_fields h1) as (Hs & Hr' & _ & _).
    unfold inSequence. rewrite Hs, Hr', Hr, Ha. auto. }
  unfold onPhase2Returns.
  repeat (break_match; simpl); try (apply Hcatch; reflexivity);
    unfold inSequence; simpl; rewrite Ha; auto.
Qed.

Lemma onDeadlineTimer_inSequence (h : Handshake) :
  inSequence h -> inSequence (onDeadlineTimer h).
Proof.
  intros (Ha & Hb & Hc). unfold inSequence, onDeadlineTimer. simpl.
  split; [exact Ha | split; [|exact Hc]].
  intros H. apply reject_not_resolved in H. auto.
Qed.

Lemma step_inSequence (conf : Config) (l : Servers) (ev : HandshakeEvent)
  (s : REMInterfaceServer) (h : Handshake) :
  inSequence h -> inSequence (snd (step conf l ev (s, h))).
Proof.
  intros Hinv. unfold step.
  destruct ev; destruct (stage h) eqn:Es; simpl; try exact Hinv;
    try (destruct (listening h) eqn:El; simpl;
         [apply onCheckEmit_inSequence; assumption | exact Hinv]);
    try (destruct (_tmr h); simpl;
         [apply onDeadlineTimer_inSequence; assumption | exact Hinv]).
  - apply onInitTimer_inSequence; assumption.
  - apply onPhase1Returns_inSequence; assumption.
  - apply onSettleTimer_inSequence; assumption.
  - apply onPhase2Returns_inSequence; assumption.
Qed.

Lemma run_inSequence (conf : Config) (l : Servers) (evs : list HandshakeEvent) :
  forall s h, inSequence h -> inSequence (snd (run conf l evs (s, h))).
Proof.
  induction evs as [|ev evs IH]; intros s h H; [exact H|].
  rewrite run_cons.
  pose proof (step_inSequence conf l ev s h H) as Hs.
  destruct (step conf l ev (s, h)) as [s1 h1]. apply IH. exact Hs.
Qed.

(** X22. In every run of [initConnection], whatever the events and their
    order, the registration request is sent at most once and first, the
    verification request at most once and after it, and the promise is
    resolved only in a run that has sent both. *)
Theorem handshake_requests_in_order (conf : Config) (l : Servers)
  (evs : list HandshakeEvent) (s : REMInterfaceServer) :
  (requests (snd (run conf l evs (s, scheduled))) = []
   \/ requests (snd (run conf l evs (s, scheduled))) = ["/config/checkconnection/"]
   \/ requests (snd (run conf l evs (s, scheduled)))
      = ["/config/checkconnection/"; "/config/checkemit"])
  /\ (promise (snd (run conf l evs (s, scheduled))) = Resolved ->
      requests (snd (run conf l evs (s, scheduled)))
      = ["/config/checkconnection/"; "/config/checkemit"]).
Proof.
  assert (H0 : inSequence scheduled).
  { unfold inSequence. simpl. repeat split; auto; discriminate. }
  pose proof (run_inSequence conf l evs s scheduled H0) as (Ha & Hb & _).
  split; [|exact Hb].
  destruct (stage (snd (run conf l evs (s, scheduled)))); auto.
Qed.

Lemma catchInSettle_unverified (h : Handshake) :
  listening h = false -> promise h <> Resolved ->
  ~ In "/config/checkemit" (requests h) -> unverified (catchInSettle h).
Proof.
  intros Hl Hp Hr.
  destruct (catchInSettle_fields h) as (Hs & Hr' & Hl' & Hp').
  unfold unverified. rewrite Hs, Hr', Hl'.
  repeat split; auto; discriminate.
Qed.

Lemma step_unverified (conf : Config) (l : Servers) (ev : HandshakeEvent)
  (s : REMInterfaceServer) (h : Handshake) :
  canListen l = false -> unverified h -> unverified (snd (step conf l ev (s, h))).
Proof.
  intros Hcan Hinv. pose proof Hinv as (Hs & Hl & Hp & Hr). unfold step.
  destruct ev; destruct (stage h) eqn:Es; simpl; try exact Hinv;
    try (rewrite Hl; exact Hinv); try congruence;
    try (destruct (_tmr h); simpl; [|exact Hinv];
         unfold unverified, onDeadlineTimer; simpl; rewrite Es;
         repeat split; auto; try discriminate;
         intros H; apply reject_not_resolved in H; contradiction).
  - unfold onInitTimer, unverified.
    destruct (lookup "http" (servers conf)); simpl; repeat split; auto;
      try discriminate.
    intros H. apply in_app_or in H. destruct H as [H | [H | []]];
      [contradiction | discriminate].
  - unfold onPhase1Returns, unverified.
    repeat (break_match; simpl); repeat split; auto; try discriminate.
    intros H. apply reject_not_resolved in H. contradiction.
  - unfold onSettleTimer. unfold canListen in Hcan.
    destruct (findServer "http" l) as [srv|e];
      [destruct (addListenerOnce srv); [discriminate|]|];
      apply catchInSettle_unverified; assumption.
Qed.

Lemma run_unverified (conf : Config) (l : Servers) (evs : list HandshakeEvent) :
  canListen l = false ->
  forall s h, unverified h -> unverified (snd (run conf l evs (s, h))).
Proof.
  intros Hcan. induction evs as [|ev evs IH]; intros s h H; [exact H|].
  rewrite run_cons.
  pose proof (step_unverified conf l ev s h Hcan H) as Hs.
  destruct (step conf l ev (s, h)) as [s1 h1]. apply IH. exact Hs.
Qed.

(** X23. When the registry holds no server named 'http' with a socket
    server to listen on, no run of [initConnection] ever sends the
    verification request, registers the listener or resolves the promise,
    whatever the peer answers. *)
Theorem no_listener_no_connection (conf : Config) (l : Servers)
  (evs : list HandshakeEvent) (s : REMInterfaceServer) :
  canListen l = false ->
  promise (snd (run conf l evs (s, scheduled))) <> Resolved
  /\ listening (snd (run conf l evs (s, scheduled))) = false
  /\ ~ In "/config/checkemit" (requests (snd (run conf l evs (s, scheduled)))).
Proof.
  intros Hcan.
  assert (H0 : unverified scheduled).
  { unfold unverified. simpl. repeat split; auto; discriminate. }
  destruct (run_unverified conf l evs Hcan s scheduled H0) as (_ & Hl & Hp & Hr).
  auto.
Qed.

(** *** The rounds of init *)

Lemma registered_app (l1 l2 : Servers) :
  registered (l1 ++ l2) = registered l1 ++ registered l2.
Proof.
  induction l1 as [|[h|] l1 IH]; simpl; [reflexivity | rewrite IH; reflexivity | exact IH].
Qed.

Lemma names_push (l : Servers) (h : Handle) :
  names (l ++ [Some h]) = names l ++ [name (proto h)].
Proof. unfold names. rewrite registered_app, map_app. reflexivity. Qed.

Lemma names_onMdnsServer (f : MdnsServer -> MdnsServer) (l : Servers) :
  (forall m, mdns_proto (f m) = mdns_proto m) ->
  names (onMdnsServer f l) = names l.
Proof.
  intros Hf. unfold names.
  induction l as [|[h|] l IH]; simpl; [reflexivity | | exact IH].
  destruct h; simpl; try (rewrite IH; reflexivity).
  rewrite Hf. reflexivity.
Qed.

Lemma Handle_init_names (env : Env) (conf : Config) (l : Servers) (c : Cfg)
  (h : Handle) :
  names (fst (fst (Handle_init env conf l c h))) = names l.
Proof.
  destruct (Handle_init_registry env conf l c h) as (f & Hf & ->).
  apply names_onMdnsServer. exact Hf.
Qed.

Lemma HttpServer_init_name (conf : Config) (c : Cfg) (s : HttpServer) :
  name (http_proto (fst (HttpServer_init conf c s))) = name (http_proto s).
Proof.
  unfold HttpServer_init. repeat (break_match; simpl); reflexivity.
Qed.

Lemma SsdpServer_init_name (env : Env) (conf : Config) (c : Cfg) (s : SsdpServer) :
  name (ssdp_proto (fst (SsdpServer_init env conf c s))) = name (ssdp_proto s).
Proof.
  unfold SsdpServer_init. repeat (break_match; simpl); reflexivity.
Qed.

Lemma Handle_init_name (env : Env) (conf : Config) (l : Servers) (c : Cfg)
  (h : Handle) :
  name (proto (snd (fst (Handle_init env conf l c h)))) = name (proto h).
Proof.
  destruct h as [s|s|s|s|s|s|s|s|s]; simpl.
  - pose proof (HttpServer_init_name conf c s) as H.
    destruct (HttpServer_init conf c s). exact H.
  - reflexivity.
  - unfold HttpsServer_init. repeat (break_match; simpl); reflexivity.
  - unfold MdnsServer_init. repeat (break_match; simpl); reflexivity.
  - pose proof (SsdpServer_init_name env conf c s) as H.
    destruct (SsdpServer_init env conf c s). exact H.
  - pose proof (HttpInterfaceServer_init_proto env l c s) as [_ H].
    destruct (HttpInterfaceServer_init env l c s). exact H.
  - apply InterfaceServer_init_proto.
  - apply InterfaceServer_init_proto.
  - unfold REMInterfaceServer_init, REMInterfaceServer_initSockets.
    repeat (break_match; simpl); reflexivity.
Qed.

Lemma newServer_name (s : string) (h : Handle) :
  newServer s = Some h -> name (proto h) = s.
Proof.
  unfold newServer. repeat break_match; intros H; try discriminate;
    injection H as <-; reflexivity.
Qed.

Lemma newInterface_name (t n : string) (h : Handle) :
  newInterface t n = Some h -> name (proto h) = n.
Proof.
  unfold newInterface. repeat break_match; intros H; try discriminate;
    injection H as <-; reflexivity.
Qed.

Lemma newInterface_returns (env : Env) (conf : Config) (l : Servers) (c : Cfg)
  (t n : string) (h : Handle) :
  newInterface t n = Some h -> snd (Handle_init env conf l c h) = Normal tt.
Proof.
  unfold newInterface. repeat break_match; intros H; try discriminate;
    injection H as <-; simpl; try reflexivity.
  destruct (HttpInterfaceServer_init env l c _). reflexivity.
Qed.

Lemma assignUuid_fields (store : string -> Cfg -> Config -> Config) (key : string)
  (c : Cfg) (w : World) :
  c_name (fst (assignUuid store key c w)) = c_name c
  /\ c_type (fst (assignUuid store key c w)) = c_type c
  /\ c_httpsRedirect (fst (assignUuid store key c w)) = c_httpsRedirect c
  /\ c_port (fst (assignUuid store key c w)) = c_port c.
Proof. unfold assignUuid. destruct (c_uuid c); simpl; auto. Qed.

Lemma initServer_names (env : Env) (w : World) (s : string) (c : Cfg) :
  names (_servers (fst (initServer env w s c)))
  = names (_servers w) ++ (if isServerKey s then [s] else []).
Proof.
  unfold initServer, isServerKey.
  pose proof (assignUuid_entry setServer s c w) as (_ & _ & _ & Hl).
  destruct (assignUuid setServer s c w) as [c1 w1]. simpl in Hl.
  destruct (newServer s) as [srv|] eqn:E; simpl;
    [|rewrite Hl, app_nil_r; reflexivity].
  pose proof (Handle_init_names env (config w1) (_servers w1) c1 srv) as Hn.
  pose proof (Handle_init_name env (config w1) (_servers w1) c1 srv) as Hm.
  destruct (Handle_init env (config w1) (_servers w1) c1 srv) as [[l srv'] r].
  simpl in *. rewrite names_push, Hn, Hm, Hl, (newServer_name s srv E).
  reflexivity.
Qed.

Lemma initInterface_returns (env : Env) (w : World) (s : string) (c : Cfg) :
  snd (initInterface env w s c) = Normal tt.
Proof.
  unfold initInterface.
  destruct (assignUuid setInterface s c w) as [c1 w1].
  destruct (negb (c_enabled c1)); [reflexivity|].
  match goal with |- context [newInterface ?t ?n] =>
    destruct (newInterface t n) as [int|] eqn:E end; [|reflexivity].
  pose proof (newInterface_returns env (config w1) (_servers w1) c1 _ _ int E) as Hr.
  destruct (Handle_init env (config w1) (_servers w1) c1 int) as [[l int'] r].
  simpl in Hr. subst r. reflexivity.
Qed.

Lemma initInterface_names (env : Env) (w : World) (s : string) (c : Cfg) :
  names (_servers (fst (initInterface env w s c)))
  = names (_servers w) ++ (if startsInterface c then [c_name c] else []).
Proof.
  unfold initInterface, startsInterface, interfaceType.
  pose proof (assignUuid_entry setInterface s c w) as (_ & Hen & _ & Hl).
  pose proof (assignUuid_fields setInterface s c w) as (Hname & Htype & _ & _).
  destruct (assignUuid setInterface s c w) as [c1 w1]. simpl in *.
  rewrite Hen, Hname, Htype.
  destruct (c_enabled c); simpl; [|rewrite Hl, app_nil_r; reflexivity].
  match goal with |- context [newInterface ?t ?n] =>
    destruct (newInterface t n) as [int|] eqn:E end;
    [|simpl; rewrite Hl, app_nil_r; reflexivity].
  pose proof (newInterface_returns env (config w1) (_servers w1) c1 _ _ int E) as Hr.
  pose proof (Handle_init_names env (config w1) (_servers w1) c1 int) as Hn.
  pose proof (Handle_init_name env (config w1) (_servers w1) c1 int) as Hm.
  destruct (Handle_init env (config w1) (_servers w1) c1 int) as [[l int'] r].
  simpl in *. subst r. simpl.
  rewrite names_push, Hn, Hm, Hl, (newInterface_name _ _ int E). reflexivity.
Qed.

Lemma forIn_names (body : World -> string -> Cfg -> World * Completion unit)
  (g : string -> Cfg -> list string) :
  (forall w s c, names (_servers (fst (body w s c))) = names (_servers w) ++ g s c) ->
  forall entries w,
    snd (forIn body entries w) = Normal tt ->
    names (_servers (fst (forIn body entries w)))
    = names (_servers w) ++ flat_map (fun e => g (fst e) (snd e)) entries.
Proof.
  intros Hbody. induction entries as [|[s c] entries IH]; intros w Hr; simpl.
  - rewrite app_nil_r. reflexivity.
  - simpl in Hr. specialize (Hbody w s c).
    destruct (body w s c) as [w' [[]|e]]; simpl in *; [|discriminate].
    rewrite (IH w' Hr), Hbody, app_assoc. reflexivity.
Qed.

Lemma forIn_returns (body : World -> string -> Cfg -> World * Completion unit) :
  (forall w s c, snd (body w s c) = Normal tt) ->
  forall entries w, snd (forIn body entries w) = Normal tt.
Proof.
  intros Hbody. induction entries as [|[s c] entries IH]; intros w; simpl;
    [reflexivity|].
  specialize (Hbody w s c).
  destruct (body w s c) as [w' [[]|e]]; simpl in *; [apply IH | discriminate].
Qed.

Lemma serverKeys_filter (sec : Section_) :
  flat_map (fun e => if isServerKey (fst e) then [fst e] else []) sec
  = filter isServerKey (keys sec).
Proof.
  induction sec as [|[s c] sec IH]; simpl; [reflexivity|].
  destruct (isServerKey s); simpl; rewrite IH; reflexivity.
Qed.

Lemma interfaceNames_filter (sec : Section_) :
  flat_map (fun e => if startsInterface (snd e) then [c_name (snd e)] else []) sec
  = map c_name (filter startsInterface (map snd sec)).
Proof.
  induction sec as [|[s c] sec IH]; simpl; [reflexivity|].
  destruct (startsInterface c); simpl; rewrite IH; reflexivity.
Qed.

Lemma WebServer_init_names (env : Env) (w w' : World) :
  WebServer_init env w = (w', Normal tt) ->
  names (_servers w') = names (_servers w) ++ namesAfterInit (config w).
Proof.
  unfold WebServer_init, WebServer_initInterfaces, namesAfterInit. intros H.
  pose proof (forIn_names (initServer env) _ (initServer_names env)
                (servers (config w)) w) as Hs.
  destruct (forIn (initServer env) (servers (config w)) w) as [w1 [[]|e]];
    [|discriminate].
  specialize (Hs eq_refl). simpl in Hs.
  pose proof (forIn_names (initInterface env) _ (initInterface_names env)
                (interfaces (config w)) w1) as Hi.
  rewrite H in Hi. specialize (Hi eq_refl). simpl in Hi.
  rewrite Hi, Hs, serverKeys_filter, interfaceNames_filter, app_assoc.
  reflexivity.
Qed.








(** *** Registration with the peer *)

(** X26. The first request of [initConnection] is taken as accepted, and
    the run goes on to the verification, exactly when the peer answers with
    status 200 and a body that parses to something other than [null]; the
    connection id the bridge then stores is the [id] property of that body,
    undefined when the body has none. *)
Theorem registration_accepted_exactly_when (x : HttpExchange)
  (s : REMInterfaceServer) (h : Handshake) :
  (stage (snd (onPhase1Returns x s h)) = Settling
   <-> exists msg j, x = Response 200 msg (Some j) /\ j <> JNull)
  /\ (forall msg props,
         x = Response 200 msg (Some (JObject props)) ->
         remoteConnectionId (rem_proto (fst (onPhase1Returns x s h)))
         = assoc "id" props).
Proof.
  split.
  - split.
    + unfold onPhase1Returns, obj_id, error_message.
      destruct x as [|code msg parsed|m]; simpl.
      * intros H. discriminate.
      * destruct (200 <? code)%Z eqn:E1; simpl; rewrite ?E1; simpl.
        { destruct parsed as [[|t|props]|]; simpl; intros H; discriminate. }
        destruct (code <? 0)%Z eqn:E2; simpl; rewrite ?E2; simpl;
          [intros H; discriminate|].
        destruct (code =? 200)%Z eqn:E3; simpl; [|intros H; discriminate].
        apply Z.eqb_eq in E3. subst code.
        destruct parsed as [[|t|props]|]; simpl; intros H; try discriminate;
          eexists; eexists; (split; [reflexivity | discriminate]).
      * intros H. discriminate.
    + intros (msg & j & -> & Hj).
      destruct j as [|t|props]; [contradiction | reflexivity | reflexivity].
  - intros msg props ->. reflexivity.
Qed.

(** *** Lookups after init *)

Lemma onMdnsServer_defined (f : MdnsServer -> MdnsServer) (l : Servers) :
  defined l -> defined (onMdnsServer f l).
Proof.
  unfold defined. induction 1 as [|[h|] l Hx Hl IH]; simpl.
  - constructor.
  - destruct h; constructor; try discriminate; assumption.
  - contradiction.
Qed.

Lemma push_defined (l : Servers) (h : Handle) :
  defined l -> defined (l ++ [Some h]).
Proof.
  unfold defined. intros H. apply Forall_app. split; [exact H|].
  constructor; [discriminate | constructor].
Qed.

Lemma Handle_init_defined (env : Env) (conf : Config) (l : Servers) (c : Cfg)
  (h : Handle) :
  defined l -> defined (fst (fst (Handle_init env conf l c h))).
Proof.
  intros H. destruct (Handle_init_registry env conf l c h) as (f & _ & ->).
  apply onMdnsServer_defined. exact H.
Qed.

Lemma initServer_defined (env : Env) (w : World) (s : string) (c : Cfg) :
  defined (_servers w) -> defined (_servers (fst (initServer env w s c))).
Proof.
  unfold initServer.
  pose proof (assignUuid_entry setServer s c w) as (_ & _ & _ & Hl).
  destruct (assignUuid setServer s c w) as [c1 w1]. simpl in Hl.
  rewrite <- Hl. intros H.
  destruct (newServer s) as [srv|]; [|exact H].
  pose proof (Handle_init_defined env (config w1) (_servers w1) c1 srv H) as Hd.
  destruct (Handle_init env (config w1) (_servers w1) c1 srv) as [[l srv'] r].
  simpl in *. apply push_defined. exact Hd.
Qed.

Lemma initInterface_defined (env : Env) (w : World) (s : string) (c : Cfg) :
  defined (_servers w) -> defined (_servers (fst (initInterface env w s c))).
Proof.
  unfold initInterface.
  pose proof (assignUuid_entry setInterface s c w) as (_ & _ & _ & Hl).
  destruct (assignUuid setInterface s c w) as [c1 w1]. simpl in Hl.
  rewrite <- Hl. intros H.
  destruct (negb (c_enabled c1)); [exact H|].
  break_match; [|exact H].
  pose proof (Handle_init_defined env (config w1) (_servers w1) c1 h H) as Hd.
  destruct (Handle_init env (config w1) (_servers w1) c1 h) as [[l int'] [[]|e]];
    simpl in *; [apply push_defined|]; exact Hd.
Qed.

Lemma WebServer_init_defined (env : Env) (w : World) :
  defined (_servers w) -> defined (_servers (fst (WebServer_init env w))).
Proof.
  intros H. unfold WebServer_init, WebServer_initInterfaces.
  pose proof (forIn_preserves (initServer env)
                (fun w => defined (_servers w)) (fun _ _ => True)
                (servers (config w))
                (fun w0 s c _ => initServer_defined env w0 s c)) as Hs.
  specialize (Hs (proj2 (Forall_forall _ _) (fun _ _ => I)) w H).
  destruct (forIn (initServer env) (servers (config w)) w) as [w1 [[]|e]];
    simpl in *; [|exact Hs].
  apply (forIn_preserves (initInterface env)
           (fun w => defined (_servers w)) (fun _ _ => True)
           (interfaces (config w))
           (fun w0 s c _ => initInterface_defined env w0 s c)
           (proj2 (Forall_forall _ _) (fun _ _ => I)) w1 Hs).
Qed.

Lemma findServer_named (n : string) (l : Servers) :
  defined l -> In n (names l) ->
  exists h, findServer n l = Normal (Some h) /\ name (proto h) = n.
Proof.
  unfold defined, names. induction 1 as [|[h|] l Hx Hl IH]; simpl;
    [contradiction | | contradiction].
  intros Hin. destruct (String.eqb_spec (name (proto h)) n) as [E | N].
  - exists h. auto.
  - destruct Hin as [E | Hin]; [contradiction | apply IH, Hin].
Qed.

(** X27. After [WebServer.init] has returned on a registry without
    undefined entries, [findServer] finds a handle of that name for every key
    of [web.servers] that has a class and for the name of every enabled
    interface whose type has one. *)
Theorem init_then_findServer (env : Env) (w w' : World) (n : string) :
  defined (_servers w) ->
  WebServer_init env w = (w', Normal tt) ->
  In n (namesAfterInit (config w)) ->
  exists h, findServer n (_servers w') = Normal (Some h) /\ name (proto h) = n.
Proof.
  intros Hd Hinit Hn.
  pose proof (WebServer_init_defined env w Hd) as Hd'.
  rewrite Hinit in Hd'. simpl in Hd'.
  apply findServer_named; [exact Hd'|].
  rewrite (WebServer_init_names env w w' Hinit).
  apply in_or_app. right. exact Hn.
Qed.

(** *** Identifiers through the two loops *)

Lemma assignUuid_fst (store : string -> Cfg -> Config -> Config) (key : string)
  (c : Cfg) (w : World) :
  fst (assignUuid store key c w) = entryAfter w c.
Proof. unfold assignUuid, entryAfter. destruct (c_uuid c); reflexivity. Qed.

Lemma entryAfter_kept (w : World) (s : string) (c : Cfg) :
  kept (s, c) (s, entryAfter w c).
Proof.
  unfold kept, entryAfter. simpl. split; [reflexivity|].
  destruct (c_uuid c); [reflexivity | intros H; now destruct H].
Qed.

Lemma kept_refl (sec : Section_) : Forall2 kept sec sec.
Proof.
  induction sec as [|e sec IH]; constructor; [|exact IH].
  split; reflexivity.
Qed.

Lemma setKey_split (s : string) (c c' : Cfg) (done rest : Section_) :
  ~ In s (keys done) ->
  setKey s c' (done ++ (s, c) :: rest) = done ++ (s, c') :: rest.
Proof.
  induction done as [|[k c0] done IH]; simpl; intros H.
  - rewrite String.eqb_refl. reflexivity.
  - destruct (String.eqb_spec k s) as [-> | N]; [exfalso; apply H; now left|].
    rewrite IH; [reflexivity|]. intros Hin. apply H. now right.
Qed.

Lemma ids_push (l : Servers) (h : Handle) :
  ids (l ++ [Some h]) = ids l ++ [(name (proto h), uuid (proto h))].
Proof. unfold ids. rewrite registered_app, map_app. reflexivity. Qed.

Lemma ids_onMdnsServer (f : MdnsServer -> MdnsServer) (l : Servers) :
  (forall m, mdns_proto (f m) = mdns_proto m) ->
  ids (onMdnsServer f l) = ids l.
Proof.
  intros Hf. unfold ids.
  induction l as [|[h|] l IH]; simpl; [reflexivity | | exact IH].
  destruct h; simpl; try (rewrite IH; reflexivity).
  rewrite Hf. reflexivity.
Qed.

Lemma Handle_init_ids (env : Env) (conf : Config) (l : Servers) (c : Cfg)
  (h : Handle) :
  ids (fst (fst (Handle_init env conf l c h))) = ids l.
Proof.
  destruct (Handle_init_registry env conf l c h) as (f & Hf & ->).
  apply ids_onMdnsServer. exact Hf.
Qed.

Lemma newServer_classForKey (s : string) :
  match newServer s with
  | Some h => classForKey s = Some (classOf h)
  | None => classForKey s = None
  end.
Proof.
  unfold newServer, classForKey.
  repeat match goal with
         | |- context [String.eqb s ?k] => destruct (String.eqb s k)
         end; reflexivity.
Qed.

(** What a round of [init] does to [web.servers] and to the registry. *)
Lemma initServer_section (env : Env) (w : World) (s : string) (c : Cfg)
  (done rest : Section_) :
  servers (config w) = done ++ (s, c) :: rest -> ~ In s (keys done) ->
  servers (config (fst (initServer env w s c)))
  = done ++ (s, entryAfter w c) :: rest.
Proof.
  intros Hsec Hs. rewrite initServer_config. unfold persisted, entryAfter.
  destruct (c_uuid c); [exact Hsec|]. simpl. rewrite Hsec.
  apply setKey_split. exact Hs.
Qed.

Lemma initServer_ids (env : Env) (w : World) (s : string) (c : Cfg) :
  ids (_servers (fst (initServer env w s c)))
  = ids (_servers w) ++ serverIds [(s, entryAfter w c)].
Proof.
  unfold initServer, serverIds. simpl. rewrite app_nil_r.
  pose proof (assignUuid_entry setServer s c w) as (_ & _ & _ & Hl).
  pose proof (assignUuid_fst setServer s c w) as Hc.
  destruct (assignUuid setServer s c w) as [c1 w1]. simpl in Hl, Hc. subst c1.
  pose proof (newServer_classForKey s) as Hk.
  destruct (newServer s) as [srv|] eqn:E; rewrite Hk;
    [|simpl; rewrite Hl, app_nil_r; reflexivity].
  pose proof (Handle_init_ids env (config w1) (_servers w1) (entryAfter w c) srv) as Hn.
  pose proof (Handle_init_name env (config w1) (_servers w1) (entryAfter w c) srv) as Hm.
  pose proof (Handle_init_uuid env (config w1) (_servers w1) (entryAfter w c) srv) as Hu.
  destruct (Handle_init env (config w1) (_servers w1) (entryAfter w c) srv)
    as [[l srv'] r].
  simpl in *. rewrite ids_push, Hn, Hm, Hu, Hl, (newServer_name s srv E).
  reflexivity.
Qed.

(** The same for a round of [initInterfaces]. *)
Lemma initInterface_section (env : Env) (w : World) (s : string) (c : Cfg)
  (done rest : Section_) :
  interfaces (config w) = done ++ (s, c) :: rest -> ~ In s (keys done) ->
  interfaces (config (fst (initInterface env w s c)))
  = done ++ (s, entryAfter w c) :: rest.
Proof.
  intros Hsec Hs. rewrite initInterface_config. unfold persisted, entryAfter.
  destruct (c_uuid c); [exact Hsec|]. simpl. rewrite Hsec.
  apply setKey_split. exact Hs.
Qed.

Lemma initInterface_ids (env : Env) (w : World) (s : string) (c : Cfg) :
  ids (_servers (fst (initInterface env w s c)))
  = ids (_servers w) ++ interfaceIds [(s, entryAfter w c)].
Proof.
  unfold initInterface, interfaceIds, startsInterface, interfaceType. simpl.
  rewrite app_nil_r.
  pose proof (assignUuid_entry setInterface s c w) as (_ & _ & _ & Hl).
  pose proof (assignUuid_fst setInterface s c w) as Hc.
  destruct (assignUuid setInterface s c w) as [c1 w1]. simpl in Hl, Hc. subst c1.
  destruct (c_enabled (entryAfter w c)); simpl;
    [|rewrite Hl, app_nil_r; reflexivity].
  match goal with |- context [newInterface ?t ?n] =>
    destruct (newInterface t n) as [int|] eqn:E end;
    [|simpl; rewrite Hl, app_nil_r; reflexivity].
  pose proof (newInterface_returns env (config w1) (_servers w1) (entryAfter w c)
                _ _ int E) as Hr.
  pose proof (Handle_init_ids env (config w1) (_servers w1) (entryAfter w c) int) as Hn.
  pose proof (Handle_init_name env (config w1) (_servers w1) (entryAfter w c) int) as Hm.
  pose proof (Handle_init_uuid env (config w1) (_servers w1) (entryAfter w c) int) as Hu.
  destruct (Handle_init env (config w1) (_servers w1) (entryAfter w c) int)
    as [[l int'] r].
  simpl in *. subst r. simpl.
  rewrite ids_push, Hn, Hm, Hu, Hl, (newInterface_name _ _ int E). reflexivity.
Qed.

(** A loop over the entries [rest] of a section of the store, the entries
    [done] before them having had their round. *)
Lemma forIn_sections (body : World -> string -> Cfg -> World * Completion unit)
  (sec : Config -> Section_) (idsOf : Section_ -> list (string * option string)) :
  (forall a b, idsOf (a ++ b) = idsOf a ++ idsOf b) ->
  (forall w s c done rest,
      sec (config w) = done ++ (s, c) :: rest -> ~ In s (keys done) ->
      sec (config (fst (body w s c))) = done ++ (s, entryAfter w c) :: rest
      /\ ids (_servers (fst (body w s c)))
         = ids (_servers w) ++ idsOf [(s, entryAfter w c)]) ->
  forall rest done w,
    sec (config w) = done ++ rest -> NoDup (keys (done ++ rest)) ->
    exists done2 rest2,
      sec (config (fst (forIn body rest w))) = done ++ done2 ++ rest2
      /\ ids (_servers (fst (forIn body rest w))) = ids (_servers w) ++ idsOf done2
      /\ Forall2 kept rest (done2 ++ rest2)
      /\ (snd (forIn body rest w) = Normal tt -> rest2 = []).
Proof.
  intros Happ Hround.
  assert (Hnil : idsOf [] = []).
  { pose proof (Happ [] []) as H. simpl in H.
    destruct (idsOf []); [reflexivity | simpl in H].
    apply (f_equal (@length _)) in H. simpl in H. rewrite length_app in H.
    simpl in H. lia. }
  induction rest as [|[s c] rest IH]; intros done w Hsec Hnd; simpl.
  - exists [], []. rewrite Hnil, !app_nil_r. rewrite app_nil_r in Hsec.
    repeat split; auto; constructor.
  - assert (Hs : ~ In s (keys done)).
    { unfold keys in *. rewrite map_app in Hnd. simpl in Hnd.
      apply NoDup_remove_2 in Hnd. intros H. apply Hnd.
      apply in_or_app. now left. }
    destruct (Hround w s c done rest Hsec Hs) as [Hsec1 Hids1].
    destruct (body w s c) as [w1 [[]|e]] eqn:Eb; simpl in *.
    + destruct (IH (done ++ [(s, entryAfter w c)]) w1) as
        (done2 & rest2 & Hsec2 & Hids2 & Hkept & Hnorm).
      { rewrite Hsec1, <- app_assoc. reflexivity. }
      { unfold keys in *. rewrite <- app_assoc. simpl.
        rewrite map_app in *. simpl in *. exact Hnd. }
      exists ((s, entryAfter w c) :: done2), rest2.
      rewrite Hsec2, Hids2, Hids1, <- !app_assoc. simpl.
      change ((s, entryAfter w c) :: done2) with ([(s, entryAfter w c)] ++ done2).
      rewrite Happ. repeat split; auto.
      constructor; [apply entryAfter_kept | exact Hkept].
    + exists [(s, entryAfter w c)], rest. rewrite Hsec1, Hids1.
      repeat split; auto; [|discriminate]. simpl.
      constructor; [apply entryAfter_kept | apply kept_refl].
Qed.

(** C9. An identifier, once assigned, is never regenerated or replaced:
    through [WebServer.init] and through [WebServer.initInterfaces] every
    entry of the store that has an identifier is still stored, unchanged,
    under its key; the statement that assigns identifiers does nothing for
    such an entry; the handles the two loops append for it hold its
    identifier; [init] of a handle of any class, in any state, leaves the
    handle with the identifier of the entry it is given; and after
    [WebServer.init], as after [WebServer.initInterfaces], the store holds
    every entry under its key, unchanged if it had an identifier, and the
    handles that were appended carry, in order, the names and the
    identifiers the store holds for their entries (all of them when the call
    returned, those of the rounds that ran when it threw). *)
Theorem uuid_assigned_once (env : Env) (w : World) :
  NoDup (keys (servers (config w))) ->
  NoDup (keys (interfaces (config w))) ->
  (forall k c u,
      c_uuid c = Some u ->
      (lookup k (servers (config w)) = Some c ->
       lookup k (servers (config (fst (WebServer_init env w)))) = Some c)
      /\ (lookup k (interfaces (config w)) = Some c ->
          lookup k (interfaces (config (fst (WebServer_init env w)))) = Some c
          /\ lookup k (interfaces
                         (config (fst (WebServer_initInterfaces
                                         env (interfaces (config w)) w))))
             = Some c))
  /\ (forall store k c u w0,
         c_uuid c = Some u -> assignUuid store k c w0 = (c, w0))
  /\ (forall w0 s c u,
         c_uuid c = Some u ->
         match newServer s with
         | None => _servers (fst (initServer env w0 s c)) = _servers w0
         | Some _ =>
             exists h, _servers (fst (initServer env w0 s c)) = _servers w0 ++ [Some h]
                       /\ uuid (proto h) = Some u
         end
         /\ (_servers (fst (initInterface env w0 s c)) = _servers w0
             \/ exists l h, _servers (fst (initInterface env w0 s c)) = l ++ [Some h]
                            /\ uuid (proto h) = Some u))
  /\ (forall conf l c h u,
         c_uuid c = Some u ->
         uuid (proto (snd (fst (Handle_init env conf l c h)))) = Some u)
  /\ (forall w' r,
         WebServer_init env w = (w', r) ->
         Forall2 kept (servers (config w)) (servers (config w'))
         /\ Forall2 kept (interfaces (config w)) (interfaces (config w'))
         /\ exists k,
              ids (_servers w')
              = ids (_servers w)
                ++ firstn k (serverIds (servers (config w'))
                             ++ interfaceIds (interfaces (config w')))
              /\ (r = Normal tt ->
                  ids (_servers w')
                  = ids (_servers w)
                    ++ serverIds (servers (config w'))
                    ++ interfaceIds (interfaces (config w'))))
  /\ (forall w' r,
         WebServer_initInterfaces env (interfaces (config w)) w = (w', r) ->
         Forall2 kept (interfaces (config w)) (interfaces (config w'))
         /\ ids (_servers w')
            = ids (_servers w) ++ interfaceIds (interfaces (config w'))).
Proof.
  intros Hs Hi. split; [|split; [|split; [|split; [|split]]]].
  - intros k c u Hu.
    (* the loop over the servers *)
    assert (Hsrv : forall P : World -> Prop,
               (forall w0 s0 c0, P w0 -> P (fst (initServer env w0 s0 c0))) ->
               P w -> P (fst (forIn (initServer env) (servers (config w)) w))).
    { intros P HP Hw.
      apply (forIn_preserves (initServer env) P (fun _ _ => True)); auto.
      apply Forall_forall. auto. }
    split.
    + intros Hl. unfold WebServer_init, WebServer_initInterfaces.
      assert (H1 : lookup k (servers (config (fst (forIn (initServer env)
                                                      (servers (config w)) w))))
                   = Some c).
      { apply (forIn_preserves (initServer env)
                 (fun w0 => lookup k (servers (config w0)) = Some c)
                 (fun s0 c0 => s0 = k -> c0 = c)); [| |exact Hl].
        - intros w0 s0 c0 Hq Hw0. rewrite initServer_config.
          apply (persisted_lookup setServer servers k s0 c c0 u); auto.
          apply setServer_servers.
        - now apply lookup_unique. }
      destruct (forIn (initServer env) (servers (config w)) w) as [w1 [[]|e]];
        simpl in *; [|exact H1].
      apply (forIn_preserves (initInterface env)
               (fun w0 => lookup k (servers (config w0)) = Some c)
               (fun _ _ => True)); [| |exact H1].
      * intros w0 s0 c0 _ Hw0.
        rewrite initInterface_config, persisted_setInterface_servers. exact Hw0.
      * apply Forall_forall. auto.
    + intros Hl.
      assert (Hint : forall w1, lookup k (interfaces (config w1)) = Some c ->
                 lookup k (interfaces (config (fst (forIn (initInterface env)
                                                      (interfaces (config w)) w1))))
                 = Some c).
      { intros w1 H1.
        apply (forIn_preserves (initInterface env)
                 (fun w0 => lookup k (interfaces (config w0)) = Some c)
                 (fun s0 c0 => s0 = k -> c0 = c)); [| |exact H1].
        - intros w0 s0 c0 Hq Hw0. rewrite initInterface_config.
          apply (persisted_lookup setInterface interfaces k s0 c c0 u); auto.
          apply setInterface_interfaces.
        - now apply lookup_unique. }
      split; [|apply Hint; exact Hl].
      unfold WebServer_init, WebServer_initInterfaces.
      assert (H1 : lookup k (interfaces (config (fst (forIn (initServer env)
                                                         (servers (config w)) w))))
                   = Some c).
      { apply Hsrv; [|exact Hl].
        intros w0 s0 c0 Hw0.
        rewrite initServer_config, persisted_setServer_interfaces. exact Hw0. }
      destruct (forIn (initServer env) (servers (config w)) w) as [w1 [[]|e]];
        simpl in *; [|exact H1].
      apply Hint. exact H1.
  - intros store k c u w0 Hu. exact (assignUuid_assigned store k c w0 u Hu).
  - intros w0 s c u Hu. split.
    + exact (initServer_handle env w0 s c u Hu).
    + exact (initInterface_handle env w0 s c u Hu).
  - intros conf l c h u Hu. rewrite Handle_init_uuid. exact Hu.
  - intros w' r Hinit. unfold WebServer_init, WebServer_initInterfaces in Hinit.
    destruct (forIn_sections (initServer env) servers serverIds
                (fun a b => flat_map_app _ a b)
                (fun w0 s c done rest H1 H2 =>
                   conj (initServer_section env w0 s c done rest H1 H2)
                        (initServer_ids env w0 s c))
                (servers (config w)) [] w eq_refl Hs)
      as (done2 & rest2 & Hsec & Hids & Hkept & Hnorm).
    assert (Hint : interfaces (config (fst (forIn (initServer env)
                                              (servers (config w)) w)))
                   = interfaces (config w)).
    { apply (forIn_preserves (initServer env)
               (fun w0 => interfaces (config w0) = interfaces (config w))
               (fun _ _ => True)); [| |reflexivity].
      - intros w0 s0 c0 _ Hw0.
        rewrite initServer_config, persisted_setServer_interfaces. exact Hw0.
      - apply Forall_forall. auto. }
    destruct (forIn (initServer env) (servers (config w)) w) as [w1 [[]|e]];
      simpl in *.
    + specialize (Hnorm eq_refl). subst rest2. rewrite app_nil_r in *.
      destruct (forIn_sections (initInterface env) interfaces interfaceIds
                  (fun a b => flat_map_app _ a b)
                  (fun w0 s c done rest H1 H2 =>
                     conj (initInterface_section env w0 s c done rest H1 H2)
                          (initInterface_ids env w0 s c))
                  (interfaces (config w)) [] w1 Hint Hi)
        as (done3 & rest3 & Hsec3 & Hids3 & Hkept3 & Hnorm3).
      specialize (Hnorm3 (forIn_returns (initInterface env)
                            (initInterface_returns env) _ w1)).
      subst rest3. rewrite app_nil_r in *.
      assert (Hsrv3 : servers (config (fst (forIn (initInterface env)
                                                (interfaces (config w)) w1)))
                      = servers (config w1)).
      { apply (forIn_preserves (initInterface env)
                 (fun w0 => servers (config w0) = servers (config w1))
                 (fun _ _ => True)); [| |reflexivity].
        - intros w0 s0 c0 _ Hw0.
          rewrite initInterface_config, persisted_setInterface_servers. exact Hw0.
        - apply Forall_forall. auto. }
      rewrite Hinit in *. simpl in *.
      rewrite Hsrv3, Hsec, Hsec3.
      split; [exact Hkept|]. split; [exact Hkept3|].
      exists (length (serverIds done2 ++ interfaceIds done3)).
      rewrite firstn_all, Hids3, Hids, <- app_assoc. split; [reflexivity | auto].
    + injection Hinit as <- <-. rewrite Hsec, Hint.
      split; [exact Hkept|]. split; [apply kept_refl|].
      exists (length (serverIds done2)). split; [|discriminate].
      rewrite Hids. unfold serverIds at 3. rewrite flat_map_app.
      fold (serverIds done2). fold (serverIds rest2).
      rewrite <- app_assoc, firstn_app, firstn_all, Nat.sub_diag. simpl.
      rewrite app_nil_r. reflexivity.
  - intros w' r Hinit. unfold WebServer_initInterfaces in Hinit.
    destruct (forIn_sections (initInterface env) interfaces interfaceIds
                (fun a b => flat_map_app _ a b)
                (fun w0 s c done rest H1 H2 =>
                   conj (initInterface_section env w0 s c done rest H1 H2)
                        (initInterface_ids env w0 s c))
                (interfaces (config w)) [] w eq_refl Hi)
      as (done3 & rest3 & Hsec3 & Hids3 & Hkept3 & Hnorm3).
    specialize (Hnorm3 (forIn_returns (initInterface env)
                          (initInterface_returns env) _ w)).
    subst rest3. rewrite app_nil_r in *.
    rewrite Hinit in *. simpl in *. rewrite Hsec3.
    split; [exact Hkept3 | exact Hids3].
Qed.

End Classes.

(** ** Concrete runs *)

(** *** The address resolver on the example host *)

(** Witness of C10: on the example host the first qualifying address is the
    IPv4 address of eth0, after the loopback address and the IPv6 address. *)
Lemma ip_mac_first_qualifying_witness :
  exists before a after,
    enumeration exampleNics = before ++ a :: after
    /\ (forall b, In b before -> ~ qualifies b)
    /\ qualifies a
    /\ WebServer_ip exampleNics = address a
    /\ WebServer_mac exampleNics = mac a.
Proof.
  apply (proj2 (ip_mac_first_qualifying exampleNics)).
  exists eth0v4. split.
  - simpl. tauto.
  - apply isScopeLocal_qualifies. reflexivity.
Defined.

Example ip_mac_example :
  WebServer_ip exampleNics = "192.168.1.20"
  /\ WebServer_mac exampleNics = "b8:27:eb:12:34:56"
  /\ WebServer_ip [("lo", [lo])] = "0.0.0.0"
  /\ WebServer_mac [("lo", [lo])] = "00:00:00:00".
Proof. repeat split; reflexivity. Qed.

(** *** The mDNS response handler on example packets *)



(** *** The binding loader on the example bridge *)



(** When the file is gone the flag keeps its value, and the loading flag
    stays set. *)
Example reload_of_missing_file :
  isRunning (if_proto (fst (loadBindings (bindingsAt None) influxCfg loadedBridge)))
  = true
  /\ _isLoading (fst (loadBindings (bindingsAt None) influxCfg loadedBridge)) = true.
Proof. split; reflexivity. Qed.

(** Witness of C7: the file changes to its second version, the first
    notification reloads it, the second finds the recorded time and does
    nothing. *)
Lemma duplicate_notification_witness :
  loads (onChange (bindingsAt (Some secondVersion)) influxCfg "change"
           (Some "influxDB.json") loadedBridge) = 1
  /\ onChange (bindingsAt (Some secondVersion)) influxCfg "change"
       (Some "influxDB.json")
       (stateAfter loadedBridge
          (onChange (bindingsAt (Some secondVersion)) influxCfg "change"
             (Some "influxDB.json") loadedBridge))
     = Normal (stateAfter loadedBridge
                 (onChange (bindingsAt (Some secondVersion)) influxCfg "change"
                    (Some "influxDB.json") loadedBridge), 0).
Proof.
  split; [reflexivity|].
  apply (duplicate_notification
           (bindingsAt (Some secondVersion)) (bindingsAt (Some secondVersion))
           influxCfg influxCfg "change" "change"
           (Some "influxDB.json") (Some "influxDB.json")
           loadedBridge secondVersion); reflexivity.
Defined.

(** *** The handshake on example exchanges *)

(** C5, the failing run. The registration comes back with status 500 and the
    body [null]: reading [result.error.message] throws inside the executor,
    so the promise is neither rejected nor resolved, now or after any later
    event; the second request is not sent and no listener is registered. *)
Theorem null_error_body_never_settles (evs : list HandshakeEvent) :
  promise (snd (run exampleConfig exampleServers
                  (InitTimer :: Phase1Returns nullError500 :: evs)
                  (remBridge, scheduled))) = Pending
  /\ requests (snd (run exampleConfig exampleServers
                      (InitTimer :: Phase1Returns nullError500 :: evs)
                      (remBridge, scheduled))) = ["/config/checkconnection/"]
  /\ listening (snd (run exampleConfig exampleServers
                       (InitTimer :: Phase1Returns nullError500 :: evs)
                       (remBridge, scheduled))) = false
  /\ uncaught (snd (run exampleConfig exampleServers
                      (InitTimer :: Phase1Returns nullError500 :: evs)
                      (remBridge, scheduled)))
     = ["TypeError: Cannot read properties of null (reading 'message')"].
Proof.
  change (InitTimer :: Phase1Returns nullError500 :: evs)
    with ([InitTimer; Phase1Returns nullError500] ++ evs).
  rewrite run_app.
  set (st := run exampleConfig exampleServers
               [InitTimer; Phase1Returns nullError500] (remBridge, scheduled)).
  assert (Hst : st = (fst st, snd st)) by reflexivity.
  rewrite Hst, run_quiet; [repeat split; reflexivity | repeat split; reflexivity].
Qed.

(** Witness of C6 as amended: the acknowledgment comes first, the refusal of
    the second request and the deadline after it. *)
Lemma acknowledged_first_witness :
  promise (snd (run exampleConfig exampleServers
                  ([InitTimer; Phase1Returns registered200; SettleTimer]
                   ++ [] ++ CheckEmit :: [Phase2Returns verify500; DeadlineTimer])
                  (remBridge, scheduled)))
  = Resolved.
Proof.
  apply (acknowledged_first exampleConfig exampleServers remBridge registered200
           [] [Phase2Returns verify500; DeadlineTimer]).
  - simpl. discriminate.
  - reflexivity.
  - reflexivity.
  - constructor.
Defined.

(** Counterexample to C6 as stated. The registration succeeds; the second
    request comes back with status 500 while the listener is registered and
    the deadline still armed; the acknowledgment is delivered next, before the
    deadline. The handshake has been rejected by then and stays rejected. The
    same happens when the second request gets no answer: its own timeout makes
    it come back with status -1 before the deadline. *)
Lemma refusal_before_acknowledgment :
  phase1Succeeds (cfg_name remBridge) registered200 = true
  /\ listening (snd (run exampleConfig exampleServers
                       [InitTimer; Phase1Returns registered200; SettleTimer;
                        Phase2Returns verify500]
                       (remBridge, scheduled))) = true
  /\ _tmr (snd (run exampleConfig exampleServers
                  [InitTimer; Phase1Returns registered200; SettleTimer;
                   Phase2Returns verify500]
                  (remBridge, scheduled))) = true
  /\ promise (snd (run exampleConfig exampleServers
                     [InitTimer; Phase1Returns registered200; SettleTimer;
                      Phase2Returns verify500; CheckEmit]
                     (remBridge, scheduled)))
     = RejectedWith "initConnection: boom"
  /\ promise (snd (run exampleConfig exampleServers
                     [InitTimer; Phase1Returns registered200; SettleTimer;
                      Phase2Returns (NoResponse "Request timeout"); CheckEmit]
                     (remBridge, scheduled)))
     = RejectedWith "initConnection: Request timeout".
Proof. repeat split; reflexivity. Qed.

(** *** isConnected on the example bridges *)

Lemma connectedEarly_reachable : REM_reachable connectedEarly.
Proof.
  apply (reach_step (remBridge, [scheduled])).
  - apply (reach_step (new_REMInterfaceServer "rem" "rem", [])).
    + apply reach_new.
    + exact (rem_init remCfg (new_REMInterfaceServer "rem" "rem") []).
  - exact (rem_socket true remBridge [scheduled]).
Qed.

(** Counterexample to C8 as stated. After [init] and the connect of the
    socket client, the REM bridge reports connected although no connection id
    is stored and its handshake has not started; and the Influx bridge
    reports connected because it is running, and for no other reason. *)
Lemma connected_without_handshake :
  REM_reachable connectedEarly
  /\ isConnected noEvents (REMInterface (fst connectedEarly)) = Normal true
  /\ remoteConnectionId (rem_proto (fst connectedEarly)) = None
  /\ snd connectedEarly = [scheduled]
  /\ isRunning (if_proto loadedBridge) = true
  /\ isConnected noEvents (InfluxInterface loadedBridge) = Normal true.
Proof.
  split; [exact connectedEarly_reachable | repeat split; reflexivity].
Qed.

(** Witness of C8 as amended, on the same state. *)
Lemma isConnected_meaning_witness :
  sockClient (fst connectedEarly) = Some true
  /\ isRunning (rem_proto (fst connectedEarly)) = true.
Proof.
  apply (proj1 (isConnected_meaning noEvents) connectedEarly).
  - exact connectedEarly_reachable.
  - reflexivity.
Defined.

(** *** The registry on the example stores *)

(** C4, the failing run. With an HTTP server registered first and an mDNS
    server second, [stopAsync] stops the HTTP server first: the handles are
    stopped in registration order, not in the reverse order. *)
Theorem stopAsync_stops_first_registered_first :
  stopped (snd (WebServer_stopAsync exampleServers)) = [runningHttp; runningMdns]
  /\ stopped (snd (WebServer_stopAsync exampleServers))
     <> rev (registered exampleServers).
Proof.
  split; [reflexivity|]. intros H. vm_compute in H. discriminate H.
Qed.

(** Counterexample to C1 as stated. [init] on a store whose only entry is a
    disabled http server creates a handle for it and appends it. *)
Lemma disabled_server_gets_handle :
  c_enabled httpOff = false
  /\ WebServer_init noDiscovery numbered (bindingsAt None) offWorld
     = ({| config := {| servers := [("http", entry "http" false (Some "uuid-0"))];
                        interfaces := []; hasServer := false |};
           _servers :=
             [Some (Http {| http_proto := {| name := "http"; type := "http";
                                             uuid := Some "uuid-0";
                                             remoteConnectionId := None;
                                             isRunning := false |};
                            app := false; server := false; sockServer := false;
                            _sockets := 0 |})];
           uuids := 1 |},
        Normal tt).
Proof. split; reflexivity. Qed.

(** Witness of C1 as amended, on the same entry: the round for the
    disabled http entry appends one handle of class [HttpServer], and the
    round of [initInterfaces] for the same entry appends none. *)
Lemma disabled_entry_witness :
  initInterface noDiscovery numbered (bindingsAt None) offWorld "http" httpOff
  = ({| config := persisted numbered setInterface "http" httpOff offWorld;
        _servers := []; uuids := 1 |}, Normal tt)
  /\ snd (initServer noDiscovery numbered (bindingsAt None) offWorld "http" httpOff)
     = Normal tt
  /\ config (fst (initServer noDiscovery numbered (bindingsAt None) offWorld
                    "http" httpOff))
     = persisted numbered setServer "http" httpOff offWorld
  /\ exists h,
       _servers (fst (initServer noDiscovery numbered (bindingsAt None) offWorld
                        "http" httpOff))
       = [Some h]
       /\ classOf h = HttpServerClass
       /\ name (proto h) = "http"
       /\ uuid (proto h) = Some "uuid-0"
       /\ isRunning (proto h) = false
       /\ isConnected noEvents h = Normal false.
Proof.
  exact (disabled_entry noDiscovery noEvents numbered (bindingsAt None) offWorld
           "http" httpOff eq_refl).
Defined.

Lemma exampleWorld_keys :
  NoDup (keys (servers (config exampleWorld)))
  /\ NoDup (keys (interfaces (config exampleWorld))).
Proof.
  split; simpl; repeat constructor; simpl; intuition discriminate.
Qed.

(** Witness of C9: [init] on a store whose entries have their identifiers
    leaves the http entry as it is, and the handles it appends carry the
    identifiers of their entries. *)
Lemma uuid_assigned_once_witness :
  lookup "http"
    (servers (config (fst (WebServer_init noDiscovery numbered
                             (bindingsAt (Some firstVersion)) exampleWorld))))
  = Some httpOn
  /\ ids (_servers (fst (WebServer_init noDiscovery numbered
                           (bindingsAt (Some firstVersion)) exampleWorld)))
     = [("http", Some "h1"); ("influxDB", Some "i1"); ("rem", Some "r1")].
Proof.
  destruct (uuid_assigned_once noDiscovery numbered
              (bindingsAt (Some firstVersion)) exampleWorld
              (proj1 exampleWorld_keys) (proj2 exampleWorld_keys))
    as (Hstore & _ & _ & _ & Hinit & _).
  split.
  - apply (proj1 (Hstore "http" httpOn "h1" eq_refl)). reflexivity.
  - destruct (Hinit (fst (WebServer_init noDiscovery numbered
                            (bindingsAt (Some firstVersion)) exampleWorld))
                    (Normal tt) eq_refl)
      as (_ & _ & k & _ & Hall).
    exact (Hall eq_refl).
Defined.

(** The same run appends a handle for each entry, each with the identifier
    of its entry. *)
Example init_example :
  map (fun h => (name (proto h), uuid (proto h)))
      (registered (_servers (fst (WebServer_init noDiscovery numbered
                                    (bindingsAt (Some firstVersion)) exampleWorld))))
  = [("http", Some "h1"); ("influxDB", Some "i1"); ("rem", Some "r1")].
Proof. reflexivity. Qed.

(** ** Further properties of the code *)

(** X1. [WebServer.stopAsync] calls [stopAsync] of every registered handle
    once, in registration order, skipping (with a logged line) the entries
    that are already undefined, and leaves every entry of the array
    undefined. *)
Theorem stopAsync_registration_order (l : Servers) :
  stopped (snd (WebServer_stopAsync l)) = registered l
  /\ fst (WebServer_stopAsync l) = map (fun _ => None) l.
Proof.
  unfold WebServer_stopAsync. split; [apply stopFrom_order | apply stopFrom_clears].
Qed.

(** X2. When the first request of the handshake comes back with a status
    above 200 or below 0, the second request is never sent, no listener is
    ever registered, the bridge keeps no connection id from this run, and the
    promise is rejected with the reported message whenever that message can
    be read. *)
Theorem failed_registration_ends_run (conf : Config) (l : Servers)
  (s : REMInterfaceServer) (h : Handshake) (x : HttpExchange)
  (evs : list HandshakeEvent) (m : option string) :
  stage h = Phase1 -> _tmr h = false -> listening h = false ->
  promise h = Pending ->
  (200 <? status_code (sendClientRequest (cfg_name s) x))%Z
  || (status_code (sendClientRequest (cfg_name s) x) <? 0)%Z = true ->
  error_message (sendClientRequest (cfg_name s) x) = Normal m ->
  fst (run conf l (Phase1Returns x :: evs) (s, h)) = s
  /\ requests (snd (run conf l (Phase1Returns x :: evs) (s, h))) = requests h
  /\ listening (snd (run conf l (Phase1Returns x :: evs) (s, h))) = false
  /\ promise (snd (run conf l (Phase1Returns x :: evs) (s, h)))
     = RejectedWith ("initConnection: " ++ show m).
Proof.
  intros Hs Ht Hl Hp Hcode Hm.
  destruct (phase1_failure conf l s h x evs Hs Ht Hl Hcode) as (H1 & H2 & H3 & H4).
  rewrite Hm, Hp in H4. auto.
Qed.

(** Witness of X2: the registration request times out. *)
Lemma failed_registration_ends_run_witness :
  requests (snd (run exampleConfig exampleServers
                   (Phase1Returns (NoResponse "Request timeout")
                    :: [SettleTimer; CheckEmit; Phase2Returns registered200; DeadlineTimer])
                   (remBridge, onInitTimer exampleConfig scheduled)))
  = ["/config/checkconnection/"]
  /\ promise (snd (run exampleConfig exampleServers
                     (Phase1Returns (NoResponse "Request timeout")
                      :: [SettleTimer; CheckEmit; Phase2Returns registered200; DeadlineTimer])
                     (remBridge, onInitTimer exampleConfig scheduled)))
     = RejectedWith "initConnection: Request timeout".
Proof.
  destruct (failed_registration_ends_run exampleConfig exampleServers remBridge
              (onInitTimer exampleConfig scheduled) (NoResponse "Request timeout")
              [SettleTimer; CheckEmit; Phase2Returns registered200; DeadlineTimer]
              (Some "Request timeout")
              eq_refl eq_refl eq_refl eq_refl eq_refl eq_refl)
    as (_ & Hreq & _ & Hp).
  split; [exact Hreq | exact Hp].
Defined.

(** X3. The mDNS 'response' handler walks the pairs of a pending query and
    an answer of the packet, queries first. With no listener registered for
    ['mdnsResponse'] it returns, having notified the answer of every pair with
    equal names and removed exactly the pending queries whose name some
    answer carries, the others kept in order. With a listener registered it
    is left at the first such pair by what the listener throws, that one
    answer notified and no query removed; it returns, with nothing notified
    or removed, when there is no such pair. *)
Theorem onResponse_effect (listeners : nat) (pending : list MdnsQuery)
  (answers : list MdnsAnswer) :
  onResponse listeners pending answers
  = match listeners, matching pending answers with
    | O, pairs =>
        ({| queries := filter (fun q => negb (answered answers q)) pending;
            emitted := map snd pairs |}, Normal tt)
    | S _, [] => ({| queries := pending; emitted := [] |}, Normal tt)
    | S _, (_, a) :: _ =>
        ({| queries := pending; emitted := [a] |}, Throw invalidUrl)
    end.
Proof.
  destruct listeners as [|n]; [|apply onResponse_listener].
  pose proof (onResponse_emitted pending answers) as He.
  pose proof (onResponse_queries pending answers) as Hq.
  pose proof (onResponse_returns pending answers) as Hr.
  destruct (onResponse 0 pending answers) as [[qs em] r]. simpl in *.
  subst. reflexivity.
Qed.

(** X4. Once the promise of a handshake run has settled, no event changes
    it: a completion that arrives late is discarded. *)
Theorem settled_promise_is_final (conf : Config) (l : Servers)
  (evs : list HandshakeEvent) (s : REMInterfaceServer) (h : Handshake) :
  promise h <> Pending ->
  promise (snd (run conf l evs (s, h))) = promise h.
Proof. apply run_settled. Qed.

(** Witness of X4: a run resolved by the acknowledgment, then the refusal of
    the second request and the deadline. *)
Lemma settled_promise_is_final_witness :
  promise (snd (run exampleConfig exampleServers
                  [Phase2Returns verify500; DeadlineTimer]
                  (run exampleConfig exampleServers
                     [InitTimer; Phase1Returns registered200; SettleTimer; CheckEmit]
                     (remBridge, scheduled))))
  = Resolved.
Proof.
  apply (settled_promise_is_final exampleConfig exampleServers
           [Phase2Returns verify500; DeadlineTimer]
           (fst (run exampleConfig exampleServers
                   [InitTimer; Phase1Returns registered200; SettleTimer; CheckEmit]
                   (remBridge, scheduled)))
           (snd (run exampleConfig exampleServers
                   [InitTimer; Phase1Returns registered200; SettleTimer; CheckEmit]
                   (remBridge, scheduled)))).
  simpl. discriminate.
Defined.

(** X5. A load that succeeds installs a binding built from the
    configuration and the parsed file, records the file's modification time,
    marks the bridge running and clears the loading flag. *)
Theorem successful_load_installs_binding (env : Env) (c : Cfg) (s : InterfaceServer) :
  snd (loadBindings env c s) = true ->
  exists f doc,
    bindingsFile env s = Some f /\ file_json f = Some doc
    /\ bindings (fst (loadBindings env c s))
       = Some {| ib_cfg := c; ib_options := baseOptions c; ib_file := doc |}
    /\ _fileTime (fst (loadBindings env c s)) = file_mtime f
    /\ isRunning (if_proto (fst (loadBindings env c s))) = true
    /\ _isLoading (fst (loadBindings env c s)) = false.
Proof. apply loadBindings_success. Qed.

(** Witness of X5: the bridge reloads the second version of its file. *)
Lemma successful_load_installs_binding_witness :
  exists f doc,
    bindingsFile (bindingsAt (Some secondVersion)) loadedBridge = Some f
    /\ file_json f = Some doc
    /\ bindings (fst (loadBindings (bindingsAt (Some secondVersion)) influxCfg loadedBridge))
       = Some {| ib_cfg := influxCfg; ib_options := baseOptions influxCfg; ib_file := doc |}
    /\ _fileTime (fst (loadBindings (bindingsAt (Some secondVersion)) influxCfg loadedBridge))
       = file_mtime f
    /\ isRunning (if_proto (fst (loadBindings (bindingsAt (Some secondVersion))
                                   influxCfg loadedBridge))) = true
    /\ _isLoading (fst (loadBindings (bindingsAt (Some secondVersion))
                          influxCfg loadedBridge)) = false.
Proof.
  apply (successful_load_installs_binding (bindingsAt (Some secondVersion))
           influxCfg loadedBridge).
  reflexivity.
Defined.

(** X6. [getInterface] returns the first address, in enumeration order, that
    is not internal, is of the server's family and whose hardware address
    passes the [indexOf] test, and [undefined] when there is none. *)
Theorem getInterface_first_match (t : NetworkInterfaces) :
  getInterface t = find isScopeLocal (enumeration t).
Proof. apply getInterface_find. Qed.

(** ** Concrete runs of the further properties *)

(** Witness of X7: the Influx bridge is removed from a registry of three. *)
Lemma removeServerByGuid_removes_witness :
  removeServerByGuid (Some "i1") (map Some threeHandles)
  = (map Some [runningHttp; runningMdns], Normal tt)
  /\ findServerByGuid (Some "i1")
       (fst (removeServerByGuid (Some "i1") (map Some threeHandles)))
     = Normal None.
Proof.
  apply (removeServerByGuid_removes (Some "i1") threeHandles). reflexivity.
Defined.

(** Witness of X8: the HTTP server stays, also when the removal throws on an
    entry that is undefined. *)
Lemma removeServerByGuid_keeps_others_witness :
  In (Some runningHttp)
     (fst (removeServerByGuid (Some "i1")
             [Some influxHandle; Some runningHttp; None])).
Proof.
  apply (removeServerByGuid_keeps_others (Some "i1") runningHttp
           [Some influxHandle; Some runningHttp; None]).
  - simpl. right. left. reflexivity.
  - reflexivity.
Defined.

(** Witness of X9: two bridges registered under one identifier, one after
    the other. *)
Lemma removeServerByGuid_skips_neighbour_witness :
  findServerByGuid (Some "i1")
    (fst (removeServerByGuid (Some "i1")
            (map Some [runningHttp] ++ Some influxHandle
               :: Some (InfluxInterface brokenBridge) :: [Some runningMdns])))
  = Normal (Some (InfluxInterface brokenBridge)).
Proof.
  apply (removeServerByGuid_skips_neighbour (Some "i1") [runningHttp]
           influxHandle (InfluxInterface brokenBridge) [Some runningMdns]).
  - intros h [<- | []]. reflexivity.
  - reflexivity.
  - reflexivity.
Defined.

(** Witness of X12: the registry of the examples, stopped. *)
Lemma stopped_registry_throws_witness :
  exists e, findServer "http" (fst (WebServer_stopAsync exampleServers)) = Throw e.
Proof.
  apply (proj1 (stopped_registry_throws exampleServers
                  (fun H => eq_ind exampleServers
                              (fun l => match l with [] => False | _ => True end)
                              I [] H))).
Defined.

(** Witness of X13: an event goes to the HTTP server and to the Influx
    bridge, not to the mDNS server. *)
Lemma emitToClients_recipients_witness :
  [ToSockets "http" "/" "temps"; ToBinding "influxDB" "temps"]
  = map (delivery "temps") (filter listens (registered (map Some threeHandles))).
Proof.
  apply (emitToClients_recipients "temps" (map Some threeHandles)).
  reflexivity.
Defined.

(** Witness of X14: the bridge without binding keeps the event from the
    bridge registered after it. *)
Lemma emitToClients_stops_at_failure_witness :
  exists message,
    WebServer_emitToClients "temps"
      (map Some [runningHttp] ++ Some (InfluxInterface brokenBridge)
         :: [Some influxHandle])
    = (map (delivery "temps") (filter listens [runningHttp]), Throw message).
Proof.
  apply (emitToClients_stops_at_failure "temps" [runningHttp]
           (Some (InfluxInterface brokenBridge)) [Some influxHandle]).
  - intros h [<- | []]. reflexivity.
  - reflexivity.
Defined.

(** Witness of X16: the Influx bridge after its [init] and a reload. *)
Lemma bridge_never_loading_witness :
  _isLoading (fst (loadBindings (bindingsAt (Some secondVersion)) influxCfg
                     loadedBridge)) = false.
Proof.
  apply (bridge_never_loading noDiscovery false).
  apply (bridge_next noDiscovery false loadedBridge).
  - apply (bridge_next noDiscovery false (new_InterfaceServer "influxDB" "influx")).
    + apply bridge_new.
    + exact (bridge_init noDiscovery false (bindingsAt (Some firstVersion)) []
               influxCfg (new_InterfaceServer "influxDB" "influx")).
  - apply (bridge_change noDiscovery false (bindingsAt (Some secondVersion))
             influxCfg "change" (Some "influxDB.json") loadedBridge _ 1).
    + simpl. left. reflexivity.
    + reflexivity.
Defined.

(** Witness of X17: an HTTP bridge whose file does not parse is not running,
    and an event for it is dropped. *)
Lemma HttpInterfaceServer_emitToClients_returns_witness :
  exists es,
    Handle_emitToClients "temps"
      (HttpInterface
         (snd (HttpInterfaceServer_init noDiscovery (rulesAt (Some malformed)) []
                 rulesCfg (new_InterfaceServer "rulesManager" "http"))))
    = Normal es.
Proof.
  apply (proj2 (HttpInterfaceServer_emitToClients_returns noDiscovery _ "temps"
                  (bridge_next noDiscovery true _ _
                     (bridge_new noDiscovery true "rulesManager" "http")
                     (bridge_init noDiscovery true (rulesAt (Some malformed)) []
                        rulesCfg (new_InterfaceServer "rulesManager" "http"))))).
Defined.

(** Witness of X18: the Influx bridge on a file that does not parse. *)
Lemma init_on_unparsable_file_witness :
  isRunning (if_proto brokenBridge) = true
  /\ bindings brokenBridge = None
  /\ (exists e, Handle_emitToClients "temps" (InfluxInterface brokenBridge) = Throw e)
  /\ (exists e, Handle_emitToClients "temps" (MqttInterface brokenBridge) = Throw e)
  /\ (exists e, isConnected noEvents (MqttInterface brokenBridge) = Throw e).
Proof.
  apply (init_on_unparsable_file noEvents (bindingsAt (Some malformed)) influxCfg
           "influxDB" "influx" "influxDB.json" "temps" malformed).
  - reflexivity.
  - reflexivity.
  - discriminate.
  - reflexivity.
  - reflexivity.
Defined.

(** Witness of X19: the Influx bridge when its file is missing. *)
Lemma init_without_file_witness :
  (watchers (InterfaceServer_init (bindingsAt None) influxCfg
               (new_InterfaceServer "influxDB" "influx")) = []
   /\ bindings (InterfaceServer_init (bindingsAt None) influxCfg
                  (new_InterfaceServer "influxDB" "influx")) = None
   /\ isRunning (if_proto (InterfaceServer_init (bindingsAt None) influxCfg
                             (new_InterfaceServer "influxDB" "influx"))) = false)
  /\ HttpInterfaceServer_init noDiscovery (bindingsAt None) [] influxCfg
       (new_InterfaceServer "influxDB" "influx")
     = ([], InterfaceServer_init (bindingsAt None) influxCfg
              (new_InterfaceServer "influxDB" "influx")).
Proof.
  apply (init_without_file noDiscovery (bindingsAt None) [] influxCfg
           "influxDB.json" (new_InterfaceServer "influxDB" "influx")).
  - reflexivity.
  - reflexivity.
Defined.

(** Witness of X20: the entry of the registered Influx bridge is updated.
    The bridge is initialised on the second version of its file and is no
    longer registered. *)
Lemma updateServerInterface_unregisters_witness :
  findServerByGuid (Some "i1")
    (_servers (fst (fst (WebServer_updateServerInterface noDiscovery numbered
                           storeInterface (bindingsAt (Some secondVersion))
                           influxCfg runningWorld))))
  = Normal None
  /\ WebServer_updateServerInterface noDiscovery numbered storeInterface
       (bindingsAt (Some secondVersion)) influxCfg runningWorld
     = ({| config := setInterface "influxDB" influxCfg exampleConfig;
           _servers := [Some runningHttp; Some runningMdns];
           uuids := 2 |},
        Some (InfluxInterface
                (InterfaceServer_init (bindingsAt (Some secondVersion)) influxCfg
                   loadedBridge)),
        Normal tt).
Proof.
  exact (updateServerInterface_unregisters noDiscovery numbered storeInterface
           (bindingsAt (Some secondVersion)) influxCfg runningWorld
           threeHandles influxHandle eq_refl eq_refl eq_refl).
Defined.

(** Witness of X23: an empty registry, and a peer that accepts the
    registration. *)
Lemma no_listener_no_connection_witness :
  promise (snd (run exampleConfig []
                  [InitTimer; Phase1Returns registered200; SettleTimer; CheckEmit;
                   DeadlineTimer]
                  (remBridge, scheduled))) <> Resolved
  /\ listening (snd (run exampleConfig []
                       [InitTimer; Phase1Returns registered200; SettleTimer;
                        CheckEmit; DeadlineTimer]
                       (remBridge, scheduled))) = false
  /\ ~ In "/config/checkemit"
         (requests (snd (run exampleConfig []
                           [InitTimer; Phase1Returns registered200; SettleTimer;
                            CheckEmit; DeadlineTimer]
                           (remBridge, scheduled)))).
Proof.
  apply (no_listener_no_connection exampleConfig []
           [InitTimer; Phase1Returns registered200; SettleTimer; CheckEmit;
            DeadlineTimer] remBridge).
  reflexivity.
Defined.


(** Witness of X27: the Influx bridge is found under its name. *)
Lemma init_then_findServer_witness :
  exists h,
    findServer "influxDB"
      (_servers (fst (WebServer_init noDiscovery numbered
                        (bindingsAt (Some firstVersion)) exampleWorld)))
    = Normal (Some h)
    /\ name (proto h) = "influxDB".
Proof.
  apply (init_then_findServer noDiscovery numbered
           (bindingsAt (Some firstVersion)) exampleWorld
           (fst (WebServer_init noDiscovery numbered
                   (bindingsAt (Some firstVersion)) exampleWorld))
           "influxDB").
  - constructor.
  - reflexivity.
  - simpl. right. left. reflexivity.
Defined.
